(** * ChromeSync: extraction, decryption, merge and pipeline

    A shallow embedding of the Python sources of ChromeSync
    (src/core/extractors, src/core/importers, src/utils/security.py,
    src/gui/sync_worker.py and src/main.py) together with the properties
    that the design document states about them.

    Conventions.
    - Python integers are [Z]; byte strings are [list byte]; text is
      [string]; a [dict] keyed by integers or names is a [gmap].
    - Code that touches the disk, the progress callback or the log is a
      computation [M St A := St -> Exc A * St]: the state survives an
      exception, so that [try]/[except]/[finally] can be written as the
      source has them.
    - Python evaluates [x / y] on integers in binary floating point.  The
      embedding keeps the exact rational (type [Q]); [int(...)] truncates
      towards zero as Python does. *)

From Stdlib Require Import ZArith QArith Qpower String Ascii List Lia DecimalString.
From Stdlib Require Import Init.Byte.
From stdpp Require Import base option list gmap strings.

Open Scope Z_scope.

(** ** Python helpers *)

(** [str(n)] for an integer. *)
Definition str_Z (z : Z) : string := NilZero.string_of_int (Z.to_int z).

(** [str(n)] for a length or an index. *)
Definition str_nat (n : nat) : string := str_Z (Z.of_nat n).

(** The double quote and the line feed, which string literals here
    cannot hold. *)
Definition dquote : string := String (ascii_of_nat 34) EmptyString.
Definition newline : string := String (ascii_of_nat 10) EmptyString.

(** [int(q)]: truncation towards zero. *)
Definition int_of_Q (q : Q) : Z := Z.quot (Qnum q) (Z.pos (Qden q)).

(** [a / b] on integers, for a positive constant [b]. *)
Definition true_div (a : Z) (b : positive) : Q := a # b.

#[global] Instance byte_eq_dec : EqDecision byte := Byte.byte_eq_dec.

(** ** Data model (the classes of src/core/extractors) *)

(** [ChromePassword] (password_extractor.py). *)
Record ChromePassword := mkChromePassword {
  pw_origin_url : string;
  pw_username : string;
  pw_password : string;
  pw_action_url : string;
  pw_date_created : Z;
  pw_date_last_used : Z
}.

(** [ChromeBookmark] (bookmark_extractor.py).  [is_folder] is computed
    from [url] when the object is built and [url] is never reassigned. *)
#[warnings="-register-all"]
Inductive ChromeBookmark := mkChromeBookmark {
  bm_title : string;
  bm_url : string;
  bm_date_added : Z;
  bm_date_modified : Z;
  bm_folder_path : list string;
  bm_children : list ChromeBookmark
}.

Definition is_folder (b : ChromeBookmark) : bool :=
  bool_decide (bm_url b = EmptyString).

(** [ChromeHistoryItem] (history_extractor.py).  The constructor stores
    [last_visit_time or visit_time]. *)
Record ChromeHistoryItem := mkChromeHistoryItem {
  hi_url : string;
  hi_title : string;
  hi_visit_time : Z;
  hi_visit_count : Z;
  hi_last_visit_time : Z;
  hi_typed_count : Z;
  hi_hidden : bool
}.

Definition ChromeHistoryItem_init (url title : string) (visit_time visit_count
    last_visit_time typed_count : Z) (hidden : bool) : ChromeHistoryItem :=
  mkChromeHistoryItem url title visit_time visit_count
    (if Z.eqb last_visit_time 0 then visit_time else last_visit_time)
    typed_count hidden.

(** ** Timestamps *)

Module Timestamp.

Definition chrome_to_unix_epoch_diff : Z := 11644473600.

(** [ChromeHistoryItem.datetime]: the value handed to
    [datetime.fromtimestamp]. *)
Definition datetime_unix_timestamp (item : ChromeHistoryItem) : Q :=
  let unix_timestamp :=
    (true_div (hi_visit_time item) 1000000 - inject_Z chrome_to_unix_epoch_diff)%Q in
  if Qlt_le_dec unix_timestamp 0 then 0%Q else unix_timestamp.

(** [int(ts / 1000000 - chrome_to_unix_epoch_diff)], as
    [_write_bookmark_html] computes it for both attributes. *)
Definition bookmark_unix (ts : Z) : Z :=
  int_of_Q (true_div ts 1000000 - inject_Z chrome_to_unix_epoch_diff)%Q.

Definition indent_of (indent_level : nat) : string :=
  String.concat EmptyString (repeat "    "%string indent_level).

(** [BookmarkExtractor._write_bookmark_html]: the text written to the
    file.  [date_added_str] is the only place where the source clamps
    ([max(0, date_added_unix)]); the string is never written. *)
Fixpoint _write_bookmark_html (bookmark : ChromeBookmark) (indent_level : nat)
    : string :=
  let indent := indent_of indent_level in
  let date_added_unix := bookmark_unix (bm_date_added bookmark) in
  let date_added_str_arg := Z.max 0 date_added_unix in
  if is_folder bookmark then
    indent +:+ "<DT><H3 ADD_DATE=" +:+ dquote +:+ str_Z date_added_unix +:+ dquote
      +:+ " LAST_MODIFIED=" +:+ dquote
      +:+ str_Z (bookmark_unix (bm_date_modified bookmark)) +:+ dquote
      +:+ ">" +:+ bm_title bookmark +:+ "</H3>" +:+ newline
    +:+ indent +:+ "<DL><p>" +:+ newline
    +:+ String.concat EmptyString
          (map (fun child => _write_bookmark_html child (S indent_level))
               (bm_children bookmark))
    +:+ indent +:+ "</DL><p>" +:+ newline
  else
    indent +:+ "<DT><A HREF=" +:+ dquote +:+ bm_url bookmark +:+ dquote
      +:+ " ADD_DATE=" +:+ dquote +:+ str_Z date_added_unix +:+ dquote
      +:+ ">" +:+ bm_title bookmark +:+ "</A>" +:+ newline.

(** A bookmark with no [date_added] in the source document: the parser
    fills in 0. *)
Definition undated_bookmark : ChromeBookmark :=
  mkChromeBookmark "A" "https://a.test" 0 0 [] [].

Definition undated_folder : ChromeBookmark :=
  mkChromeBookmark "F" "" 0 0 [] [].

End Timestamp.

(** ** Relational stores (the two tables that history_extractor.py creates
    and history_importer.py merges) *)

Record PlaceRow := mkPlaceRow {
  place_id : Z;
  place_url : string;
  place_title : string;
  place_rev_host : string;
  place_visit_count : Z;
  place_hidden : Z;
  place_typed : Z;
  place_frecency : Z;
  place_last_visit_date : Z;
  place_guid : string
}.

Record VisitRow := mkVisitRow {
  visit_id : Z;
  visit_from_visit : Z;
  visit_place_id : Z;
  visit_date : Z;
  visit_type : Z;
  visit_session : Z
}.

(** A SQLite file holding [moz_places] and [moz_historyvisits]; rows are
    kept in insertion order.  [id INTEGER PRIMARY KEY] is enforced by
    [insert_place] and [insert_visit] below. *)
Record Database := mkDatabase {
  moz_places : list PlaceRow;
  moz_historyvisits : list VisitRow
}.

Definition empty_database : Database := mkDatabase [] [].

(** ** Effects *)

(** The exceptions that the modelled code raises or meets; all of them
    derive from Python's [Exception]. *)
Inductive exn :=
| CancelledByUser
| OSError (what : string)
| SqliteError (what : string)
| IndexError
| ZeroDivisionError
| RuntimeError (msg : string)
| DecryptionError (what : string)
| ValueError (msg : string).

(** [type(e).__name__]. *)
Definition type_name (e : exn) : string :=
  match e with
  | CancelledByUser => "Exception"
  | OSError _ => "OSError"
  | SqliteError _ => "Error"
  | IndexError => "IndexError"
  | ZeroDivisionError => "ZeroDivisionError"
  | RuntimeError _ => "RuntimeError"
  | DecryptionError _ => "Exception"
  | ValueError _ => "ValueError"
  end.

(** [str(e)]. *)
Definition str_exn (e : exn) : string :=
  match e with
  | CancelledByUser => "Synchronization cancelled by user"
  | OSError what => what
  | SqliteError what => what
  | IndexError => "list index out of range"
  | ZeroDivisionError => "division by zero"
  | RuntimeError msg => msg
  | DecryptionError what => what
  | ValueError msg => msg
  end.

Inductive Exc (A : Type) :=
| Ok (a : A)
| Raise (e : exn).
Arguments Ok {A} a.
Arguments Raise {A} e.

(** A computation over a state [St]. *)
Definition M (St A : Type) : Type := St -> Exc A * St.

Definition ret {St A} (a : A) : M St A := fun s => (Ok a, s).

Definition bind {St A B} (m : M St A) (f : A -> M St B) : M St B :=
  fun s => match m s with
           | (Ok a, s') => f a s'
           | (Raise e, s') => (Raise e, s')
           end.

Definition raise {St A} (e : exn) : M St A := fun s => (Raise e, s).

Definition gets {St A} (f : St -> A) : M St A := fun s => (Ok (f s), s).

Definition modify {St} (f : St -> St) : M St unit := fun s => (Ok tt, f s).

(** [try: m  except Exception as e: handler e]. *)
Definition try_except {St A} (m : M St A) (handler : exn -> M St A) : M St A :=
  fun s => match m s with
           | (Ok a, s') => (Ok a, s')
           | (Raise e, s') => handler e s'
           end.

(** [try: m  finally: cleanup].  An exception of the cleanup replaces
    the outcome of [m]. *)
Definition try_finally {St A} (m : M St A) (cleanup : M St unit) : M St A :=
  fun s => match m s with
           | (r, s') => match cleanup s' with
                        | (Ok _, s'') => (r, s'')
                        | (Raise e, s'') => (Raise e, s'')
                        end
           end.

(** The outcome of [m] as a value: the first half of a [try] whose
    handler needs more than the exception. *)
Definition attempt {St A} (m : M St A) : M St (Exc A) :=
  fun s => match m s with (r, s') => (Ok r, s') end.

Declare Scope monad_scope.
Delimit Scope monad_scope with monad.
Notation "x <- m ;; k" := (bind m (fun x => k))
  (at level 100, m at next level, right associativity,
   format "'[v' x  <-  m  ;;  '/' k ']'") : monad_scope.
Notation "m ;;; k" := (bind m (fun _ => k))
  (at level 100, right associativity,
   format "'[v' m  ;;;  '/' k ']'") : monad_scope.
Open Scope monad_scope.

(** [for i, x in enumerate(xs): acc = body(i, x, acc)], counting from
    [i]. *)
Fixpoint for_enumerate {St A Acc} (i : nat) (xs : list A)
    (body : nat -> A -> Acc -> M St Acc) (acc : Acc) : M St Acc :=
  match xs with
  | [] => ret acc
  | x :: rest => acc' <- body i x acc ;; for_enumerate (S i) rest body acc'
  end.

(** *** The world *)

Inductive FileContent :=
| SqliteFile (db : Database)
| RawFile (data : list byte).

(** What reaches the disk, in order. *)
Inductive DiskOp :=
| DTruncate (path : string)
| DWrite (path : string) (data : list byte)
| DFsync (path : string)
| DUnlink (path : string)
| DCopy (src dst : string).

Inductive LogLevel := DEBUG | INFO | WARNING | ERROR.

(** What the run does not control: which file operation fails, what
    [os.urandom] returns, how large a database file is, and after how many
    progress reports the user's cancellation is first seen ([None]: the
    user never cancels). *)
Record Env := mkEnv {
  io_fault : nat -> bool;
  urandom_byte : nat -> byte;
  sqlite_size : Database -> nat;
  cancel_at : option nat
}.

Record World := mkWorld {
  env : Env;
  fs : gmap string FileContent;
  disk : list DiskOp;
  io_count : nat;
  urandom_count : nat;
  reports : list (Z * Z * string);
  log : list (LogLevel * string)
}.

Definition set_fs (f : gmap string FileContent -> gmap string FileContent)
    (w : World) : World :=
  mkWorld (env w) (f (fs w)) (disk w) (io_count w) (urandom_count w)
          (reports w) (log w).

Definition add_disk (op : DiskOp) (w : World) : World :=
  mkWorld (env w) (fs w) (disk w ++ [op]) (io_count w) (urandom_count w)
          (reports w) (log w).

Definition tick_io (w : World) : World :=
  mkWorld (env w) (fs w) (disk w) (S (io_count w)) (urandom_count w)
          (reports w) (log w).

Definition add_urandom (n : nat) (w : World) : World :=
  mkWorld (env w) (fs w) (disk w) (io_count w) (urandom_count w + n)
          (reports w) (log w).

Definition add_report (r : Z * Z * string) (w : World) : World :=
  mkWorld (env w) (fs w) (disk w) (io_count w) (urandom_count w)
          (reports w ++ [r]) (log w).

Definition add_log (l : LogLevel * string) (w : World) : World :=
  mkWorld (env w) (fs w) (disk w) (io_count w) (urandom_count w)
          (reports w) (log w ++ [l]).

(** [logger.<level>(msg)]. *)
Definition logger (level : LogLevel) (msg : string) : M World unit :=
  modify (add_log (level, msg)).

(** One operation of the operating system or of SQLite: it fails when the
    environment says so. *)
Definition io_point (what : string) : M World unit :=
  fun w => if io_fault (env w) (io_count w)
           then (Raise (OSError what), tick_io w)
           else (Ok tt, tick_io w).

(** *** Progress callbacks *)

(** The two callbacks of the repository: [SyncThread.progress_callback]
    (sync_worker.py) and [lambda p, t, m: update_progress(p, t, m)]
    (main.py), which closes over the caller's own callback, [total_steps]
    and the value that [current_step] has while the callee runs. *)
#[warnings="-register-all"]
Inductive Callback :=
| SyncThread_progress_callback
| update_progress (progress_callback : option Callback)
    (current_step total_steps : Z).

(** [self.cancelled], as the worker thread reads it after emitting a
    report. *)
Definition cancelled (w : World) : bool :=
  match cancel_at (env w) with
  | Some k => bool_decide (k <= length (reports w))%nat
  | None => false
  end.

Fixpoint call (cb : Callback) (current total : Z) (message : string)
    : M World unit :=
  match cb with
  | SyncThread_progress_callback =>
      modify (add_report (current, total, message)) ;;;
      c <- gets cancelled ;;
      if c then raise CancelledByUser else ret tt
  | update_progress progress_callback current_step total_steps =>
      match progress_callback with
      | Some outer =>
          if bool_decide (total = 0) || bool_decide (total_steps = 0)
          then raise ZeroDivisionError
          else
            let progress :=
              int_of_Q (inject_Z 100
                        * (inject_Z current_step + inject_Z current / inject_Z total)
                        / inject_Z total_steps)%Q in
            call outer progress 100 message
      | None => ret tt
      end
  end.

(** [if progress_callback: progress_callback(current, total, message)]. *)
Definition report (progress_callback : option Callback) (current total : Z)
    (message : string) : M World unit :=
  match progress_callback with
  | Some cb => call cb current total message
  | None => ret tt
  end.

(** *** Collaborators outside the modelled code

    GUI automation, profile detection and the importers that drive the
    destination browser are not modelled.  Such a callee is a script: it
    returns, raises, or reports progress and goes on according to whether
    the callback returned or raised. *)
Inductive Prog (A : Type) :=
| PRet (a : A)
| PRaise (e : exn)
| PReport (current total : Z) (message : string) (k : Exc unit -> Prog A).
Arguments PRet {A} a.
Arguments PRaise {A} e.
Arguments PReport {A} current total message k.

Fixpoint run_prog {A} (p : Prog A) (progress_callback : option Callback)
    : M World A :=
  match p with
  | PRet a => ret a
  | PRaise e => raise e
  | PReport current total message k =>
      r <- attempt (report progress_callback current total message) ;;
      run_prog (k r) progress_callback
  end.

(** *** File operations *)

Definition file_size (w : World) (c : FileContent) : nat :=
  match c with
  | RawFile data => length data
  | SqliteFile db => sqlite_size (env w) db
  end.

(** [os.path.exists(path)] and [os.path.isfile(path)]: every entry of
    [fs] is a regular file. *)
Definition os_path_exists (path : string) : M World bool :=
  gets (fun w => bool_decide (is_Some (fs w !! path))).

Definition os_path_getsize (path : string) : M World nat :=
  io_point "os.path.getsize" ;;;
  c <- gets (fun w => fs w !! path) ;;
  match c with
  | Some c => gets (fun w => file_size w c)
  | None => raise (OSError "FileNotFoundError")
  end.

(** [os.remove(path)]. *)
Definition os_remove (path : string) : M World unit :=
  io_point "os.remove" ;;;
  c <- gets (fun w => fs w !! path) ;;
  match c with
  | Some _ => modify (set_fs (delete path)) ;;; modify (add_disk (DUnlink path))
  | None => raise (OSError "FileNotFoundError")
  end.

(** [shutil.copy2(src, dst)]. *)
Definition shutil_copy2 (src dst : string) : M World unit :=
  io_point "shutil.copy2" ;;;
  c <- gets (fun w => fs w !! src) ;;
  match c with
  | Some c => modify (set_fs (<[dst := c]>)) ;;; modify (add_disk (DCopy src dst))
  | None => raise (OSError "FileNotFoundError")
  end.

(** [open(path, 'wb')]: the file is created or truncated. *)
Definition open_wb (path : string) : M World unit :=
  io_point "open" ;;;
  modify (set_fs (<[path := RawFile []]>)) ;;;
  modify (add_disk (DTruncate path)).

Definition append_data (path : string) (data : list byte)
    (files : gmap string FileContent) : gmap string FileContent :=
  match files !! path with
  | Some (RawFile old) => <[path := RawFile (old ++ data)]> files
  | _ => <[path := RawFile data]> files
  end.

(** [f.write(data); f.flush()]. *)
Definition f_write_flush (path : string) (data : list byte) : M World unit :=
  io_point "write" ;;;
  modify (set_fs (append_data path data)) ;;;
  modify (add_disk (DWrite path data)).

(** [os.fsync(f.fileno())]. *)
Definition os_fsync (path : string) : M World unit :=
  io_point "os.fsync" ;;;
  modify (add_disk (DFsync path)).

(** [os.urandom(n)]. *)
Definition os_urandom (n : nat) : M World (list byte) :=
  data <- gets (fun w => map (urandom_byte (env w)) (seq (urandom_count w) n)) ;;
  modify (add_urandom n) ;;;
  ret data.

(** [for _ in range(n): body]. *)
Fixpoint for_range {St} (n : nat) (body : M St unit) : M St unit :=
  match n with
  | O => ret tt
  | S n' => body ;;; for_range n' body
  end.

(** ** Secure deletion (src/utils/security.py) *)

Module Security.

(** One [with open(file_path, 'wb') as f: f.write(data); f.flush();
    os.fsync(f.fileno())] block. *)
Definition overwrite (file_path : string) (data : M World (list byte))
    : M World unit :=
  open_wb file_path ;;;
  d <- data ;;
  f_write_flush file_path d ;;;
  os_fsync file_path.

(** The body of the [for _ in range(passes)] loop. *)
Definition overwrite_round (file_path : string) (file_size : nat) : M World unit :=
  overwrite file_path (ret (repeat x00 file_size)) ;;;
  overwrite file_path (ret (repeat xff file_size)) ;;;
  overwrite file_path (os_urandom file_size).

(** The [try] block of [secure_delete_file]. *)
Definition overwrite_and_remove (file_path : string) (passes : Z) : M World bool :=
  file_size <- os_path_getsize file_path ;;
  for_range (Z.to_nat passes) (overwrite_round file_path file_size) ;;;
  os_remove file_path ;;;
  logger DEBUG ("File securely deleted: " +:+ file_path) ;;;
  ret true.

(** [secure_delete_file(file_path, passes)]. *)
Definition secure_delete_file (file_path : string) (passes : Z) : M World bool :=
  present <- os_path_exists file_path ;;
  if negb present then
    logger WARNING ("File not found for secure deletion: " +:+ file_path) ;;;
    ret false
  else
    try_except
      (overwrite_and_remove file_path passes)
      (fun e =>
         logger ERROR ("Failed to securely delete file " +:+ file_path +:+ ": "
                       +:+ str_exn e) ;;;
         try_except
           (os_remove file_path ;;;
            logger WARNING ("File deleted using standard method after secure deletion failed: "
                            +:+ file_path) ;;;
            ret true)
           (fun e2 =>
              logger ERROR ("Failed to delete file " +:+ file_path
                            +:+ " using standard method: " +:+ str_exn e2) ;;;
              ret false)).

(** The default of the [passes] parameter; no caller in the repository
    passes another value. *)
Definition default_passes : Z := 3.

(** The writes of a disk log, in order. *)
Definition writes_of (ops : list DiskOp) : list (list byte) :=
  omap (fun op => match op with DWrite _ data => Some data | _ => None end) ops.

(** A world for examples: no operation fails, the user never cancels,
    [os.urandom] alternates two bytes, and a database file takes 8
    bytes. *)
Definition calm_env : Env :=
  mkEnv (fun _ => false) (fun n => if Nat.even n then xa5 else x5a)
        (fun _ => 8%nat) None.

Definition world_with (e : Env) (files : gmap string FileContent) : World :=
  mkWorld e files [] 0 0 [] [].

(** A two-byte artifact. *)
Definition artifact_world : World :=
  world_with calm_env {[ "artifact.tmp"%string := RawFile [x41; x42] ]}.

End Security.

(** ** Credential decryption (src/core/extractors/password_extractor.py) *)

Module Passwords.

(** The cryptographic services the extractor calls:
    [AESGCM(key).decrypt(nonce, data, associated_data)] of the
    cryptography package, [win32crypt.CryptUnprotectData(blob, None, None,
    None, 0)[1]] and [bytes.decode('utf-8')].  Each returns or raises. *)
Record Services := mkServices {
  AESGCM_decrypt : list byte -> list byte -> list byte -> option (list byte)
                   -> Exc (list byte);
  CryptUnprotectData : list byte -> Exc (list byte);
  decode_utf8 : list byte -> Exc string
}.

(** A row of [SELECT origin_url, action_url, username_value,
    password_value, date_created, date_last_used FROM logins]; a NULL
    [password_value] is [None]. *)
Record LoginRow := mkLoginRow {
  origin_url : string;
  action_url : string;
  username_value : string;
  password_value : option (list byte);
  date_created : Z;
  date_last_used : Z
}.

(** [b'v10'] and [b'v11']. *)
Definition v10 : list byte := [x76; x31; x30].
Definition v11 : list byte := [x76; x31; x31].

(** [data.startswith(prefix)]. *)
Definition startswith (data prefix : list byte) : bool :=
  bool_decide (take (length prefix) data = prefix).

(** [data[i:j]] for [0 <= i <= j]. *)
Definition slice (i j : nat) (data : list byte) : list byte :=
  take (j - i) (drop i data).

Definition exc_bind {A B} (r : Exc A) (f : A -> Exc B) : Exc B :=
  match r with
  | Ok a => f a
  | Raise e => Raise e
  end.

(** Lines 396-415: the decryption of one non-empty ciphertext. *)
Definition decrypt_password (sv : Services) (decrypted_key encrypted_password : list byte)
    : Exc string :=
  if startswith encrypted_password v10 then
    let initialization_vector := slice 3 15 encrypted_password in
    let encrypted_password := drop 15 encrypted_password in
    exc_bind (AESGCM_decrypt sv decrypted_key initialization_vector
                encrypted_password None)
             (decode_utf8 sv)
  else
    exc_bind (CryptUnprotectData sv encrypted_password) (decode_utf8 sv).

(** [not encrypted_password]. *)
Definition is_empty (password_value : option (list byte)) : bool :=
  match password_value with
  | None | Some [] => true
  | Some (_ :: _) => false
  end.

Definition lift_exc {St A} (r : Exc A) : M St A := fun s => (r, s).

(** The body of the [for] loop, lines 383-430: one row, inside its own
    [try]. *)
Definition decrypt_row (sv : Services) (progress_callback : option Callback)
    (decrypted_key : list byte) (total : nat) (i : nat) (row : LoginRow)
    (passwords : list ChromePassword) : M World (list ChromePassword) :=
  try_except
    ((if bool_decide (is_Some progress_callback) && bool_decide (0 < total)%nat
      then
        let progress :=
          30 + int_of_Q (inject_Z 60 * (inject_Z (Z.of_nat i) / inject_Z (Z.of_nat total)))%Q in
        report progress_callback progress 100
          ("Decrypting password " +:+ str_nat (i + 1) +:+ "/" +:+ str_nat total)
      else ret tt) ;;;
     if is_empty (password_value row) then ret passwords
     else
       decrypted_password <-
         lift_exc (decrypt_password sv decrypted_key (default [] (password_value row))) ;;
       ret (passwords ++
              [mkChromePassword (origin_url row) (username_value row)
                 decrypted_password (action_url row) (date_created row)
                 (date_last_used row)]))
    (fun e =>
       logger WARNING ("Failed to decrypt password for " +:+ origin_url row
                       +:+ ": " +:+ str_exn e) ;;;
       ret passwords).

(** Lines 380-435 of [_extract_passwords_direct_access]: from the rows
    that the cursor fetched to the returned list. *)
Definition decrypt_logins (sv : Services) (progress_callback : option Callback)
    (decrypted_key : list byte) (rows : list LoginRow)
    : M World (list ChromePassword) :=
  let total := length rows in
  report progress_callback 30 100
    ("Found " +:+ str_nat total +:+ " stored passwords") ;;;
  passwords <- for_enumerate 0 rows
                 (decrypt_row sv progress_callback decrypted_key total) [] ;;
  report progress_callback 95 100
    ("Extracted " +:+ str_nat (length passwords) +:+ " passwords") ;;;
  ret passwords.

(** The design document's rule for one ciphertext, in its words: a
    three-byte prefix of the v10/v11 class selects AEAD with the twelve
    bytes after the prefix as nonce and no associated data; any other
    prefix sends the whole blob to the operating system. *)
Definition modern_prefix (prefix : list byte) : bool :=
  bool_decide (prefix = v10) || bool_decide (prefix = v11).

Definition decrypt_row_spec (sv : Services) (key ciphertext : list byte)
    : Exc string :=
  if modern_prefix (take 3 ciphertext) then
    exc_bind (AESGCM_decrypt sv key (slice 3 15 ciphertext) (drop 15 ciphertext) None)
             (decode_utf8 sv)
  else
    exc_bind (CryptUnprotectData sv ciphertext) (decode_utf8 sv).

(** Services for examples: the AEAD accepts exactly the data [[x01]]
    (whatever key and nonce) and yields [[x41]]; the operating system
    unwraps exactly [[x02]] to [[x42]]; decoding maps a byte to its
    character. *)
Definition toy_services : Services :=
  mkServices
    (fun key nonce data aad =>
       if bool_decide (data = [x01]) then Ok [x41]
       else Raise (DecryptionError "InvalidTag"))
    (fun blob =>
       if bool_decide (blob = [x02]) then Ok [x42]
       else Raise (DecryptionError "CryptUnprotectData failed"))
    (fun data => Ok (string_of_list_byte data)).

(** A v10 blob and a v11 blob around the same nonce and data, and a
    legacy blob. *)
Definition nonce12 : list byte := repeat x00 12.
Definition blob_v10 : list byte := v10 ++ nonce12 ++ [x01].
Definition blob_v11 : list byte := v11 ++ nonce12 ++ [x01].
Definition blob_legacy : list byte := [x02].
(** A v10 blob cut short inside the nonce. *)
Definition blob_truncated : list byte := v10 ++ [x00; x00].

Definition login (url : string) (blob : list byte) : LoginRow :=
  mkLoginRow url url "user" (Some blob) 0 0.

End Passwords.

(** ** SQLite, as the history code uses it *)

(** [ZenProfile] (profile_detector.py). *)
Record ZenProfile := mkZenProfile {
  profile_name : string;
  profile_path : string;
  profile_is_default : bool;
  profile_is_active : bool
}.

(** [os.path.join(directory, name)] for a directory without a trailing
    separator. *)
Definition os_path_join (directory name : string) : string :=
  directory +:+ "/" +:+ name.

(** [max(ids)], [None] for no rows: what [SELECT MAX(id)] yields. *)
Definition max_id (ids : list Z) : option Z :=
  match ids with
  | [] => None
  | i :: rest => Some (foldr Z.max i rest)
  end.

(** The rowid that SQLite gives to a row inserted without one. *)
Definition next_rowid (ids : list Z) : Z :=
  match max_id ids with
  | Some m => m + 1
  | None => 1
  end.

Definition with_places (f : list PlaceRow -> list PlaceRow) (db : Database) : Database :=
  mkDatabase (f (moz_places db)) (moz_historyvisits db).

Definition with_visits (f : list VisitRow -> list VisitRow) (db : Database) : Database :=
  mkDatabase (moz_places db) (f (moz_historyvisits db)).

(** [INSERT INTO moz_places (id, ...) VALUES (...)]: the primary key must
    be new. *)
Definition insert_place (row : PlaceRow) (db : Database) : Exc Database :=
  if bool_decide (place_id row ∈ map place_id (moz_places db))
  then Raise (SqliteError "UNIQUE constraint failed: moz_places.id")
  else Ok (with_places (fun rows => rows ++ [row]) db).

(** [INSERT INTO moz_historyvisits (id, ...) VALUES (...)]. *)
Definition insert_visit (row : VisitRow) (db : Database) : Exc Database :=
  if bool_decide (visit_id row ∈ map visit_id (moz_historyvisits db))
  then Raise (SqliteError "UNIQUE constraint failed: moz_historyvisits.id")
  else Ok (with_visits (fun rows => rows ++ [row]) db).

(** [SELECT id FROM moz_places WHERE url = ?] followed by [fetchone()]. *)
Definition select_place_by_url (url : string) (db : Database) : option Z :=
  place_id <$> find (fun row => bool_decide (place_url row = url)) (moz_places db).

(** [cursor.execute(statement)]: the statement may fail for reasons of its
    own or because the environment makes it fail. *)
Definition execute {A} (statement : string) (result : Exc A) : M World A :=
  io_point statement ;;;
  Passwords.lift_exc result.

(** [sqlite3.connect(path)] on a database that is read: the content of
    the file.  A file that is missing or is no database makes the first
    statement fail; the model raises when connecting, before which the
    callers below do nothing else. *)
Definition sqlite3_connect (path : string) : M World Database :=
  io_point "sqlite3.connect" ;;;
  c <- gets (fun w => fs w !! path) ;;
  match c with
  | Some (SqliteFile db) => ret db
  | Some (RawFile _) => raise (SqliteError "file is not a database")
  | None => raise (SqliteError "no such table")
  end.

(** [sqlite3.connect(path)] followed by the two [CREATE TABLE IF NOT
    EXISTS] statements: a missing file becomes an empty database. *)
Definition sqlite3_connect_create (path : string) : M World Database :=
  io_point "sqlite3.connect" ;;;
  c <- gets (fun w => fs w !! path) ;;
  db <- match c with
        | Some (SqliteFile db) => ret db
        | Some (RawFile _) => raise (SqliteError "file is not a database")
        | None => ret empty_database
        end ;;
  io_point "CREATE TABLE IF NOT EXISTS moz_places" ;;;
  io_point "CREATE TABLE IF NOT EXISTS moz_historyvisits" ;;;
  modify (set_fs (<[path := SqliteFile db]>)) ;;;
  ret db.

(** Leaving [with sqlite3.connect(path) as conn:] without an exception:
    the transaction is committed.  Leaving it with one rolls back, which
    is why the rows are a value of the block until here. *)
Definition commit (path : string) (db : Database) : M World unit :=
  io_point "commit" ;;;
  modify (set_fs (<[path := SqliteFile db]>)).

(** ** Staging and merging history
    (src/core/extractors/history_extractor.py,
     src/core/importers/history_importer.py) *)

Module History.

(** [s.split('/')] on the characters of [s]. *)
Fixpoint split_on (sep : ascii) (s : list ascii) : list (list ascii) :=
  match s with
  | [] => [[]]
  | c :: rest =>
      if Ascii.eqb c sep then [] :: split_on sep rest
      else match split_on sep rest with
           | part :: parts => (c :: part) :: parts
           | [] => [[c]]
           end
  end.

(** [''.join(reversed(item.url.split('/')[2])) + '.']. *)
Definition rev_host_of (url : string) : Exc string :=
  match split_on "/"%char (list_ascii_of_string url) !! 2%nat with
  | Some host => Ok (string_of_list_ascii (rev host) +:+ ".")
  | None => Raise IndexError
  end.

(** What the importer and the extractor hold in [self], and what the
    environment decides for one call: the two file names built from
    [time.time()], whether the destination browser runs, and the profile
    that [ProfileDetector.get_default_profile()] finds. *)
Record Importer := mkImporter {
  temp_db_path : string;
  places_db_path_backup : string;
  secure_delete : bool;
  zen_browser_running : bool;
  default_profile : Exc (option ZenProfile)
}.

(** The body of the loop of [save_to_sqlite], lines 288-321. *)
Definition save_item (i : nat) (item : ChromeHistoryItem) (db : Database)
    : M World Database :=
  rev_host <- Passwords.lift_exc (rev_host_of (hi_url item)) ;;
  let place_id := next_rowid (map place_id (moz_places db)) in
  db <- execute "INSERT INTO moz_places"
          (Ok (with_places
                 (fun rows => rows ++
                    [mkPlaceRow place_id (hi_url item) (hi_title item) rev_host
                       (hi_visit_count item) (if hi_hidden item then 1 else 0)
                       (hi_typed_count item) 100 (hi_last_visit_time item)
                       ("chrome-import-" +:+ str_nat i)])
                 db)) ;;
  execute "INSERT INTO moz_historyvisits"
    (Ok (with_visits
           (fun rows => rows ++
              [mkVisitRow (next_rowid (map visit_id (moz_historyvisits db)))
                 0 place_id (hi_visit_time item) 1 0])
           db)).

(** [HistoryExtractor.save_to_sqlite(history_items)]. *)
Definition save_to_sqlite (imp : Importer) (history_items : list ChromeHistoryItem)
    : M World string :=
  let output_path := temp_db_path imp in
  try_except
    (db <- sqlite3_connect_create output_path ;;
     db <- for_enumerate 0 history_items save_item db ;;
     io_point "CREATE INDEX IF NOT EXISTS url_idx" ;;;
     io_point "CREATE INDEX IF NOT EXISTS place_id_idx" ;;;
     io_point "CREATE INDEX IF NOT EXISTS visit_date_idx" ;;;
     commit output_path db ;;;
     logger INFO ("Saved " +:+ str_nat (length history_items)
                  +:+ " history items to " +:+ output_path) ;;;
     ret output_path)
    (fun e =>
       logger ERROR ("Failed to save history to SQLite: " +:+ str_exn e) ;;;
       raise e).

(** [progress = base + int(20 * ((i + 1) / n))] and the report, made when
    there is a callback and [n > 0]. *)
Definition report_item (progress_callback : option Callback) (base : Z)
    (what : string) (i n : nat) : M World unit :=
  if bool_decide (is_Some progress_callback) && bool_decide (0 < n)%nat then
    let progress :=
      base + int_of_Q (inject_Z 20 * (inject_Z (Z.of_nat (i + 1)) / inject_Z (Z.of_nat n)))%Q in
    report progress_callback progress 100
      ("Importing " +:+ what +:+ " " +:+ str_nat (i + 1) +:+ "/" +:+ str_nat n)
  else ret tt.

(** The body of the loop over the staged places, lines 204-239.  The
    accumulator is the destination as the open transaction sees it and
    [place_id_mapping]. *)
Definition import_place (progress_callback : option Callback) (max_place_id : Z)
    (n : nat) (i : nat) (place : PlaceRow) (acc : Database * gmap Z Z)
    : M World (Database * gmap Z Z) :=
  let '(zen, place_id_mapping) := acc in
  report_item progress_callback 50 "place" i n ;;;
  let old_place_id := place_id place in
  let new_place_id := max_place_id + old_place_id in
  let place_id_mapping := <[old_place_id := new_place_id]> place_id_mapping in
  existing <- execute "SELECT id FROM moz_places WHERE url = ?"
                (Ok (select_place_by_url (place_url place) zen)) ;;
  match existing with
  | Some existing_id =>
      ret (zen, <[old_place_id := existing_id]> place_id_mapping)
  | None =>
      zen <- execute "INSERT INTO moz_places"
               (insert_place
                  (mkPlaceRow new_place_id (place_url place) (place_title place)
                     (place_rev_host place) (place_visit_count place)
                     (place_hidden place) (place_typed place)
                     (place_frecency place) (place_last_visit_date place)
                     (place_guid place))
                  zen) ;;
      ret (zen, place_id_mapping)
  end.

(** The body of the loop over the staged visits, lines 246-272. *)
Definition import_visit (progress_callback : option Callback) (max_visit_id : Z)
    (place_id_mapping : gmap Z Z) (n : nat) (i : nat) (visit : VisitRow)
    (zen : Database) : M World Database :=
  report_item progress_callback 70 "visit" i n ;;;
  let old_place_id := visit_place_id visit in
  match place_id_mapping !! old_place_id with
  | None => ret zen
  | Some new_place_id =>
      let new_visit_id := max_visit_id + Z.of_nat i + 1 in
      execute "INSERT INTO moz_historyvisits"
        (insert_visit
           (mkVisitRow new_visit_id (visit_from_visit visit) new_place_id
              (visit_date visit) (visit_type visit) (visit_session visit))
           zen)
  end.

(** Lines 180-272: the two [with sqlite3.connect(...)] blocks. *)
Definition merge (progress_callback : option Callback)
    (temp_db_path places_db_path : string) : M World unit :=
  zen <- sqlite3_connect places_db_path ;;
  temp <- sqlite3_connect temp_db_path ;;
  max_place_id <- execute "SELECT MAX(id) FROM moz_places"
                    (Ok (default 0 (max_id (map place_id (moz_places zen))))) ;;
  max_visit_id <- execute "SELECT MAX(id) FROM moz_historyvisits"
                    (Ok (default 0 (max_id (map visit_id (moz_historyvisits zen))))) ;;
  places <- execute "SELECT * FROM moz_places" (Ok (moz_places temp)) ;;
  acc <- for_enumerate 0 places
           (import_place progress_callback max_place_id (length places))
           (zen, ∅) ;;
  visits <- execute "SELECT * FROM moz_historyvisits" (Ok (moz_historyvisits temp)) ;;
  zen <- for_enumerate 0 visits
           (import_visit progress_callback max_visit_id acc.2 (length visits))
           acc.1 ;;
  commit temp_db_path temp ;;;
  commit places_db_path zen.

(** The [try] block of [_import_history_via_database], lines 176-278. *)
Definition merge_and_report (progress_callback : option Callback)
    (temp_db_path places_db_path : string) : M World bool :=
  report progress_callback 50 100 "Importing history data" ;;;
  merge progress_callback temp_db_path places_db_path ;;;
  report progress_callback 90 100 "History import completed" ;;;
  logger INFO "History import completed successfully" ;;;
  ret true.

(** The inner [try] of the handler, lines 285-291: put the backup back. *)
Definition restore_backup (places_db_path backup : string) : M World unit :=
  try_except
    (present <- os_path_exists places_db_path ;;
     (if present then os_remove places_db_path else ret tt) ;;;
     shutil_copy2 backup places_db_path ;;;
     logger INFO "Restored places.sqlite from backup")
    (fun restore_error =>
       logger ERROR ("Failed to restore backup: " +:+ str_exn restore_error)).

(** The [except Exception as e] block, lines 280-293. *)
Definition merge_failed (places_db_path backup : string) (e : exn) : M World bool :=
  logger ERROR ("Failed to import history: " +:+ str_exn e) ;;;
  present <- os_path_exists backup ;;
  (if present then restore_backup places_db_path backup else ret tt) ;;;
  ret false.

(** [secure_delete_file(path)] or [os.remove(path)], as configured. *)
Definition remove_temp (imp : Importer) (path : string) : M World unit :=
  if secure_delete imp
  then (_ <- Security.secure_delete_file path Security.default_passes ;; ret tt)
  else os_remove path.

(** The [finally] block, lines 295-301. *)
Definition discard_backup (imp : Importer) (backup : string) : M World unit :=
  present <- os_path_exists backup ;;
  if present then remove_temp imp backup else ret tt.

Definition places_db_path_of (profile : ZenProfile) : string :=
  os_path_join (profile_path profile) "places.sqlite".

(** [HistoryImporter._import_history_via_database]. *)
Definition _import_history_via_database (imp : Importer) (temp_db_path : string)
    (profile : ZenProfile) (progress_callback : option Callback) : M World bool :=
  let places_db_path := places_db_path_of profile in
  let backup := places_db_path_backup imp in
  present <- os_path_exists places_db_path ;;
  if negb present then
    logger ERROR ("places.sqlite not found in profile: " +:+ profile_path profile) ;;;
    ret false
  else
    report progress_callback 40 100 "Creating backup of Zen Browser history database" ;;;
    shutil_copy2 places_db_path backup ;;;
    try_finally
      (try_except
         (merge_and_report progress_callback temp_db_path places_db_path)
         (merge_failed places_db_path backup))
      (discard_backup imp backup).

(** The [except] block of [import_history], lines 111-116. *)
Definition import_failed (progress_callback : option Callback) (e : exn)
    : M World bool :=
  let error_msg := "Failed to import history: " +:+ str_exn e in
  logger ERROR error_msg ;;;
  report progress_callback 0 100 error_msg ;;;
  ret false.

(** The [finally] block of [import_history], lines 118-127, once
    [temp_db_path] is set. *)
Definition cleanup_temp (imp : Importer) (progress_callback : option Callback)
    (temp_db_path : string) : M World unit :=
  present <- os_path_exists temp_db_path ;;
  if present then
    report progress_callback 95 100 "Cleaning up temporary files" ;;;
    remove_temp imp temp_db_path
  else ret tt.

(** [HistoryImporter.import_history].  The [try] block is split where
    [temp_db_path] is assigned: before that the [finally] block has
    nothing to clean up. *)
Definition import_history (imp : Importer) (history_items : list ChromeHistoryItem)
    (profile : option ZenProfile) (progress_callback : option Callback)
    : M World bool :=
  match history_items with
  | [] =>
      logger WARNING "No history items to import" ;;;
      ret true
  | _ :: _ =>
      found <- match profile with
               | Some p => ret (Some p)
               | None => Passwords.lift_exc (default_profile imp)
               end ;;
      match found with
      | None =>
          let error_msg := "No valid Zen Browser profile found" in
          logger ERROR error_msg ;;;
          report progress_callback 0 100 error_msg ;;;
          ret false
      | Some profile =>
          report progress_callback 5 100
            ("Using Zen Browser profile: " +:+ profile_name profile) ;;;
          if zen_browser_running imp then
            let error_msg :=
              "Zen Browser is running. Please close it before importing history." in
            logger ERROR error_msg ;;;
            report progress_callback 0 100 error_msg ;;;
            ret false
          else
            staged <- attempt
                        (report progress_callback 10 100
                           "Saving history to temporary database" ;;;
                         save_to_sqlite imp history_items) ;;
            match staged with
            | Raise e => import_failed progress_callback e
            | Ok temp_db_path =>
                try_finally
                  (try_except
                     (report progress_callback 30 100
                        ("Saved " +:+ str_nat (length history_items)
                         +:+ " history items to database") ;;;
                      _import_history_via_database imp temp_db_path profile
                        progress_callback)
                     (import_failed progress_callback))
                  (cleanup_temp imp progress_callback temp_db_path)
            end
      end
  end.

End History.

(** ** The pipeline (src/main.py, src/core/importers/bookmark_importer.py) *)

Module Pipeline.

(** What [synchronize_all] reads from the configuration and calls without
    this development modelling it: the authentication manager, the profile
    detector, the three extractors, the password importer and the part of
    the bookmark importer after its first test.  The history importer is
    [History.import_history]. *)
Record Collaborators := mkCollaborators {
  authentication_required : bool;
  token_valid : bool;
  sync_passwords : bool;
  sync_bookmarks : bool;
  sync_history : bool;
  get_default_profile : Exc (option ZenProfile);
  extract_passwords : Prog (list ChromePassword);
  import_passwords : list ChromePassword -> ZenProfile -> Prog bool;
  extract_bookmarks : Prog (list ChromeBookmark);
  import_bookmarks_via_gui : list ChromeBookmark -> ZenProfile -> Prog bool;
  extract_history : Prog (list ChromeHistoryItem);
  history_importer : History.Importer
}.

(** [BookmarkImporter.import_bookmarks]: lines 60-62, then the rest of
    the method as a collaborator. *)
Definition import_bookmarks (c : Collaborators) (bookmarks : list ChromeBookmark)
    (profile : ZenProfile) (progress_callback : option Callback) : M World bool :=
  match bookmarks with
  | [] =>
      logger WARNING "No bookmarks to import" ;;;
      ret true
  | _ :: _ => run_prog (import_bookmarks_via_gui c bookmarks profile) progress_callback
  end.

(** [log_exception(e, logger)] (utils/logging.py). *)
Definition log_exception (e : exn) : M World unit :=
  logger ERROR ("Exception: " +:+ type_name e +:+ ": " +:+ str_exn e).

(** [if progress_callback: progress_callback(int(100 * current_step /
    total_steps), 100, message)]. *)
Definition report_step (progress_callback : option Callback)
    (current_step total_steps : Z) (message : string) : M World unit :=
  match progress_callback with
  | None => ret tt
  | Some _ =>
      if bool_decide (total_steps = 0) then raise ZeroDivisionError
      else
        report progress_callback
          (int_of_Q (inject_Z (100 * current_step) / inject_Z total_steps)%Q)
          100 message
  end.

(** [any(results.values())]. *)
Definition any_values (results : gmap string bool) : bool :=
  bool_decide (map_Exists (fun _ v => v = true) results).

(** What differs between the three blocks of [synchronize_all]. *)
Record TypeBlock (A : Type) := mkTypeBlock {
  key : string;
  title : string;
  extracting : string;
  first_report : option Callback -> Z -> Z -> string -> M World unit;
  extract : option Callback -> M World (list A);
  extracted : nat -> string;
  importing : string;
  import : list A -> option Callback -> M World bool
}.
Arguments key {A}.
Arguments title {A}.
Arguments extracting {A}.
Arguments first_report {A}.
Arguments extract {A}.
Arguments extracted {A}.
Arguments importing {A}.
Arguments import {A}.

(** The first half of a block's [try], up to [current_step += 1]. *)
Definition extract_step {A} (b : TypeBlock A) (progress_callback : option Callback)
    (total_steps current_step : Z) : M World (list A) :=
  logger INFO (extracting b) ;;;
  first_report b progress_callback current_step total_steps (extracting b) ;;;
  extract b (Some (update_progress progress_callback current_step total_steps)).

(** The second half, from there to the second [current_step += 1]. *)
Definition import_step {A} (b : TypeBlock A) (progress_callback : option Callback)
    (total_steps current_step : Z) (items : list A) : M World bool :=
  logger INFO (extracted b (length items)) ;;;
  report_step progress_callback current_step total_steps (extracted b (length items)) ;;;
  logger INFO (importing b) ;;;
  report_step progress_callback current_step total_steps (importing b) ;;;
  import b items (Some (update_progress progress_callback current_step total_steps)).

(** The [try] block of one data type as a whole: its extract-and-import
    sequence. *)
Definition type_sequence {A} (b : TypeBlock A) (progress_callback : option Callback)
    (total_steps current_step : Z) : M World bool :=
  items <- extract_step b progress_callback total_steps current_step ;;
  import_step b progress_callback total_steps (current_step + 1) items.

(** The [except Exception as e] block of one data type. *)
Definition type_failed {A} (b : TypeBlock A) (results : gmap string bool)
    (current_step : Z) (e : exn) : M World (gmap string bool * Z) :=
  log_exception e ;;;
  logger ERROR (title b +:+ " synchronization failed: " +:+ str_exn e) ;;;
  ret (<[key b := false]> results, current_step + 2).

(** One [if sync_<type>: try: ... except Exception: ...] block on
    [(results, current_step)].  The [try] is written in its two halves
    because the handler adds 2 to whatever [current_step] has become. *)
Definition sync_type {A} (enabled : bool) (b : TypeBlock A)
    (progress_callback : option Callback) (total_steps : Z)
    (st : gmap string bool * Z) : M World (gmap string bool * Z) :=
  let '(results, current_step) := st in
  if negb enabled then ret st
  else
    r1 <- attempt (extract_step b progress_callback total_steps current_step) ;;
    match r1 with
    | Raise e => type_failed b results current_step e
    | Ok items =>
        let current_step := current_step + 1 in
        r2 <- attempt (import_step b progress_callback total_steps current_step items) ;;
        match r2 with
        | Raise e => type_failed b results current_step e
        | Ok result =>
            logger INFO (title b +:+ " synchronization "
                         +:+ (if result then "succeeded" else "failed")) ;;;
            ret (<[key b := result]> results, current_step + 1)
        end
    end.

Definition passwords_block (c : Collaborators) (zen_profile : ZenProfile)
    : TypeBlock ChromePassword :=
  mkTypeBlock _ "passwords" "Password"
    "Extracting passwords from Chrome"
    (fun cb _ _ message => report cb 10 100 message)
    (run_prog (extract_passwords c))
    (fun n => "Extracted " +:+ str_nat n +:+ " passwords")
    "Importing passwords to Zen Browser"
    (fun passwords => run_prog (import_passwords c passwords zen_profile)).

Definition bookmarks_block (c : Collaborators) (zen_profile : ZenProfile)
    : TypeBlock ChromeBookmark :=
  mkTypeBlock _ "bookmarks" "Bookmark"
    "Extracting bookmarks from Chrome"
    report_step
    (run_prog (extract_bookmarks c))
    (fun n => "Extracted " +:+ str_nat n +:+ " bookmark folders")
    "Importing bookmarks to Zen Browser"
    (fun bookmarks => import_bookmarks c bookmarks zen_profile).

Definition history_block (c : Collaborators) (zen_profile : ZenProfile)
    : TypeBlock ChromeHistoryItem :=
  mkTypeBlock _ "history" "History"
    "Extracting browsing history from Chrome (last 30 days)"
    report_step
    (run_prog (extract_history c))
    (fun n => "Extracted " +:+ str_nat n +:+ " history items")
    "Importing browsing history to Zen Browser"
    (fun history_items =>
       History.import_history (history_importer c) history_items (Some zen_profile)).

Definition Z_of_bool (b : bool) : Z := if b then 1 else 0.

Definition total_steps_of (c : Collaborators) : Z :=
  (Z_of_bool (sync_passwords c) + Z_of_bool (sync_bookmarks c)
   + Z_of_bool (sync_history c)) * 2.

Definition initial_results : gmap string bool :=
  {[ "passwords"%string := false; "bookmarks"%string := false;
     "history"%string := false ]}.

(** Lines 240-260: the profile, or [None] when the method has returned
    [False] from inside the [try]. *)
Definition detect_profile (c : Collaborators) (progress_callback : option Callback)
    : M World (option ZenProfile) :=
  try_except
    (zen_profile <- Passwords.lift_exc (get_default_profile c) ;;
     match zen_profile with
     | None =>
         let error_msg := "No valid Zen Browser profile found" in
         logger ERROR error_msg ;;;
         report progress_callback 0 100 error_msg ;;;
         ret None
     | Some p =>
         logger INFO ("Using Zen Browser profile: " +:+ profile_name p) ;;;
         report progress_callback 5 100
           ("Using Zen Browser profile: " +:+ profile_name p) ;;;
         ret (Some p)
     end)
    (fun e =>
       let error_msg := "Failed to detect Zen Browser profile: " +:+ str_exn e in
       logger ERROR error_msg ;;;
       report progress_callback 0 100 error_msg ;;;
       ret None).

(** Lines 262-419: the three blocks, in their fixed order. *)
Definition synchronize_types (c : Collaborators) (zen_profile : ZenProfile)
    (progress_callback : option Callback) : M World (gmap string bool * Z) :=
  let total_steps := total_steps_of c in
  st <- sync_type (sync_passwords c) (passwords_block c zen_profile)
          progress_callback total_steps (initial_results, 0) ;;
  st <- sync_type (sync_bookmarks c) (bookmarks_block c zen_profile)
          progress_callback total_steps st ;;
  sync_type (sync_history c) (history_block c zen_profile)
    progress_callback total_steps st.

(** Lines 421-432. *)
Definition conclude (progress_callback : option Callback)
    (results : gmap string bool) : M World bool :=
  let overall_success := any_values results in
  report progress_callback 100 100
    ("Synchronization " +:+
     (if overall_success then "completed successfully" else "completed with errors")) ;;;
  logger INFO "Synchronization completed." ;;;
  ret overall_success.

(** [ChromeSync.synchronize_all(progress_callback)], called while
    [self.sync_in_progress] has the given value.  The [finally] block only
    resets that flag. *)
Definition synchronize_all (c : Collaborators) (progress_callback : option Callback)
    (sync_in_progress : bool) : M World bool :=
  if sync_in_progress then
    logger WARNING "Synchronization already in progress" ;;;
    ret false
  else
    logger INFO "Starting full synchronization" ;;;
    try_except
      (if authentication_required c && negb (token_valid c) then
         logger WARNING "Authentication required for password synchronization" ;;;
         report progress_callback 0 100
           "Authentication required for password synchronization" ;;;
         ret false
       else
         found <- detect_profile c progress_callback ;;
         match found with
         | None => ret false
         | Some zen_profile =>
             st <- synchronize_types c zen_profile progress_callback ;;
             conclude progress_callback st.1
         end)
      (fun e =>
         log_exception e ;;;
         logger ERROR ("Synchronization failed: " +:+ str_exn e) ;;;
         report progress_callback 0 100 ("Synchronization failed: " +:+ str_exn e) ;;;
         ret false).

End Pipeline.

(** ** Authentication (src/security/auth.py) *)

Module Auth.

(** What [AuthenticationManager] holds in [self], and the lines that its
    methods write to the log. *)
Record State := mkState {
  require_auth : bool;
  current_token : option string;
  token_expiry : Q;
  log : list (LogLevel * string)
}.

(** What the methods call without this development modelling it: the
    clock, the token source, the credential store, the password check
    (lines 93-109: split, base64, PBKDF2, comparison) and the two
    Windows queries.  [_get_stored_password_hash], [_store_password_hash]
    and [verify_windows_user] catch every exception themselves. *)
Record Services := mkServices {
  time_time : Q;
  create_secure_token : string;
  _get_stored_password_hash : option string;
  _store_password_hash : string -> bool;
  check_password : string -> string -> Exc bool;
  verify_windows_user : bool;
  is_admin : bool
}.

Definition TOKEN_VALIDITY_DURATION : Q := inject_Z (60 * 60).

Definition logger (level : LogLevel) (msg : string) : M State unit :=
  modify (fun st => mkState (require_auth st) (current_token st) (token_expiry st)
                            (log st ++ [(level, msg)])).

(** The truth value of an optional string: [None] and [''] are false. *)
Definition truthy (s : option string) : bool :=
  match s with
  | Some EmptyString | None => false
  | Some _ => true
  end.

Definition is_authentication_required : M State bool := gets require_auth.

(** [_create_auth_token]. *)
Definition _create_auth_token (sv : Services) : M State unit :=
  modify (fun st => mkState (require_auth st) (Some (create_secure_token sv))
                            (time_time sv + TOKEN_VALIDITY_DURATION)%Q (log st)).

(** [authenticate_user(password)]. *)
Definition authenticate_user (sv : Services) (password : option string)
    : M State bool :=
  required <- is_authentication_required ;;
  if negb required then ret true
  else
    try_except
      (result <-
         (if truthy password then
            let password := default EmptyString password in
            let stored_hash := _get_stored_password_hash sv in
            if negb (truthy stored_hash) then
              let _ := _store_password_hash sv password in
              logger INFO "Password set for future authentication" ;;;
              ret true
            else
              Passwords.lift_exc
                (check_password sv (default EmptyString stored_hash) password)
          else ret (verify_windows_user sv)) ;;
       (if result : bool then
          _create_auth_token sv ;;;
          logger INFO "User authenticated successfully"
        else logger WARNING "Authentication failed") ;;;
       ret result)
      (fun e =>
         logger ERROR ("Authentication error: " +:+ str_exn e) ;;;
         ret false).

(** [validate_token()], when the clock reads [time_time sv]. *)
Definition validate_token (sv : Services) : M State bool :=
  required <- is_authentication_required ;;
  if negb required then ret true
  else
    token <- gets current_token ;;
    expiry <- gets token_expiry ;;
    if negb (truthy token) || (if Qlt_le_dec expiry (time_time sv) then true else false)
    then
      logger WARNING "Authentication token is invalid or expired" ;;;
      ret false
    else ret true.

Definition sensitive_operations : list string :=
  ["password_sync"; "config_export"; "config_import"; "secure_delete";
   "profile_create"; "profile_delete"]%string.

(** [require_authentication(operation_name)]. *)
Definition require_authentication (operation_name : string) : M State bool :=
  if bool_decide (operation_name ∈ sensitive_operations) then ret true
  else is_authentication_required.

(** [is_authenticated_for(operation_name)]. *)
Definition is_authenticated_for (sv : Services) (operation_name : string)
    : M State bool :=
  required <- require_authentication operation_name ;;
  if negb required then ret true else validate_token sv.

(** [logout()]. *)
Definition logout : M State bool :=
  modify (fun st => mkState (require_auth st) None 0%Q (log st)) ;;;
  logger INFO "User logged out successfully" ;;;
  ret true.

Definition admin_operations : list string :=
  ["auto_startup_config"; "system_config"; "service_install"]%string.

(** [check_operation_privileges(operation_name)]. *)
Definition check_operation_privileges (sv : Services) (operation_name : string)
    : M State (bool * string) :=
  required <- require_authentication operation_name ;;
  valid <- (if required then validate_token sv else ret true) ;;
  if required && negb valid then
    ret (false, "Authentication required for this operation"%string)
  else if bool_decide (operation_name ∈ admin_operations) && negb (is_admin sv) then
    ret (false, "Administrator privileges required for this operation"%string)
  else ret (true, EmptyString).

End Auth.

(** ** Retries (src/utils/logging.py, [ErrorHandler.with_retries]) *)

Module Retry.

(** The world and the naps taken by [time.sleep], in seconds. *)
Record State := mkState {
  world : World;
  slept : list Q
}.

(** A computation on the world, run inside [with_retries]. *)
Definition lift {A} (m : M World A) : M State A :=
  fun st => match m (world st) with
            | (r, w') => (r, mkState w' (slept st))
            end.

Definition logger (level : LogLevel) (msg : string) : M State unit :=
  lift (logger level msg).

(** [time.sleep(seconds)], which refuses a negative length. *)
Definition time_sleep (seconds : Q) : M State unit :=
  if Qle_bool 0 seconds
  then modify (fun st => mkState (world st) (slept st ++ [seconds]))
  else raise (ValueError "sleep length must be non-negative").

(** [with_retries(func, max_retries, backoff_factor, exceptions,
    fallback_func)].  [catches e] stands for [isinstance(e, exceptions)],
    [format_1f] for the format [{backoff_time:.1f}].  The function
    returns [None] when the loop ends without a [return].

    The loop [while retry_count <= max_retries] is unrolled on [fuel];
    [with_retries] gives it the [max_retries + 1] rounds that the
    condition allows. *)
Section with_retries.
Context {A : Type}.
Context (format_1f : Q -> string).
Context (func : M World A) (max_retries : Z) (backoff_factor : Q)
        (catches : exn -> bool) (fallback_func : option (M World A)).

Fixpoint retry_loop (fuel : nat) (retry_count : Z) : M State (option A) :=
  if bool_decide (retry_count <= max_retries) then
    match fuel with
    | O => ret None
    | S fuel' =>
        r <- attempt
               ((if bool_decide (0 < retry_count) then
                   logger DEBUG ("Retry " +:+ str_Z retry_count +:+ "/"
                                 +:+ str_Z max_retries)
                 else ret tt) ;;;
                lift func) ;;
        match r with
        | Ok a => ret (Some a)
        | Raise e =>
            if negb (catches e) then raise e
            else
              let retry_count := retry_count + 1 in
              if bool_decide (retry_count <= max_retries) then
                let backoff_time :=
                  Qpower backoff_factor (retry_count - 1) in
                logger WARNING ("Operation failed with error: " +:+ str_exn e
                                +:+ ". Retrying in " +:+ format_1f backoff_time
                                +:+ " seconds.") ;;;
                time_sleep backoff_time ;;;
                retry_loop fuel' retry_count
              else
                logger ERROR ("Operation failed after " +:+ str_Z max_retries
                              +:+ " retries. Last error: " +:+ str_exn e) ;;;
                match fallback_func with
                | Some fallback =>
                    logger INFO "Executing fallback function" ;;;
                    a <- lift fallback ;;
                    ret (Some a)
                | None => raise e
                end
        end
    end
  else ret None.

Definition with_retries : M State (option A) :=
  retry_loop (Z.to_nat (max_retries + 1)) 0.

End with_retries.

End Retry.

(** ** The default profile (src/core/importers/profile_detector.py) *)

Module Profiles.

(** [ProfileDetector.get_default_profile()], lines 258-281.
    [detect_profiles] is what [self.detect_profiles()] returns or
    raises, [default_profile] the profile name of the configuration. *)
Definition get_default_profile (detect_profiles : Exc (list ZenProfile))
    (default_profile : string) : Exc (option ZenProfile) :=
  match detect_profiles with
  | Raise e => Raise e
  | Ok profiles =>
      match find profile_is_default profiles with
      | Some profile => Ok (Some profile)
      | None =>
          match find (fun profile => bool_decide (profile_name profile = default_profile))
                     profiles with
          | Some profile => Ok (Some profile)
          | None =>
              match profiles with
              | profile :: _ => Ok (Some profile)
              | [] => Ok None
              end
          end
      end
  end.

End Profiles.

(** ** Configuration (src/config/config_manager.py) *)

(** The values that [json.load] yields, with the objects ([dict]) kept
    apart: a [dict] is mutable and can be reached from several places,
    so a value holds a reference to it and the heap holds its entries.
    Lists are never updated in place by the code below and stay values.
    Numbers are integers here. *)
#[warnings="-register-all"]
Inductive Value :=
| VNone
| VBool (b : bool)
| VInt (z : Z)
| VStr (s : string)
| VList (items : list Value)
| VRef (l : nat).

Module Config.

(** The entries of a [dict] whose keys are strings, in insertion order. *)
Definition dict : Type := list (string * Value).

Fixpoint dict_lookup (key : string) (d : dict) : option Value :=
  match d with
  | [] => None
  | (k, v) :: rest => if bool_decide (k = key) then Some v else dict_lookup key rest
  end.

(** [d[key] = value]: an existing key keeps its position. *)
Fixpoint dict_store (key : string) (value : Value) (d : dict) : dict :=
  match d with
  | [] => [(key, value)]
  | (k, v) :: rest =>
      if bool_decide (k = key) then (key, value) :: rest
      else (k, v) :: dict_store key value rest
  end.

Definition dict_remove (key : string) (d : dict) : dict :=
  filter (fun kv => kv.1 <> key) d.

(** The exceptions of this module.  The texts are those of CPython 3.8
    to 3.10; no statement below depends on them. *)
Inductive PyError :=
| TypeError (msg : string)
| AttributeError (msg : string)
| KeyError (key : string)
| IOError (msg : string).

(** [str(e)]. *)
Definition str_error (e : PyError) : string :=
  match e with
  | TypeError msg | AttributeError msg | IOError msg => msg
  | KeyError key => "'" +:+ key +:+ "'"
  end.

Inductive Res (A : Type) :=
| Returns (a : A)
| Raises (e : PyError).
Arguments Returns {A} a.
Arguments Raises {A} e.

(** What became of a file that was to be written.  [Dumped]: it holds
    the text of the object that [json.dump] serialized, read through
    the heap of that moment.  [Truncated]: [open(path, 'w')] emptied it
    and the dump failed, so it holds the part of the text that was
    written before the failure, if any. *)
Inductive FileWrite :=
| Dumped (path : string) (obj : nat) (objects : gmap nat dict)
| Truncated (path : string).

(** What [ConfigManager] holds and what it reaches: the heap of [dict]
    objects, [self.config], the module's [DEFAULT_CONFIG], and of the
    file system whether the configuration directory exists, what
    [os.makedirs] and the writing of a file raise, if they do, whether
    a writing that raises had opened the file before, and what became
    of the files. *)
Record Manager := mkManager {
  heap : gmap nat dict;
  config : nat;
  DEFAULT_CONFIG : nat;
  config_dir_exists : bool;
  makedirs_error : option string;
  write_error : string -> option string;
  opened_before_error : string -> bool;
  written : list FileWrite;
  log : list (LogLevel * string)
}.

Definition Py (A : Type) : Type := Manager -> Res A * Manager.

Definition pure {A} (a : A) : Py A := fun m => (Returns a, m).

Definition and_then {A B} (c : Py A) (f : A -> Py B) : Py B :=
  fun m => match c m with
           | (Returns a, m') => f a m'
           | (Raises e, m') => (Raises e, m')
           end.

Definition throw {A} (e : PyError) : Py A := fun m => (Raises e, m).

Definition read {A} (f : Manager -> A) : Py A := fun m => (Returns (f m), m).

Definition update (f : Manager -> Manager) : Py unit := fun m => (Returns tt, f m).

(** [try: c  except Exception as e: handler e]. *)
Definition catch {A} (c : Py A) (handler : PyError -> Py A) : Py A :=
  fun m => match c m with
           | (Returns a, m') => (Returns a, m')
           | (Raises e, m') => handler e m'
           end.

Declare Scope py_scope.
Delimit Scope py_scope with py.
Notation "x <- c ;; k" := (and_then c (fun x => k)) : py_scope.
Notation "c ;;; k" := (and_then c (fun _ => k)) : py_scope.
Open Scope py_scope.

Definition set_heap (f : gmap nat dict -> gmap nat dict) (m : Manager) : Manager :=
  mkManager (f (heap m)) (config m) (DEFAULT_CONFIG m) (config_dir_exists m)
    (makedirs_error m) (write_error m) (opened_before_error m)
    (written m) (log m).

Definition set_config (l : nat) (m : Manager) : Manager :=
  mkManager (heap m) l (DEFAULT_CONFIG m) (config_dir_exists m)
    (makedirs_error m) (write_error m) (opened_before_error m)
    (written m) (log m).

Definition logger (level : LogLevel) (msg : string) : Py unit :=
  update (fun m =>
    mkManager (heap m) (config m) (DEFAULT_CONFIG m) (config_dir_exists m)
      (makedirs_error m) (write_error m) (opened_before_error m)
      (written m) (log m ++ [(level, msg)])).

(** A new [dict] object with the entries [d]: [{}] for no entries,
    [d.copy()] for those of [d]. *)
Definition new_dict (d : dict) : Py nat :=
  l <- read (fun m => fresh (dom (heap m))) ;;
  update (set_heap (<[l := d]>)) ;;;
  pure l.

(** The entries of the object at [l]. *)
Definition entries (l : nat) : Py dict := read (fun m => heap m !!! l).

Definition type_of (v : Value) : string :=
  match v with
  | VNone => "NoneType"
  | VBool _ => "bool"
  | VInt _ => "int"
  | VStr _ => "str"
  | VList _ => "list"
  | VRef _ => "dict"
  end.

(** [x.get(key, default)]: only a [dict] has the method, and its key
    must be hashable. *)
Definition value_get (x key default : Value) : Py Value :=
  match x with
  | VRef l =>
      match key with
      | VStr k => d <- entries l ;; pure (from_option id default (dict_lookup k d))
      | VRef _ => throw (TypeError "unhashable type: 'dict'")
      | VList _ => throw (TypeError "unhashable type: 'list'")
      | VNone | VBool _ | VInt _ => pure default
      end
  | _ => throw (AttributeError ("'" +:+ type_of x +:+ "' object has no attribute 'get'"))
  end.

(** [x[key]] for a string [key]. *)
Definition value_getitem (x : Value) (key : string) : Py Value :=
  match x with
  | VRef l =>
      d <- entries l ;;
      match dict_lookup key d with
      | Some v => pure v
      | None => throw (KeyError key)
      end
  | VList _ => throw (TypeError "list indices must be integers or slices, not str")
  | VStr _ => throw (TypeError "string indices must be integers")
  | _ => throw (TypeError ("'" +:+ type_of x +:+ "' object is not subscriptable"))
  end.

(** [x[key] = value] for a string [key]. *)
Definition value_setitem (x : Value) (key : string) (value : Value) : Py unit :=
  match x with
  | VRef l => update (set_heap (fun h => <[l := dict_store key value (h !!! l)]> h))
  | VList _ => throw (TypeError "list indices must be integers or slices, not str")
  | _ => throw (TypeError ("'" +:+ type_of x
                           +:+ "' object does not support item assignment"))
  end.

(** [del x[key]] for a string [key]. *)
Definition value_delitem (x : Value) (key : string) : Py unit :=
  match x with
  | VRef l =>
      d <- entries l ;;
      match dict_lookup key d with
      | Some _ => update (set_heap (<[l := dict_remove key d]>))
      | None => throw (KeyError key)
      end
  | VList _ => throw (TypeError "list indices must be integers or slices, not str")
  | _ => throw (TypeError ("'" +:+ type_of x
                           +:+ "' object doesn't support item deletion"))
  end.

Definition is_substring (needle hay : string) : bool :=
  match String.index 0 needle hay with
  | Some _ => true
  | None => false
  end.

(** [key in x] for a string [key]. *)
Definition value_contains (key : string) (x : Value) : Py bool :=
  match x with
  | VRef l => d <- entries l ;; pure (bool_decide (is_Some (dict_lookup key d)))
  | VList items =>
      pure (existsb (fun v => match v with
                              | VStr s => bool_decide (s = key)
                              | _ => false
                              end) items)
  | VStr s => pure (is_substring key s)
  | _ => throw (TypeError ("argument of type '" +:+ type_of x +:+ "' is not iterable"))
  end.

Section manager.
(** [validate_config(config)] (config_schema.py): [None] for a valid
    configuration, the text of the validation error otherwise.  It is
    given the object and the heap through which to read it. *)
Context (validate_config : gmap nat dict -> nat -> option string).

Definition validate : Py (option string) :=
  read (fun m => validate_config (heap m) (config m)).

(** [ConfigManager.get(section, key=None, default=None)]. *)
Definition get (section : string) (key default : Value) : Py Value :=
  root <- read config ;;
  present <- value_contains section (VRef root) ;;
  if negb present then pure default
  else
    match key with
    | VNone => value_getitem (VRef root) section
    | _ =>
        s <- value_getitem (VRef root) section ;;
        value_get s key default
    end.

(** [ConfigManager.set(section, key, value)]. *)
Definition set (section key : string) (value : Value) : Py bool :=
  root <- read config ;;
  present <- value_contains section (VRef root) ;;
  (if negb present then
     l <- new_dict [] ;;
     value_setitem (VRef root) section (VRef l)
   else pure tt) ;;;
  s <- value_getitem (VRef root) section ;;
  value_setitem s key value ;;;
  error <- validate ;;
  match error with
  | Some error =>
      logger ERROR ("Invalid configuration after setting " +:+ section +:+ "."
                    +:+ key +:+ ": " +:+ error) ;;;
      defaults <- read DEFAULT_CONFIG ;;
      in_defaults <- value_contains section (VRef defaults) ;;
      has_default <-
        (if in_defaults then
           ds <- value_getitem (VRef defaults) section ;;
           value_contains key ds
         else pure false) ;;
      (if has_default then
         ds <- value_getitem (VRef defaults) section ;;
         dv <- value_getitem ds key ;;
         s <- value_getitem (VRef root) section ;;
         value_setitem s key dv
       else
         s <- value_getitem (VRef root) section ;;
         value_delitem s key) ;;;
      pure false
  | None => pure true
  end.

(** What became of a file is added to the record. *)
Definition record (event : Manager -> FileWrite) : Py unit :=
  update (fun m =>
    mkManager (heap m) (config m) (DEFAULT_CONFIG m) (config_dir_exists m)
      (makedirs_error m) (write_error m) (opened_before_error m)
      (written m ++ [event m]) (log m)).

(** [with open(path, 'w') as f: json.dump(obj, f, indent=4)].  The
    statement raises in [open], and the file is as it was, or in the
    dump, and the file is emptied or holds a part of the text. *)
Definition dump_to (path : string) (obj : nat) : Py unit :=
  failure <- read (fun m => write_error m path) ;;
  match failure with
  | Some msg =>
      opened <- read (fun m => opened_before_error m path) ;;
      (if opened then record (fun _ => Truncated path) else pure tt) ;;;
      throw (IOError msg)
  | None => record (fun m => Dumped path obj (heap m))
  end.

(** [os.makedirs(self.config_dir, exist_ok=True)]. *)
Definition os_makedirs : Py unit :=
  failure <- read makedirs_error ;;
  match failure with
  | Some msg => throw (IOError msg)
  | None =>
      update (fun m =>
        mkManager (heap m) (config m) (DEFAULT_CONFIG m) true
          (makedirs_error m) (write_error m) (opened_before_error m)
          (written m) (log m))
  end.

(** [ConfigManager.save()]; [config_path] is [self.config_path]. *)
Definition save (config_path : string) : Py bool :=
  error <- validate ;;
  match error with
  | Some error =>
      logger ERROR ("Cannot save invalid configuration: " +:+ error) ;;;
      pure false
  | None =>
      there <- read config_dir_exists ;;
      made <-
        (if negb there then
           catch (os_makedirs ;;; pure true)
             (fun e =>
                logger ERROR ("Failed to create configuration directory: "
                              +:+ str_error e) ;;;
                pure false)
         else pure true) ;;
      if negb made then pure false
      else
        catch
          (root <- read config ;;
           dump_to config_path root ;;;
           logger INFO "Configuration saved successfully." ;;;
           pure true)
          (fun e =>
             logger ERROR ("Error saving configuration: " +:+ str_error e) ;;;
             pure false)
  end.

(** [ConfigManager.reset()]: [self.config = DEFAULT_CONFIG.copy()], a
    new object with the entries, and so the sections, of
    [DEFAULT_CONFIG]. *)
Definition reset (config_path : string) : Py bool :=
  defaults <- read DEFAULT_CONFIG ;;
  d <- entries defaults ;;
  l <- new_dict d ;;
  update (set_config l) ;;;
  save config_path.

(** [ConfigManager.export_config(export_path, include_sensitive)]. *)
Definition export_config (export_path : string) (include_sensitive : bool)
    : Py bool :=
  catch
    (root <- read config ;;
     d <- entries root ;;
     export_config <- new_dict d ;;
     (if negb include_sensitive then
        has_security <- value_contains "security" (VRef export_config) ;;
        if has_security then
          empty1 <- new_dict [] ;;
          sync <- value_get (VRef export_config) (VStr "sync") (VRef empty1) ;;
          empty2 <- new_dict [] ;;
          data_types <- value_get sync (VStr "data_types") (VRef empty2) ;;
          has_passwords <- value_contains "passwords" data_types ;;
          if has_passwords then
            sync <- value_getitem (VRef export_config) "sync" ;;
            data_types <- value_getitem sync "data_types" ;;
            value_setitem data_types "passwords" (VBool false)
          else pure tt
        else pure tt
      else pure tt) ;;;
     dump_to export_path export_config ;;;
     logger INFO ("Configuration exported to " +:+ export_path) ;;;
     pure true)
    (fun e =>
       logger ERROR ("Failed to export configuration: " +:+ str_error e) ;;;
       pure false).

End manager.

(** What the constructors of the importers and extractors read from the
    configuration, here lines 40-48 of history_importer.py.
    [gettempdir] is what [tempfile.gettempdir()] returns. *)
Record ImporterSettings := mkImporterSettings {
  zen_path : Value;
  user_data_dir : Value;
  profile_name : Value;
  temp_dir : Value;
  secure_delete : Value
}.

(** [os.makedirs(self.temp_dir, exist_ok=True)]: the path must be a
    string. *)
Definition makedirs_temp (temp_dir : Value) : Py unit :=
  match temp_dir with
  | VStr _ =>
      failure <- read makedirs_error ;;
      match failure with
      | Some msg => throw (IOError msg)
      | None => pure tt
      end
  | _ => throw (TypeError ("expected str, bytes or os.PathLike object, not "
                           +:+ type_of temp_dir))
  end.

Definition HistoryImporter_init (gettempdir : string) : Py ImporterSettings :=
  e <- new_dict [] ;;
  zen <- get "browsers" (VStr "zen") (VRef e) ;;
  zen_path <- value_get zen (VStr "path") (VStr "") ;;
  e <- new_dict [] ;;
  zen <- get "browsers" (VStr "zen") (VRef e) ;;
  user_data_dir <- value_get zen (VStr "user_data_dir") (VStr "") ;;
  e <- new_dict [] ;;
  zen <- get "browsers" (VStr "zen") (VRef e) ;;
  profile_name <- value_get zen (VStr "profile") (VStr "default") ;;
  e <- new_dict [] ;;
  storage <- get "storage" (VRef e) VNone ;;
  temp_dir <- value_get storage (VStr "temp_dir") (VStr gettempdir) ;;
  e <- new_dict [] ;;
  security <- get "security" (VRef e) VNone ;;
  secure_delete <- value_get security (VStr "secure_delete_temp_files") (VBool true) ;;
  makedirs_temp temp_dir ;;;
  pure (mkImporterSettings zen_path user_data_dir profile_name temp_dir secure_delete).

(** How [synchronize_all] reads whether passwords are to be
    synchronized (main.py, line 225):
    [config_manager.get('sync', 'data_types', {}).get('passwords', True)]. *)
Definition read_sync_passwords : Py Value :=
  e <- new_dict [] ;;
  data_types <- get "sync" (VStr "data_types") (VRef e) ;;
  value_get data_types (VStr "passwords") (VBool true).

Close Scope py_scope.

End Config.

(** * Vocabulary of the statements *)

(** [m] moves every state to one related by [R]. *)
Definition moves_within {St A} (R : relation St) (m : M St A) : Prop :=
  forall s, R s (m s).2.

(** The environment is the same and the file [q] is as it was. *)
Definition untouched (q : string) : relation World :=
  fun w w' => env w' = env w /\ fs w' !! q = fs w !! q.

(** The environment is the same and nothing was reported. *)
Definition silent : relation World :=
  fun w w' => env w' = env w /\ reports w' = reports w.

(** The environment is the same and the reports were only extended. *)
Definition reporting : relation World :=
  fun w w' => env w' = env w /\ reports w `prefix_of` reports w'.

(** The environment is the same and no file was changed. *)
Definition offline : relation World :=
  fun w w' => env w' = env w /\ fs w' = fs w /\ io_count w' = io_count w.

(** No file operation fails. *)
Definition fault_free (w : World) : Prop :=
  forall n, io_fault (env w) n = false.

(** What one round of the loop sends to the disk for a file of [n]
    bytes, when [c] random bytes were drawn before. *)
Definition round_ops (e : Env) (p : string) (n c : nat) : list DiskOp :=
  [ DTruncate p; DWrite p (repeat x00 n); DFsync p;
    DTruncate p; DWrite p (repeat xff n); DFsync p;
    DTruncate p; DWrite p (map (urandom_byte e) (seq c n)); DFsync p ].

Fixpoint rounds_ops (e : Env) (p : string) (n c k : nat) : list DiskOp :=
  match k with
  | O => []
  | S k' => round_ops e p n c ++ rounds_ops e p n (c + n) k'
  end.

(** The file [p] is still there. *)
Definition still_present (p : string) : relation World :=
  fun w w' => env w' = env w /\ (is_Some (fs w !! p) -> is_Some (fs w' !! p)).


(** A callback whose [update_progress] closures divide by a non-zero
    [total_steps]. *)
Fixpoint callable (cb : Callback) : bool :=
  match cb with
  | SyncThread_progress_callback => true
  | update_progress progress_callback _ total_steps =>
      match progress_callback with
      | Some outer => negb (bool_decide (total_steps = 0)) && callable outer
      | None => true
      end
  end.

(** The user never cancels and the callback, if there is one, can be
    called. *)
Definition steady (cb : option Callback) (w : World) : Prop :=
  cancel_at (env w) = None /\ forall c, cb = Some c -> callable c = true.

(** [w'] is [w] with more progress reports and nothing else changed. *)
Definition reported : relation World :=
  fun w w' =>
    exists rs,
      w' = mkWorld (env w) (fs w) (disk w) (io_count w) (urandom_count w)
                   (reports w ++ rs) (log w).

(** The credential that a row yields, if it yields one. *)
Definition credential_of (sv : Passwords.Services) (key : list byte)
    (row : Passwords.LoginRow) : option ChromePassword :=
  if Passwords.is_empty (Passwords.password_value row) then None
  else
    match Passwords.decrypt_password sv key (default [] (Passwords.password_value row)) with
    | Ok pw =>
        Some (mkChromePassword (Passwords.origin_url row) (Passwords.username_value row)
                pw (Passwords.action_url row) (Passwords.date_created row)
                (Passwords.date_last_used row))
    | Raise _ => None
    end.

(** The warning that a row leaves in the log, if it leaves one. *)
Definition warning_of (sv : Passwords.Services) (key : list byte)
    (row : Passwords.LoginRow) : option (LogLevel * string) :=
  if Passwords.is_empty (Passwords.password_value row) then None
  else
    match Passwords.decrypt_password sv key (default [] (Passwords.password_value row)) with
    | Ok _ => None
    | Raise e =>
        Some (WARNING, "Failed to decrypt password for " +:+ Passwords.origin_url row
                       +:+ ": " +:+ str_exn e)
    end.

(** A row whose non-empty ciphertext decrypts, and one whose non-empty
    ciphertext does not. *)
Definition decryptable (sv : Passwords.Services) (key : list byte)
    (row : Passwords.LoginRow) : Prop :=
  exists blob pw,
    Passwords.password_value row = Some blob /\ blob <> [] /\
    Passwords.decrypt_password sv key blob = Ok pw.

Definition undecryptable (sv : Passwords.Services) (key : list byte)
    (row : Passwords.LoginRow) (e : exn) : Prop :=
  exists blob,
    Passwords.password_value row = Some blob /\ blob <> [] /\
    Passwords.decrypt_password sv key blob = Raise e.

(** The environment is the same and the files are as they were. *)
Definition same_files : relation World :=
  fun w w' => env w' = env w /\ fs w' = fs w.

(** The environment is the same and only the files [p] and [q] may have
    changed. *)
Definition only_files (p q : string) : relation World :=
  fun w w' =>
    env w' = env w /\ forall r, r <> p -> r <> q -> fs w' !! r = fs w !! r.

(** [for i, x in enumerate(xs)] over a step that returns or raises. *)
Fixpoint fold_enumerate {A Acc} (step : nat -> A -> Acc -> Exc Acc) (i : nat)
    (xs : list A) (acc : Acc) : Exc Acc :=
  match xs with
  | [] => Ok acc
  | x :: rest =>
      match step i x acc with
      | Ok acc' => fold_enumerate step (S i) rest acc'
      | Raise e => Raise e
      end
  end.

(** What [History.import_place] does to the destination and the
    identifier map when nothing interrupts it. *)
Definition place_step (max_place_id : Z) (i : nat) (place : PlaceRow)
    (acc : Database * gmap Z Z) : Exc (Database * gmap Z Z) :=
  let '(zen, place_id_mapping) := acc in
  let old_place_id := place_id place in
  let new_place_id := max_place_id + old_place_id in
  let place_id_mapping := <[old_place_id := new_place_id]> place_id_mapping in
  match select_place_by_url (place_url place) zen with
  | Some existing_id => Ok (zen, <[old_place_id := existing_id]> place_id_mapping)
  | None =>
      match insert_place
              (mkPlaceRow new_place_id (place_url place) (place_title place)
                 (place_rev_host place) (place_visit_count place)
                 (place_hidden place) (place_typed place)
                 (place_frecency place) (place_last_visit_date place)
                 (place_guid place))
              zen with
      | Ok zen' => Ok (zen', place_id_mapping)
      | Raise e => Raise e
      end
  end.

(** The visit row that the merge writes for the staged visit number [i],
    when its place has an entry in the identifier map. *)
Definition remapped_visit (max_visit_id : Z) (place_id_mapping : gmap Z Z)
    (i : nat) (visit : VisitRow) : option VisitRow :=
  match place_id_mapping !! visit_place_id visit with
  | Some new_place_id =>
      Some (mkVisitRow (max_visit_id + Z.of_nat i + 1) (visit_from_visit visit)
              new_place_id (visit_date visit) (visit_type visit) (visit_session visit))
  | None => None
  end.

(** The visit rows that the merge writes for the staged visits, counted
    from [i]. *)
Fixpoint remapped_visits (max_visit_id : Z) (place_id_mapping : gmap Z Z)
    (i : nat) (visits : list VisitRow) : list VisitRow :=
  match visits with
  | [] => []
  | visit :: rest =>
      option_list (remapped_visit max_visit_id place_id_mapping i visit)
      ++ remapped_visits max_visit_id place_id_mapping (S i) rest
  end.

(** What [History.import_visit] does to the destination when nothing
    interrupts it. *)
Definition visit_step (max_visit_id : Z) (place_id_mapping : gmap Z Z) (i : nat)
    (visit : VisitRow) (zen : Database) : Exc Database :=
  match remapped_visit max_visit_id place_id_mapping i visit with
  | None => Ok zen
  | Some row => insert_visit row zen
  end.

Definition max_place_id_of (zen : Database) : Z :=
  default 0 (max_id (map place_id (moz_places zen))).

Definition max_visit_id_of (zen : Database) : Z :=
  default 0 (max_id (map visit_id (moz_historyvisits zen))).

(** The destination and the identifier map after the loop over the
    staged places, and the destination after the loop over the staged
    visits. *)
Definition merged_places (zen temp : Database) : Exc (Database * gmap Z Z) :=
  fold_enumerate (place_step (max_place_id_of zen)) 0 (moz_places temp) (zen, ∅).

Definition merged_visits (zen temp : Database) (acc : Database * gmap Z Z)
    : Exc Database :=
  fold_enumerate (visit_step (max_visit_id_of zen) acc.2) 0
    (moz_historyvisits temp) acc.1.

(** The rows of a table that carry the URL [url]. *)
Definition rows_of_url (url : string) (rows : list PlaceRow) : list PlaceRow :=
  filter (fun row => place_url row = url) rows.

(** The number of distinct URLs of a history window. *)
Definition distinct_urls (history_items : list ChromeHistoryItem) : nat :=
  size (list_to_set (map hi_url history_items) : gset string).


(** What [History.save_item] does to the staging database when nothing
    interrupts it. *)
Definition stage_item (i : nat) (item : ChromeHistoryItem) (db : Database)
    : Exc Database :=
  match History.rev_host_of (hi_url item) with
  | Raise e => Raise e
  | Ok rev_host =>
      let place_id := next_rowid (map place_id (moz_places db)) in
      let db' :=
        with_places
          (fun rows => rows ++
             [mkPlaceRow place_id (hi_url item) (hi_title item) rev_host
                (hi_visit_count item) (if hi_hidden item then 1 else 0)
                (hi_typed_count item) 100 (hi_last_visit_time item)
                ("chrome-import-" +:+ str_nat i)])
          db in
      Ok (with_visits
            (fun rows => rows ++
               [mkVisitRow (next_rowid (map visit_id (moz_historyvisits db')))
                  0 place_id (hi_visit_time item) 1 0])
            db')
  end.

(** The staging database of a history window, built in a new file. *)
Definition staged (history_items : list ChromeHistoryItem) : Exc Database :=
  fold_enumerate stage_item 0 history_items empty_database.



(** ** The pipeline's data types *)

Inductive DataType := passwords | bookmarks | history.

Definition type_key (t : DataType) : string :=
  match t with
  | passwords => "passwords"
  | bookmarks => "bookmarks"
  | history => "history"
  end.

Definition selected (c : Pipeline.Collaborators) (t : DataType) : bool :=
  match t with
  | passwords => Pipeline.sync_passwords c
  | bookmarks => Pipeline.sync_bookmarks c
  | history => Pipeline.sync_history c
  end.

(** The [try] block of a data type, entered with [current_step]. *)
Definition sequence_of (t : DataType) (c : Pipeline.Collaborators)
    (zen_profile : ZenProfile) (progress_callback : option Callback)
    (current_step : Z) : M World bool :=
  match t with
  | passwords =>
      Pipeline.type_sequence (Pipeline.passwords_block c zen_profile)
        progress_callback (Pipeline.total_steps_of c) current_step
  | bookmarks =>
      Pipeline.type_sequence (Pipeline.bookmarks_block c zen_profile)
        progress_callback (Pipeline.total_steps_of c) current_step
  | history =>
      Pipeline.type_sequence (Pipeline.history_block c zen_profile)
        progress_callback (Pipeline.total_steps_of c) current_step
  end.

(** The whole block of a data type, on [(results, current_step)]. *)
Definition block_of (t : DataType) (c : Pipeline.Collaborators)
    (zen_profile : ZenProfile) (progress_callback : option Callback)
    (st : gmap string bool * Z) : M World (gmap string bool * Z) :=
  match t with
  | passwords =>
      Pipeline.sync_type (Pipeline.sync_passwords c)
        (Pipeline.passwords_block c zen_profile) progress_callback
        (Pipeline.total_steps_of c) st
  | bookmarks =>
      Pipeline.sync_type (Pipeline.sync_bookmarks c)
        (Pipeline.bookmarks_block c zen_profile) progress_callback
        (Pipeline.total_steps_of c) st
  | history =>
      Pipeline.sync_type (Pipeline.sync_history c)
        (Pipeline.history_block c zen_profile) progress_callback
        (Pipeline.total_steps_of c) st
  end.

(** The state in which the pipeline enters the block of a data type:
    [current_step] and the world, after the blocks before it. *)
Definition after_block (t : DataType) (c : Pipeline.Collaborators)
    (zen_profile : ZenProfile) (progress_callback : option Callback)
    (st : (gmap string bool * Z) * World) : (gmap string bool * Z) * World :=
  match block_of t c zen_profile progress_callback st.1 st.2 with
  | (Ok st', w') => (st', w')
  | (Raise _, w') => (st.1, w')
  end.

Definition entry_of (t : DataType) (c : Pipeline.Collaborators)
    (zen_profile : ZenProfile) (progress_callback : option Callback)
    (w : World) : (gmap string bool * Z) * World :=
  match t with
  | passwords => ((Pipeline.initial_results, 0), w)
  | bookmarks =>
      after_block passwords c zen_profile progress_callback
        ((Pipeline.initial_results, 0), w)
  | history =>
      after_block bookmarks c zen_profile progress_callback
        (after_block passwords c zen_profile progress_callback
           ((Pipeline.initial_results, 0), w))
  end.

(** The data type is selected and its extract-and-import sequence, run
    where the pipeline enters it, returns [True]. *)
Definition type_succeeded (t : DataType) (c : Pipeline.Collaborators)
    (zen_profile : ZenProfile) (progress_callback : option Callback)
    (w : World) : Prop :=
  selected c t = true /\
  let entry := entry_of t c zen_profile progress_callback w in
  exists w',
    sequence_of t c zen_profile progress_callback entry.1.2 entry.2 = (Ok true, w').

(** Where the three blocks start: after the authentication test and the
    detection of the profile, if both let the run go on. *)
Definition types_start (c : Pipeline.Collaborators)
    (progress_callback : option Callback) (w : World)
    : option (ZenProfile * World) :=
  if Pipeline.authentication_required c && negb (Pipeline.token_valid c) then None
  else
    match Pipeline.detect_profile c progress_callback
            (add_log (INFO, "Starting full synchronization") w) with
    | (Ok (Some zen_profile), w0) => Some (zen_profile, w0)
    | _ => None
    end.

(** At least one selected data type succeeded in the run that starts in
    [w]. *)
Definition some_type_succeeded (c : Pipeline.Collaborators)
    (progress_callback : option Callback) (w : World) : Prop :=
  exists zen_profile w0 t,
    types_start c progress_callback w = Some (zen_profile, w0) /\
    type_succeeded t c zen_profile progress_callback w0.

(** The user has cancelled and the worker thread has not seen it yet:
    the next progress report raises. *)
Definition cancel_pending (w : World) : Prop :=
  exists k, cancel_at (env w) = Some k /\ (k <= length (reports w) + 1)%nat.

(** The progress report that opens the block of a data type. *)
Definition opening_report (t : DataType) (c : Pipeline.Collaborators)
    (current_step : Z) : Z * Z * string :=
  match t with
  | passwords => (10, 100, "Extracting passwords from Chrome"%string)
  | bookmarks =>
      (int_of_Q (inject_Z (100 * current_step) / inject_Z (Pipeline.total_steps_of c))%Q,
       100, "Extracting bookmarks from Chrome"%string)
  | history =>
      (int_of_Q (inject_Z (100 * current_step) / inject_Z (Pipeline.total_steps_of c))%Q,
       100, "Extracting browsing history from Chrome (last 30 days)"%string)
  end.

(** The line that the handler of a data type's block writes to the log. *)
Definition failure_line (t : DataType) (e : exn) : LogLevel * string :=
  (ERROR,
   match t with
   | passwords => "Password"
   | bookmarks => "Bookmark"
   | history => "History"
   end +:+ " synchronization failed: " +:+ str_exn e).

(** The extraction of bookmarks or of history, entered with
    [current_step] in [w], returns no record and leaves [w1]. *)
Definition extracts_nothing (t : DataType) (c : Pipeline.Collaborators)
    (zen_profile : ZenProfile) (progress_callback : option Callback)
    (current_step : Z) (w w1 : World) : Prop :=
  match t with
  | passwords => False
  | bookmarks =>
      Pipeline.extract_step (Pipeline.bookmarks_block c zen_profile)
        progress_callback (Pipeline.total_steps_of c) current_step w = (Ok [], w1)
  | history =>
      Pipeline.extract_step (Pipeline.history_block c zen_profile)
        progress_callback (Pipeline.total_steps_of c) current_step w = (Ok [], w1)
  end.

(** ** Worlds and windows for the examples *)

Module Examples.

Definition profile : ZenProfile := mkZenProfile "default" "zen" true true.

Definition places_path : string := History.places_db_path_of profile.

Definition importer : History.Importer :=
  History.mkImporter "chrome_history_1.sqlite" "places_backup_1.sqlite"
    true false (Ok (Some profile)).

(** A destination that holds https://a.test as place 7, with one visit. *)
Definition destination : Database :=
  mkDatabase
    [mkPlaceRow 7 "https://a.test" "A" "tset.a." 1 0 0 100 5 "guid-a"]
    [mkVisitRow 3 0 7 5 1 0].

Definition item (url : string) (visit_time : Z) : ChromeHistoryItem :=
  ChromeHistoryItem_init url url visit_time 1 0 0 false.

(** The scenario of the design document: two visits of https://a.test. *)
Definition window_a : list ChromeHistoryItem :=
  [item "https://a.test" 100; item "https://a.test" 200].

(** A window of three visits of two URLs that the destination lacks. *)
Definition window_new : list ChromeHistoryItem :=
  [item "https://b.test" 100; item "https://b.test" 200; item "https://c.test" 300].

Definition staged_or_empty (history_items : list ChromeHistoryItem) : Database :=
  match staged history_items with
  | Ok db => db
  | Raise _ => empty_database
  end.

(** The destination alone, and the destination beside a staged window. *)
Definition world_of (e : Env) : World :=
  Security.world_with e {[ places_path := SqliteFile destination ]}.

Definition staged_world_of (e : Env) (history_items : list ChromeHistoryItem) : World :=
  Security.world_with e
    {[ places_path := SqliteFile destination;
       History.temp_db_path importer := SqliteFile (staged_or_empty history_items) ]}.

Definition attached : option Callback := Some SyncThread_progress_callback.


(** The user cancels before the merge starts and the file operation
    number 2, the [shutil.copy2] of the restore step, fails. *)
Definition early_cancel_env : Env :=
  mkEnv (fun n => Nat.eqb n 2) (urandom_byte Security.calm_env)
        (sqlite_size Security.calm_env) (Some 2%nat).


Definition temp_path : string := History.temp_db_path importer.



(** The merge of [window_a], staged, in a calm world ... *)
Definition calm_world_a : World := staged_world_of Security.calm_env window_a.
Definition calm_end_a : World :=
  (History._import_history_via_database importer temp_path profile attached
     calm_world_a).2.

(** ... and the import of [window_new] from the start. *)
Definition calm_world : World := world_of Security.calm_env.
Definition calm_end_new : World :=
  (History.import_history importer window_new (Some profile) attached calm_world).2.

(** Three logins: a good v10 blob, a v10 blob cut short, a good legacy
    blob. *)
Definition logins : list Passwords.LoginRow :=
  [ Passwords.login "https://a.test" Passwords.blob_v10;
    Passwords.login "https://b.test" Passwords.blob_truncated;
    Passwords.login "https://c.test" Passwords.blob_legacy ].

(** A collaborator that reports once and returns [result], passing on
    whatever the callback raises. *)
Definition reports_then {A} (current : Z) (message : string) (result : A) : Prog A :=
  PReport current 100 message
    (fun r => match r with Ok _ => PRet result | Raise e => PRaise e end).

(** All three data types selected; one password and one bookmark are
    found and imported; the history of the last thirty days is empty. *)
Definition collaborators : Pipeline.Collaborators :=
  Pipeline.mkCollaborators false true true true true (Ok (Some profile))
    (reports_then 50 "Reading passwords"
       [mkChromePassword "https://a.test" "user" "secret" "" 0 0])
    (fun _ _ => reports_then 50 "Writing passwords" true)
    (reports_then 50 "Reading bookmarks" [mkChromeBookmark "A" "https://a.test" 0 0 [] []])
    (fun _ _ => reports_then 50 "Driving the import dialog" true)
    (reports_then 50 "Reading history" [])
    importer.

(** The same, except that every extractor and importer fails on its own
    account. *)
Definition failing_collaborators : Pipeline.Collaborators :=
  Pipeline.mkCollaborators false true true true true (Ok (Some profile))
    (PRaise (RuntimeError "Login Data file not found"))
    (fun _ _ => PRet false)
    (PRaise (RuntimeError "Bookmarks file not found"))
    (fun _ _ => PRet false)
    (PRaise (RuntimeError "History file not found"))
    importer.

(** The user cancels while the passwords are read: the fourth report,
    made by the password extractor, is the first to see it. *)
Definition cancel_in_flight_env : Env :=
  mkEnv (fun _ => false) (urandom_byte Security.calm_env)
        (sqlite_size Security.calm_env) (Some 3%nat).

Definition in_flight_world : World := world_of cancel_in_flight_env.

(** The passwords cannot be read, the bookmarks are imported, the
    history is empty. *)
Definition mixed_collaborators : Pipeline.Collaborators :=
  Pipeline.mkCollaborators false true true true true (Ok (Some profile))
    (PRaise (RuntimeError "Login Data file not found"))
    (fun _ _ => PRet false)
    (reports_then 50 "Reading bookmarks" [mkChromeBookmark "A" "https://a.test" 0 0 [] []])
    (fun _ _ => reports_then 50 "Driving the import dialog" true)
    (reports_then 50 "Reading history" [])
    importer.

(** Where the three blocks start in a run from [w], and where the run
    ends. *)
Definition start_of (c : Pipeline.Collaborators) (w : World) : World :=
  (Pipeline.detect_profile c attached
     (add_log (INFO, "Starting full synchronization"%string) w)).2.

Definition end_of (c : Pipeline.Collaborators) (w : World) : World :=
  (Pipeline.synchronize_all c attached false w).2.

Definition types_end_of (c : Pipeline.Collaborators) (w : World) : World :=
  (Pipeline.synchronize_types c profile attached (start_of c w)).2.

(** The run in which the user cancels while the passwords are read,
    when it enters the block of the bookmarks. *)
Definition after_passwords : World :=
  (entry_of bookmarks collaborators profile attached
     (start_of collaborators in_flight_world)).2.

(** The undisturbed run, when the extraction of the history has returned
    its empty list. *)
Definition history_extracted : World :=
  (Pipeline.extract_step (Pipeline.history_block collaborators profile) attached
     (Pipeline.total_steps_of collaborators) 4
     (entry_of history collaborators profile attached
        (start_of collaborators calm_world)).2).2.

(** The third file operation fails: the first write of the overwrite. *)
Definition write_fault_env : Env :=
  mkEnv (fun n => bool_decide (n = 2%nat)) (urandom_byte Security.calm_env)
        (sqlite_size Security.calm_env) None.

Definition write_fault_world : World :=
  Security.world_with write_fault_env
    {[ "artifact.tmp"%string := RawFile [x41; x42] ]}.

Definition write_failed : World :=
  (Security.overwrite_and_remove "artifact.tmp" Security.default_passes
     write_fault_world).2.


(** A line of the log reports a failure. *)
Definition is_error (l : LogLevel * string) : bool :=
  match l.1 with ERROR => true | _ => false end.

End Examples.

(** ** Vocabulary of the further properties *)

(** The number of ['/'] in a URL. *)
Definition slashes (url : string) : nat :=
  length (filter (fun c => c = "/"%char) (list_ascii_of_string url)).

(** What a method of the authentication manager answers in the state
    [st]; the methods used here do not raise. *)
Definition answer (m : M Auth.State bool) (st : Auth.State) : bool :=
  match (m st).1 with
  | Ok b => b
  | Raise _ => false
  end.

(** The collaborators of [synchronize_all] when its two questions to
    [self.auth_manager] (main.py, lines 209-210) are answered by the
    manager in the state [st].  What the manager logs while it answers
    stays in the manager's state. *)
Definition with_manager (st : Auth.State) (sv : Auth.Services)
    (c : Pipeline.Collaborators) : Pipeline.Collaborators :=
  Pipeline.mkCollaborators
    (answer (Auth.require_authentication "password_sync") st)
    (answer (Auth.validate_token sv) st)
    (Pipeline.sync_passwords c) (Pipeline.sync_bookmarks c) (Pipeline.sync_history c)
    (Pipeline.get_default_profile c)
    (Pipeline.extract_passwords c) (Pipeline.import_passwords c)
    (Pipeline.extract_bookmarks c) (Pipeline.import_bookmarks_via_gui c)
    (Pipeline.extract_history c) (Pipeline.history_importer c).


Module MoreExamples.
Import Examples.

(** A window whose second item has no host. *)
Definition window_blank : list ChromeHistoryItem :=
  [item "https://b.test" 100; item "about:blank" 200].

Definition blank_end : World :=
  (History.import_history importer window_blank (Some profile) attached calm_world).2.

(** The import of [window_a], whose URL the destination holds, from
    the start. *)
Definition known_end : World :=
  (History.import_history importer window_a (Some profile) attached calm_world).2.

(** No data type is selected. *)
Definition idle_collaborators : Pipeline.Collaborators :=
  Pipeline.mkCollaborators false true false false false (Ok (Some profile))
    (PRet []) (fun _ _ => PRet true) (PRet []) (fun _ _ => PRet true) (PRet [])
    importer.

(** The importer while the destination browser runs. *)
Definition busy_importer : History.Importer :=
  History.mkImporter "chrome_history_1.sqlite" "places_backup_1.sqlite"
    true true (Ok (Some profile)).

(** A manager that requires authentication and nobody logged in; a
    machine whose credential store is empty and cannot be written, at
    second 1000. *)
Definition locked : Auth.State := Auth.mkState true None 0 [].

Definition first_run : Auth.Services :=
  Auth.mkServices (inject_Z 1000) "dG9rZW4=" None (fun _ => false)
    (fun _ _ => Ok false) false false.

Definition logged_in : Auth.State :=
  (Auth.authenticate_user first_run (Some "hunter2"%string) locked).2.

(** Bookmarks and history only. *)
Definition no_passwords : Pipeline.Collaborators :=
  Pipeline.mkCollaborators false true false true true (Ok (Some profile))
    (PRet []) (fun _ _ => PRet true)
    (reports_then 50 "Reading bookmarks" [mkChromeBookmark "A" "https://a.test" 0 0 [] []])
    (fun _ _ => reports_then 50 "Driving the import dialog" true)
    (reports_then 50 "Reading history" [])
    importer.



(** The objects of a small configuration: [DEFAULT_CONFIG] (object 0)
    with three sections, the empty [dict] to which the constructor sets
    [self.config] (object 5), and a configuration read from a file
    (object 6), whose language the user has changed. *)
Definition objects : gmap nat Config.dict :=
  {[ 0%nat := [("general", VRef 1); ("sync", VRef 2); ("security", VRef 3)];
     1%nat := [("language", VStr "en-US")];
     2%nat := [("data_types", VRef 4)];
     3%nat := [("secure_delete_temp_files", VBool true)];
     4%nat := [("passwords", VBool true); ("bookmarks", VBool true);
               ("history", VBool true)];
     5%nat := [];
     6%nat := [("general", VRef 7); ("sync", VRef 8); ("security", VRef 9)];
     7%nat := [("language", VStr "de-DE")];
     8%nat := [("data_types", VRef 10)];
     9%nat := [("secure_delete_temp_files", VBool false)];
     10%nat := [("passwords", VBool true); ("bookmarks", VBool false);
                ("history", VBool true)] ]}.

(** A schema of two rules: there is no section [plugins], and
    [general.language] is a string. *)
Definition small_schema (h : gmap nat Config.dict) (root : nat) : option string :=
  if bool_decide (is_Some (Config.dict_lookup "plugins" (h !!! root))) then
    Some "Additional properties are not allowed ('plugins' was unexpected)"
  else
    match Config.dict_lookup "general" (h !!! root) with
    | Some (VRef g) =>
        match Config.dict_lookup "language" (h !!! g) with
        | Some (VStr _) => None
        | _ => Some "language is not of type 'string'"
        end
    | _ => Some "'general' is a required property"
    end.

(** The manager before [load], and after a [load] that found no file:
    [self.config = DEFAULT_CONFIG.copy()] and [self.save()], which is
    [reset]. *)
Definition unloaded : Config.Manager :=
  Config.mkManager objects 5 0 true None (fun _ => None) (fun _ => false) [] [].

Definition started : Config.Manager :=
  (Config.reset small_schema "config.json" unloaded).2.

(** The manager after a [load] that found a valid file. *)
Definition loaded : Config.Manager :=
  Config.mkManager objects 6 0 true None (fun _ => None) (fun _ => false) [] [].

End MoreExamples.

(** * Properties *)

#[local] Set Warnings "-clear-no-such-hyp".

(** ** Reasoning about computations *)

Section moves_within.
Context {St : Type} (R : relation St) `{!PreOrder R}.

Lemma moves_ret {A} (a : A) : moves_within R (ret a).
Proof. intros s. reflexivity. Qed.

Lemma moves_raise {A} (e : exn) : moves_within R (@raise St A e).
Proof. intros s. reflexivity. Qed.

Lemma moves_gets {A} (f : St -> A) : moves_within R (gets f).
Proof. intros s. reflexivity. Qed.

Lemma moves_modify (f : St -> St) :
  (forall s, R s (f s)) -> moves_within R (modify f).
Proof. intros H s. apply H. Qed.

Lemma moves_bind {A B} (m : M St A) (f : A -> M St B) :
  moves_within R m -> (forall a, moves_within R (f a)) ->
  moves_within R (bind m f).
Proof.
  intros Hm Hf s. unfold bind. specialize (Hm s).
  destruct (m s) as [[a | e] s']; simpl in *; [| exact Hm].
  etransitivity; [exact Hm | apply Hf].
Qed.

Lemma moves_try_except {A} (m : M St A) (h : exn -> M St A) :
  moves_within R m -> (forall e, moves_within R (h e)) ->
  moves_within R (try_except m h).
Proof.
  intros Hm Hh s. unfold try_except. specialize (Hm s).
  destruct (m s) as [[a | e] s']; simpl in *; [exact Hm |].
  etransitivity; [exact Hm | apply Hh].
Qed.

Lemma moves_try_finally {A} (m : M St A) (c : M St unit) :
  moves_within R m -> moves_within R c -> moves_within R (try_finally m c).
Proof.
  intros Hm Hc s. unfold try_finally. specialize (Hm s).
  destruct (m s) as [r s']. specialize (Hc s').
  destruct (c s') as [[[] | e] s'']; simpl in *; etransitivity; eassumption.
Qed.

Lemma moves_attempt {A} (m : M St A) :
  moves_within R m -> moves_within R (attempt m).
Proof.
  intros Hm s. unfold attempt. specialize (Hm s). by destruct (m s).
Qed.

Lemma moves_for_range (n : nat) (body : M St unit) :
  moves_within R body -> moves_within R (for_range n body).
Proof.
  intros Hb. induction n as [| n IH]; simpl.
  - apply moves_ret.
  - apply moves_bind; auto.
Qed.

Lemma moves_for_enumerate {A Acc} (xs : list A)
    (body : nat -> A -> Acc -> M St Acc) :
  (forall i x acc, moves_within R (body i x acc)) ->
  forall i acc, moves_within R (for_enumerate i xs body acc).
Proof.
  intros Hb. induction xs as [| x xs IH]; intros i acc; simpl.
  - apply moves_ret.
  - apply moves_bind; auto.
Qed.

Lemma moves_if {A} (b : bool) (m1 m2 : M St A) :
  moves_within R m1 -> moves_within R m2 ->
  moves_within R (if b then m1 else m2).
Proof. by destruct b. Qed.

End moves_within.

Create HintDb moves discriminated.
#[export] Hint Resolve moves_ret moves_raise moves_gets moves_bind
  moves_try_except moves_try_finally moves_attempt moves_for_range
  moves_for_enumerate moves_if : moves.

(** Running a composite computation step by step. *)
Section run.
Context {St : Type}.

Lemma run_bind_ok {A B} (m : M St A) (f : A -> M St B) s a s' :
  m s = (Ok a, s') -> bind m f s = f a s'.
Proof. intros H. unfold bind. by rewrite H. Qed.

Lemma run_bind_raise {A B} (m : M St A) (f : A -> M St B) s e s' :
  m s = (Raise e, s') -> bind m f s = (Raise e, s').
Proof. intros H. unfold bind. by rewrite H. Qed.

Lemma run_try_except_ok {A} (m : M St A) h s a s' :
  m s = (Ok a, s') -> try_except m h s = (Ok a, s').
Proof. intros H. unfold try_except. by rewrite H. Qed.

Lemma run_try_except_raise {A} (m : M St A) h s e s' :
  m s = (Raise e, s') -> try_except m h s = h e s'.
Proof. intros H. unfold try_except. by rewrite H. Qed.

Lemma run_attempt {A} (m : M St A) s r s' :
  m s = (r, s') -> attempt m s = (Ok r, s').
Proof. intros H. unfold attempt. by rewrite H. Qed.

Lemma run_try_finally_ok {A} (m : M St A) c s r s' s'' :
  m s = (r, s') -> c s' = (Ok tt, s'') -> try_finally m c s = (r, s'').
Proof. intros H1 H2. unfold try_finally. by rewrite H1, H2. Qed.

Lemma run_try_finally_raise {A} (m : M St A) c s r s' e s'' :
  m s = (r, s') -> c s' = (Raise e, s'') -> try_finally m c s = (Raise e, s'').
Proof. intros H1 H2. unfold try_finally. by rewrite H1, H2. Qed.

Lemma run_moves {A} (R : relation St) (m : M St A) s r s' :
  moves_within R m -> m s = (r, s') -> R s s'.
Proof. intros Hm H. specialize (Hm s). by rewrite H in Hm. Qed.

(** A bind that returns: both halves returned. *)
Lemma bind_ok_inv {A B} (m : M St A) (f : A -> M St B) s b s'' :
  bind m f s = (Ok b, s'') ->
  exists a s', m s = (Ok a, s') /\ f a s' = (Ok b, s'').
Proof.
  unfold bind. destruct (m s) as [[a | e] s']; intros H; [eauto | discriminate].
Qed.

(** A bind that raises: the first half raised, or it returned and the
    second half raised. *)
Lemma bind_raise_inv {A B} (m : M St A) (f : A -> M St B) s e s'' :
  bind m f s = (Raise e, s'') ->
  m s = (Raise e, s'') \/
  exists a s', m s = (Ok a, s') /\ f a s' = (Raise e, s'').
Proof.
  unfold bind. destruct (m s) as [[a | e'] s']; intros H; [eauto | left; congruence].
Qed.

End run.

(** Callbacks are a nested type: induction goes through the callback
    that [update_progress] closes over. *)
Lemma Callback_induction (P : Callback -> Prop) :
  P SyncThread_progress_callback ->
  (forall cs ts, P (update_progress None cs ts)) ->
  (forall cb cs ts, P cb -> P (update_progress (Some cb) cs ts)) ->
  forall cb, P cb.
Proof.
  intros Hs Hn Hc. fix IH 1. intros [| [cb |] cs ts].
  - exact Hs.
  - apply Hc, IH.
  - apply Hn.
Qed.

(** ** Timestamps *)

Section timestamp_facts.
Import Timestamp.

(** The history path clamps every time stamp before 1970 to 0. *)
Lemma datetime_clamps (item : ChromeHistoryItem) :
  hi_visit_time item < chrome_to_unix_epoch_diff * 1000000 ->
  datetime_unix_timestamp item = 0%Q.
Proof.
  intros Hlt. unfold datetime_unix_timestamp.
  destruct (Qlt_le_dec _ 0) as [_ | Hge]; [reflexivity | exfalso].
  unfold true_div, chrome_to_unix_epoch_diff, Qle, Qminus, Qplus, Qopp, inject_Z in *.
  simpl in Hge. lia.
Qed.

(** From the epoch on, the history path is the exact conversion. *)
Lemma datetime_exact (item : ChromeHistoryItem) :
  chrome_to_unix_epoch_diff * 1000000 <= hi_visit_time item ->
  datetime_unix_timestamp item =
    (true_div (hi_visit_time item) 1000000 - inject_Z chrome_to_unix_epoch_diff)%Q.
Proof.
  intros Hle. unfold datetime_unix_timestamp.
  destruct (Qlt_le_dec _ 0) as [Hlt | _]; [exfalso | reflexivity].
  unfold true_div, chrome_to_unix_epoch_diff, Qlt, Qminus, Qplus, Qopp, inject_Z in *.
  simpl in Hlt. lia.
Qed.

(** The bookmark path writes [int(...)] unclamped: one second or more
    before 1970 gives a negative attribute. *)
Lemma bookmark_unix_negative (ts : Z) :
  ts <= (chrome_to_unix_epoch_diff - 1) * 1000000 -> bookmark_unix ts <= -1.
Proof.
  intros Hle. unfold bookmark_unix, int_of_Q, true_div, chrome_to_unix_epoch_diff in *.
  unfold Qminus, Qplus, Qopp, inject_Z. simpl.
  change (Z.pos (1000000 * 1)) with 1000000.
  replace (ts * 1 + - (11644473600) * 1000000) with (- (11644473600000000 - ts)) by lia.
  rewrite Z.quot_opp_l by lia.
  assert (1 <= Z.quot (11644473600000000 - ts) 1000000); [| lia].
  apply Z.quot_le_lower_bound; lia.
Qed.

(** C8 (code defect).  A time stamp before the Unix epoch is clamped to 0
    where a history item is converted, but the bookmark export writes the
    unclamped value: for a bookmark whose [date_added] is 0 the attribute
    is [ADD_DATE="-11644473600"], and a folder's [LAST_MODIFIED] is
    negative as well, while the history conversion of the same time stamp
    yields 0. *)
Theorem bookmark_export_writes_negative_dates :
  0 < chrome_to_unix_epoch_diff * 1000000 /\
  datetime_unix_timestamp (ChromeHistoryItem_init "https://a.test" "A" 0 1 0 0 false) = 0%Q /\
  _write_bookmark_html undated_bookmark 1 =
    ("    <DT><A HREF=" +:+ dquote +:+ "https://a.test" +:+ dquote
       +:+ " ADD_DATE=" +:+ dquote +:+ "-11644473600" +:+ dquote
       +:+ ">A</A>" +:+ newline) /\
  _write_bookmark_html undated_folder 1 =
    ("    <DT><H3 ADD_DATE=" +:+ dquote +:+ "-11644473600" +:+ dquote
       +:+ " LAST_MODIFIED=" +:+ dquote +:+ "-11644473600" +:+ dquote
       +:+ ">F</H3>" +:+ newline
       +:+ "    <DL><p>" +:+ newline +:+ "    </DL><p>" +:+ newline).
Proof.
  split; [reflexivity |]. split; [| split]; vm_compute; reflexivity.
Qed.

End timestamp_facts.

(** ** Frames: what a computation leaves alone *)

#[export] Instance untouched_preorder q : PreOrder (untouched q).
Proof.
  split; [by intros w |].
  intros w1 w2 w3 [? ?] [? ?]. split; congruence.
Qed.

#[export] Instance silent_preorder : PreOrder silent.
Proof.
  split; [by intros w |].
  intros w1 w2 w3 [? ?] [? ?]. split; congruence.
Qed.

#[export] Instance reporting_preorder : PreOrder reporting.
Proof.
  split; [by intros w |].
  intros w1 w2 w3 [? ?] [? ?]. split; [congruence | by etransitivity].
Qed.

#[export] Instance offline_preorder : PreOrder offline.
Proof.
  split; [by intros w |].
  intros w1 w2 w3 (? & ? & ?) (? & ? & ?). repeat split; congruence.
Qed.

Lemma silent_reporting w w' : silent w w' -> reporting w w'.
Proof. intros [? Hr]. split; [done | by rewrite Hr]. Qed.

Lemma moves_silent_reporting {A} (m : M World A) :
  moves_within silent m -> moves_within reporting m.
Proof. intros H w. apply silent_reporting, H. Qed.

Section primitives.
Context (R : relation World) `{!PreOrder R}.

Lemma moves_logger level msg :
  (forall l w, R w (add_log l w)) -> moves_within R (logger level msg).
Proof. intros H. apply moves_modify; auto. Qed.

Lemma moves_io_point what :
  (forall w, R w (tick_io w)) -> moves_within R (io_point what).
Proof. intros H w. unfold io_point. destruct (io_fault _ _); apply H. Qed.

End primitives.

Lemma untouched_add_log q l w : untouched q w (add_log l w).
Proof. done. Qed.
Lemma untouched_tick_io q w : untouched q w (tick_io w).
Proof. done. Qed.
Lemma untouched_add_disk q op w : untouched q w (add_disk op w).
Proof. done. Qed.
Lemma untouched_add_urandom q n w : untouched q w (add_urandom n w).
Proof. done. Qed.
Lemma untouched_add_report q r w : untouched q w (add_report r w).
Proof. done. Qed.
Lemma silent_add_log l w : silent w (add_log l w).
Proof. done. Qed.
Lemma silent_tick_io w : silent w (tick_io w).
Proof. done. Qed.
Lemma silent_add_disk op w : silent w (add_disk op w).
Proof. done. Qed.
Lemma silent_add_urandom n w : silent w (add_urandom n w).
Proof. done. Qed.
Lemma silent_set_fs f w : silent w (set_fs f w).
Proof. done. Qed.
Lemma offline_add_log l w : offline w (add_log l w).
Proof. done. Qed.
Lemma offline_add_report r w : offline w (add_report r w).
Proof. done. Qed.
Lemma reporting_add_report r w : reporting w (add_report r w).
Proof. split; [done |]. by apply prefix_app_r. Qed.
Lemma reporting_add_log l w : reporting w (add_log l w).
Proof. done. Qed.
Lemma reporting_tick_io w : reporting w (tick_io w).
Proof. done. Qed.
Lemma reporting_add_disk op w : reporting w (add_disk op w).
Proof. done. Qed.
Lemma reporting_add_urandom n w : reporting w (add_urandom n w).
Proof. done. Qed.
Lemma reporting_set_fs f w : reporting w (set_fs f w).
Proof. done. Qed.

Lemma untouched_set_fs_insert q p c w :
  p <> q -> untouched q w (set_fs (<[p := c]>) w).
Proof. intros Hne. split; [done |]. simpl. by rewrite lookup_insert_ne. Qed.

Lemma untouched_set_fs_delete q p w :
  p <> q -> untouched q w (set_fs (delete p) w).
Proof. intros Hne. split; [done |]. simpl. by rewrite lookup_delete_ne. Qed.

Lemma untouched_set_fs_append q p data w :
  p <> q -> untouched q w (set_fs (append_data p data) w).
Proof.
  intros Hne. split; [done |]. simpl. unfold append_data.
  destruct (fs w !! p) as [[db | old] |]; by rewrite lookup_insert_ne.
Qed.

#[export] Hint Resolve moves_logger moves_io_point moves_modify
  untouched_add_log untouched_tick_io untouched_add_disk untouched_add_urandom
  untouched_add_report untouched_set_fs_insert untouched_set_fs_delete
  untouched_set_fs_append
  silent_add_log silent_tick_io silent_add_disk silent_add_urandom silent_set_fs
  offline_add_log offline_add_report reporting_add_report reporting_add_log
  reporting_tick_io reporting_add_disk reporting_add_urandom reporting_set_fs : moves.

(** Solves [moves_within R m] for a computation built from the
    combinators above. *)
Ltac moves_step :=
  lazymatch goal with
  | |- PreOrder _ => apply _
  | |- forall _, _ => intro
  | |- moves_within _ (bind _ _) => apply moves_bind
  | |- moves_within _ (try_except _ _) => apply moves_try_except
  | |- moves_within _ (try_finally _ _) => apply moves_try_finally
  | |- moves_within _ (attempt _) => apply moves_attempt
  | |- moves_within _ (for_range _ _) => apply moves_for_range
  | |- moves_within _ (for_enumerate _ _ _ _) => apply moves_for_enumerate
  | |- moves_within _ (ret _) => apply moves_ret
  | |- moves_within _ (raise _) => apply moves_raise
  | |- moves_within _ (gets _) => apply moves_gets
  | |- moves_within _ (logger _ _) => apply moves_logger
  | |- moves_within _ (io_point _) => apply moves_io_point
  | |- moves_within _ (modify _) => apply moves_modify
  | |- moves_within _ (match ?x with _ => _ end) => destruct x
  | |- _ => solve [eauto with moves]
  end.

Ltac moves := repeat moves_step.

Section file_operations.
Context (q : string).

Lemma os_remove_untouched p : p <> q -> moves_within (untouched q) (os_remove p).
Proof. intros Hne. unfold os_remove. moves. Qed.

Lemma shutil_copy2_untouched src dst :
  dst <> q -> moves_within (untouched q) (shutil_copy2 src dst).
Proof. intros Hne. unfold shutil_copy2. moves. Qed.

Lemma os_path_exists_untouched p : moves_within (untouched q) (os_path_exists p).
Proof. unfold os_path_exists. moves. Qed.

Lemma secure_delete_file_untouched p passes :
  p <> q -> moves_within (untouched q) (Security.secure_delete_file p passes).
Proof.
  intros Hne. unfold Security.secure_delete_file, Security.overwrite_and_remove,
    Security.overwrite_round,
    Security.overwrite, os_path_exists, os_path_getsize, os_remove, open_wb,
    f_write_flush, os_fsync, os_urandom.
  moves.
Qed.

End file_operations.

Lemma os_remove_silent p : moves_within silent (os_remove p).
Proof. unfold os_remove. moves. Qed.

Lemma shutil_copy2_silent src dst : moves_within silent (shutil_copy2 src dst).
Proof. unfold shutil_copy2. moves. Qed.

Lemma secure_delete_file_silent p passes :
  moves_within silent (Security.secure_delete_file p passes).
Proof.
  unfold Security.secure_delete_file, Security.overwrite_and_remove,
    Security.overwrite_round,
    Security.overwrite, os_path_exists, os_path_getsize, os_remove, open_wb,
    f_write_flush, os_fsync, os_urandom.
  moves.
Qed.

(** ** Secure deletion *)

Section secure_delete.
Import Security.

Lemma fault_free_env w w' : env w' = env w -> fault_free w -> fault_free w'.
Proof. unfold fault_free. intros -> H. exact H. Qed.



Lemma io_point_fault_free what w :
  fault_free w -> io_point what w = (Ok tt, tick_io w).
Proof. intros Hff. unfold io_point. by rewrite Hff. Qed.

Lemma overwrite_round_fault_free p n w :
  fault_free w ->
  exists w',
    overwrite_round p n w = (Ok tt, w') /\
    env w' = env w /\
    disk w' = disk w ++ round_ops (env w) p n (urandom_count w) /\
    urandom_count w' = (urandom_count w + n)%nat /\
    is_Some (fs w' !! p).
Proof.
  intros Hff. unfold overwrite_round, overwrite, open_wb, f_write_flush,
    os_fsync, os_urandom, io_point, bind, modify, gets, ret.
  simpl. rewrite !Hff. simpl. eexists. split; [reflexivity |].
  simpl. repeat split.
  - rewrite <- !app_assoc. reflexivity.
  - unfold append_data. rewrite lookup_insert_eq. rewrite lookup_insert_eq. eauto.
Qed.

Lemma for_range_rounds_fault_free p n k w :
  fault_free w ->
  exists w',
    for_range k (overwrite_round p n) w = (Ok tt, w') /\
    env w' = env w /\
    disk w' = disk w ++ rounds_ops (env w) p n (urandom_count w) k /\
    (is_Some (fs w !! p) -> is_Some (fs w' !! p)).
Proof.
  revert w. induction k as [| k IH]; intros w Hff.
  - exists w. simpl. rewrite app_nil_r. auto.
  - destruct (overwrite_round_fault_free p n w Hff) as (w1 & Hrun & He & Hd & Hu & Hp).
    destruct (IH w1 (fault_free_env _ _ He Hff)) as (w2 & Hrun2 & He2 & Hd2 & Hp2).
    exists w2. simpl. erewrite run_bind_ok by exact Hrun. rewrite Hrun2.
    split; [reflexivity |]. split; [congruence |]. split; [| auto].
    rewrite Hd2, Hd, He, Hu, <- app_assoc. reflexivity.
Qed.

Lemma os_remove_fault_free p w :
  fault_free w -> is_Some (fs w !! p) ->
  os_remove p w = (Ok tt, add_disk (DUnlink p) (set_fs (delete p) (tick_io w))).
Proof.
  intros Hff [c Hc]. unfold os_remove.
  erewrite run_bind_ok by (by apply io_point_fault_free).
  unfold bind, gets. simpl. rewrite Hc. reflexivity.
Qed.

(** With no failing operation, [secure_delete_file] performs
    [3 * passes] overwrites, each followed by an [fsync], unlinks the file
    and returns [True]. *)
Lemma secure_delete_file_fault_free p passes c w :
  fault_free w -> fs w !! p = Some c ->
  exists w',
    secure_delete_file p passes w = (Ok true, w') /\
    fs w' !! p = None /\
    disk w' = disk w
      ++ rounds_ops (env w) p (file_size w c) (urandom_count w) (Z.to_nat passes)
      ++ [DUnlink p].
Proof.
  intros Hff Hc. unfold secure_delete_file.
  erewrite run_bind_ok; cycle 1.
  { unfold os_path_exists, gets. rewrite Hc. rewrite bool_decide_eq_true_2 by eauto.
    reflexivity. }
  simpl negb. cbv iota.
  destruct (for_range_rounds_fault_free p (file_size w c) (Z.to_nat passes)
              (tick_io w)) as (w1 & Hrun & He & Hd & Hp); [exact Hff |].
  eexists. split.
  - eapply run_try_except_ok. unfold overwrite_and_remove.
    erewrite run_bind_ok; cycle 1.
    { unfold os_path_getsize. erewrite run_bind_ok by (by apply io_point_fault_free).
      unfold bind, gets. simpl. rewrite Hc. reflexivity. }
    erewrite run_bind_ok by exact Hrun.
    erewrite run_bind_ok; cycle 1.
    { apply os_remove_fault_free; [by eapply fault_free_env | apply Hp; simpl; eauto]. }
    reflexivity.
  - simpl. split; [apply lookup_delete_eq |].
    rewrite Hd. simpl. rewrite <- app_assoc. reflexivity.
Qed.

(** [secure_delete_file] never raises. *)
Lemma secure_delete_file_returns p passes w :
  exists b w', secure_delete_file p passes w = (Ok b, w').
Proof.
  unfold secure_delete_file. unfold bind at 1. unfold os_path_exists, gets.
  destruct (negb _); [by eexists _, _ |].
  unfold try_except.
  match goal with |- context [match ?m ?s with _ => _ end] => destruct (m s) as [[b | e] w1] end;
    [by eexists _, _ |].
  unfold bind at 1. unfold logger at 1, modify at 1.
  match goal with |- context [match ?m ?s with _ => _ end] => destruct (m s) as [[b | e2] w2] end;
    by eexists _, _.
Qed.

#[local] Instance still_present_preorder p : PreOrder (still_present p).
Proof.
  split; [by intros w |].
  intros w1 w2 w3 [? ?] [? ?]. split; [congruence | auto].
Qed.

Lemma overwrite_round_still_present p n :
  moves_within (still_present p) (overwrite_round p n).
Proof.
  unfold overwrite_round, overwrite, open_wb, f_write_flush, os_fsync, os_urandom.
  moves; try done; split; try done; simpl; intros _.
  - rewrite lookup_insert_eq; eauto.
  - unfold append_data. destruct (fs s !! p) as [[db | old] |]; rewrite lookup_insert_eq; eauto.
  - rewrite lookup_insert_eq; eauto.
  - unfold append_data. destruct (fs s !! p) as [[db | old] |]; rewrite lookup_insert_eq; eauto.
  - rewrite lookup_insert_eq; eauto.
  - unfold append_data. destruct (fs s !! p) as [[db | old] |]; rewrite lookup_insert_eq; eauto.
Qed.

Lemma os_remove_raise_inv p w e w' :
  os_remove p w = (Raise e, w') ->
  is_Some (fs w !! p) -> env w' = env w /\ is_Some (fs w' !! p) /\ io_count w' = S (io_count w).
Proof.
  unfold os_remove, bind, io_point, gets. intros H [c Hc].
  destruct (io_fault _ _); simpl in H.
  - injection H as _ <-. simpl. eauto.
  - rewrite Hc in H. discriminate.
Qed.

(** When the overwrite fails, the file is still on the disk. *)
Lemma overwrite_and_remove_raise p passes w e w' :
  overwrite_and_remove p passes w = (Raise e, w') ->
  is_Some (fs w !! p) -> env w' = env w /\ is_Some (fs w' !! p).
Proof.
  unfold overwrite_and_remove. intros H Hp.
  apply bind_raise_inv in H as [H | (n & w1 & H1 & H)].
  { unfold os_path_getsize, bind, io_point, gets in H.
    destruct (io_fault _ _); simpl in H.
    - injection H as _ <-. auto.
    - destruct Hp as [c Hc]. rewrite Hc in H. discriminate. }
  assert (env w1 = env w /\ is_Some (fs w1 !! p)) as [He1 Hp1].
  { unfold os_path_getsize, bind, io_point, gets in H1.
    destruct (io_fault _ _); simpl in H1; [discriminate |].
    destruct Hp as [c Hc]. rewrite Hc in H1. injection H1 as _ <-.
    simpl. rewrite Hc. eauto. }
  apply bind_raise_inv in H as [H | ([] & w2 & H2 & H)].
  { pose proof (moves_for_range (still_present p) (Z.to_nat passes) _
                  (overwrite_round_still_present p n) w1) as [He Hs].
    rewrite H in He, Hs. simpl in *. split; [congruence | auto]. }
  pose proof (moves_for_range (still_present p) (Z.to_nat passes) _
                (overwrite_round_still_present p n) w1) as [He2 Hs2].
  rewrite H2 in He2, Hs2. simpl in *.
  apply bind_raise_inv in H as [H | ([] & w3 & H3 & H)].
  - apply os_remove_raise_inv in H as (He & Hs & _); [| auto].
    split; [congruence | exact Hs].
  - unfold bind, logger, modify, ret in H. discriminate.
Qed.

(** The fallback: when the overwrite fails and the plain [os.remove]
    does not, the file is gone and the function returns [True], after
    logging an error and a warning. *)
Lemma secure_delete_file_fallback p passes w e w1 :
  is_Some (fs w !! p) ->
  overwrite_and_remove p passes w = (Raise e, w1) ->
  io_fault (env w) (io_count w1) = false ->
  exists w',
    secure_delete_file p passes w = (Ok true, w') /\
    fs w' !! p = None /\
    (exists msg, (WARNING, msg) ∈ log w').
Proof.
  intros Hp Hbody Hnf.
  destruct (overwrite_and_remove_raise _ _ _ _ _ Hbody Hp) as [He [c Hc]].
  unfold secure_delete_file.
  erewrite run_bind_ok; cycle 1.
  { unfold os_path_exists, gets. rewrite bool_decide_eq_true_2 by done. reflexivity. }
  change (negb true) with false. cbv iota.
  erewrite run_try_except_raise by exact Hbody.
  unfold bind at 1. unfold logger at 1, modify at 1.
  unfold try_except, os_remove, bind, io_point, gets, logger, modify, ret. simpl.
  rewrite He, Hnf. simpl. rewrite Hc. simpl.
  eexists. split; [reflexivity |]. simpl. split; [apply lookup_delete_eq |].
  eexists. apply elem_of_app. right. apply list_elem_of_singleton. reflexivity.
Qed.

(** C9 (code defect).  Released with the default [passes = 3], a two-byte
    artifact is overwritten nine times, not three: the loop body already
    holds the three passes (zeros, ones, random) and runs [passes] times.
    Every overwrite covers the full length and is followed by an [fsync],
    and the file is unlinked at the end. *)
Theorem secure_delete_default_overwrites_nine_times :
  exists w',
    secure_delete_file "artifact.tmp" default_passes artifact_world = (Ok true, w') /\
    fs w' !! "artifact.tmp"%string = None /\
    writes_of (disk w') =
      [ [x00; x00]; [xff; xff]; [xa5; x5a];
        [x00; x00]; [xff; xff]; [xa5; x5a];
        [x00; x00]; [xff; xff]; [xa5; x5a] ] /\
    disk w' =
      rounds_ops calm_env "artifact.tmp" 2 0 3 ++ [DUnlink "artifact.tmp"].
Proof.
  eexists. split; [vm_compute; reflexivity |].
  split; [vm_compute; reflexivity |]. split; vm_compute; reflexivity.
Qed.


End secure_delete.

(** ** Progress callbacks *)

#[export] Instance reported_preorder : PreOrder reported.
Proof.
  split.
  - intros [e f d i u r l]. exists []. simpl. by rewrite app_nil_r.
  - intros w1 w2 w3 [rs1 ->] [rs2 ->]. exists (rs1 ++ rs2). simpl.
    by rewrite app_assoc.
Qed.

Lemma reported_env w w' : reported w w' -> env w' = env w.
Proof. by intros [rs ->]. Qed.

Lemma reported_log w w' : reported w w' -> log w' = log w.
Proof. by intros [rs ->]. Qed.

Lemma reported_fs w w' : reported w w' -> fs w' = fs w.
Proof. by intros [rs ->]. Qed.

Lemma reported_add_report r w : reported w (add_report r w).
Proof. by exists [r]. Qed.

(** While the user does not cancel, a callable callback returns and only
    adds reports. *)
Lemma call_steady cb : forall current total message w,
  cancel_at (env w) = None -> callable cb = true -> total <> 0 ->
  exists w', call cb current total message w = (Ok tt, w') /\ reported w w'.
Proof.
  induction cb as [| cs ts | outer cs ts IH] using Callback_induction;
    intros current total message w Hc Hcb Htot.
  - exists (add_report (current, total, message) w). split; [| apply reported_add_report].
    unfold call, bind, modify, gets, cancelled. simpl. by rewrite Hc.
  - exists w. split; [reflexivity | reflexivity].
  - simpl in Hcb. apply andb_true_iff in Hcb as [Hts Hcb].
    apply negb_true_iff in Hts.
    simpl. rewrite Hts, (bool_decide_eq_false_2 (total = 0)) by done. simpl.
    apply IH; [done | done | lia].
Qed.

Lemma report_steady cb current total message w :
  steady cb w -> total <> 0 ->
  exists w', report cb current total message w = (Ok tt, w') /\ reported w w'.
Proof.
  intros [Hc Hcb] Htot. destruct cb as [c |]; simpl.
  - apply call_steady; auto.
  - exists w. split; reflexivity.
Qed.

Lemma steady_reported cb w w' : reported w w' -> steady cb w -> steady cb w'.
Proof. intros Hr [Hc Hcb]. split; [| done]. by rewrite (reported_env _ _ Hr). Qed.

(** ** Credential decryption *)

Section passwords.
Import Passwords.
Context (sv : Services) (cb : option Callback) (key : list byte).

(** One row while nobody cancels: the credential is appended when there
    is one, the warning is logged when there is one. *)
Lemma decrypt_row_steady total i row passwords w :
  steady cb w ->
  exists w',
    decrypt_row sv cb key total i row passwords w
      = (Ok (passwords ++ option_list (credential_of sv key row)), w') /\
    env w' = env w /\
    log w' = log w ++ option_list (warning_of sv key row).
Proof.
  intros Hst. unfold decrypt_row.
  assert (exists w1,
    (if bool_decide (is_Some cb) && bool_decide (0 < total)%nat
     then report cb
            (30 + int_of_Q (inject_Z 60 * (inject_Z (Z.of_nat i) / inject_Z (Z.of_nat total)))%Q)
            100 ("Decrypting password " +:+ str_nat (i + 1) +:+ "/" +:+ str_nat total)
     else ret tt) w = (Ok tt, w1) /\ reported w w1) as (w1 & Hrep & Hr).
  { destruct (_ && _).
    - apply report_steady; [done | lia].
    - exists w. split; reflexivity. }
  unfold credential_of, warning_of.
  destruct (is_empty (password_value row)) eqn:Hemp.
  - exists w1. split; [| split].
    + eapply run_try_except_ok. erewrite run_bind_ok by exact Hrep.
      simpl. by rewrite app_nil_r.
    + by apply reported_env.
    + simpl. rewrite app_nil_r. by apply reported_log.
  - destruct (decrypt_password sv key (default [] (password_value row))) as [pw | e] eqn:Hdec.
    + exists w1. split; [| split].
      * eapply run_try_except_ok. erewrite run_bind_ok by exact Hrep.
        reflexivity.
      * by apply reported_env.
      * simpl. rewrite app_nil_r. by apply reported_log.
    + eexists. split; [| split].
      * erewrite run_try_except_raise; cycle 1.
        { erewrite run_bind_ok by exact Hrep.
          reflexivity. }
        unfold bind, logger, modify, ret. simpl. by rewrite app_nil_r.
      * simpl. by apply reported_env.
      * simpl. by rewrite (reported_log _ _ Hr).
Qed.

Lemma decrypt_rows_steady total rows : forall i passwords w,
  steady cb w ->
  exists w',
    for_enumerate i rows (decrypt_row sv cb key total) passwords w
      = (Ok (passwords ++ omap (credential_of sv key) rows), w') /\
    env w' = env w /\
    log w' = log w ++ omap (warning_of sv key) rows.
Proof.
  induction rows as [| row rows IH]; intros i passwords w Hst.
  - exists w. simpl. rewrite !app_nil_r. auto.
  - destruct (decrypt_row_steady total i row passwords w Hst) as (w1 & Hrun & He & Hl).
    assert (steady cb w1) as Hst1.
    { destruct Hst as [Hc Hcb]. split; [by rewrite He | done]. }
    destruct (IH (S i) (passwords ++ option_list (credential_of sv key row)) w1 Hst1)
      as (w2 & Hrun2 & He2 & Hl2).
    exists w2. split; [| split].
    + simpl for_enumerate. erewrite run_bind_ok by exact Hrun. rewrite Hrun2.
      simpl omap. destruct (credential_of sv key row); simpl;
        by rewrite <- ?app_assoc, ?app_nil_r.
    + congruence.
    + rewrite Hl2, Hl. simpl omap. destruct (warning_of sv key row); simpl;
        by rewrite <- ?app_assoc, ?app_nil_r.
Qed.

(** The whole batch while nobody cancels: it returns the credentials of
    the rows that yield one, in order, and logs one warning per row that
    failed. *)
Lemma decrypt_logins_steady rows w :
  steady cb w ->
  exists w',
    decrypt_logins sv cb key rows w = (Ok (omap (credential_of sv key) rows), w') /\
    log w' = log w ++ omap (warning_of sv key) rows.
Proof.
  intros Hst. unfold decrypt_logins.
  destruct (report_steady cb 30 100
              ("Found " +:+ str_nat (length rows) +:+ " stored passwords") w Hst)
    as (w1 & Hrun1 & Hr1); [lia |].
  destruct (decrypt_rows_steady (length rows) rows 0%nat [] w1
              (steady_reported _ _ _ Hr1 Hst)) as (w2 & Hrun2 & He2 & Hl2).
  assert (steady cb w2) as Hst2.
  { destruct Hst as [Hc Hcb]. split; [| done].
    by rewrite He2, (reported_env _ _ Hr1). }
  destruct (report_steady cb 95 100
              ("Extracted " +:+ str_nat (length (omap (credential_of sv key) rows))
               +:+ " passwords") w2 Hst2) as (w3 & Hrun3 & Hr3); [lia |].
  exists w3. split.
  - erewrite run_bind_ok by exact Hrun1.
    erewrite run_bind_ok by exact Hrun2. simpl.
    erewrite run_bind_ok by exact Hrun3. reflexivity.
  - by rewrite (reported_log _ _ Hr3), Hl2, (reported_log _ _ Hr1).
Qed.

Lemma decryptable_credential row :
  decryptable sv key row ->
  is_Some (credential_of sv key row) /\ warning_of sv key row = None.
Proof.
  intros (blob & pw & Hv & Hne & Hdec). unfold credential_of, warning_of.
  rewrite Hv. destruct blob as [| b blob]; [done |]. simpl. rewrite Hdec. eauto.
Qed.

Lemma undecryptable_credential row e :
  undecryptable sv key row e ->
  credential_of sv key row = None /\
  warning_of sv key row =
    Some (WARNING, "Failed to decrypt password for " +:+ origin_url row
                   +:+ ": " +:+ str_exn e).
Proof.
  intros (blob & Hv & Hne & Hdec). unfold credential_of, warning_of.
  rewrite Hv. destruct blob as [| b blob]; [done |]. simpl. rewrite Hdec. eauto.
Qed.

Lemma all_decryptable rows :
  Forall (decryptable sv key) rows ->
  length (omap (credential_of sv key) rows) = length rows /\
  omap (warning_of sv key) rows = [].
Proof.
  induction 1 as [| row rows Hrow _ [IHc IHw]]; [done |].
  destruct (decryptable_credential row Hrow) as [[c Hc] Hw].
  simpl. rewrite Hc, Hw. simpl. auto.
Qed.

(** C6.  In a batch of [N] rows of which exactly one, row [k], has a
    non-empty ciphertext that fails to decrypt while every other row
    decrypts, and during which the user does not cancel, the extraction
    returns without raising the [N - 1] credentials of the other rows, in
    order, and logs exactly one warning, for row [k]. *)
Theorem one_undecryptable_row_is_skipped (rows : list LoginRow) (k : nat)
    (bad : LoginRow) (e : exn) (w : World) :
  steady cb w ->
  rows !! k = Some bad ->
  undecryptable sv key bad e ->
  (forall j row, rows !! j = Some row -> j <> k -> decryptable sv key row) ->
  exists creds w',
    decrypt_logins sv cb key rows w = (Ok creds, w') /\
    length creds = (length rows - 1)%nat /\
    creds = omap (credential_of sv key) (take k rows ++ drop (S k) rows) /\
    log w' = log w ++
      [(WARNING, "Failed to decrypt password for " +:+ origin_url bad
                 +:+ ": " +:+ str_exn e)].
Proof.
  intros Hst Hk Hbad Hothers.
  destruct (decrypt_logins_steady rows w Hst) as (w' & Hrun & Hlog).
  exists (omap (credential_of sv key) rows), w'.
  destruct (undecryptable_credential bad e Hbad) as [Hc Hw].
  assert (Forall (decryptable sv key) (take k rows)) as Hl.
  { apply Forall_lookup. intros j row Hj.
    apply lookup_take_Some in Hj as [Hj Hlt]. apply (Hothers j); [done | lia]. }
  assert (Forall (decryptable sv key) (drop (S k) rows)) as Hr.
  { apply Forall_lookup. intros j row Hj.
    rewrite lookup_drop in Hj. apply (Hothers (S k + j)%nat); [done | lia]. }
  destruct (all_decryptable _ Hl) as [Hlc Hlw].
  destruct (all_decryptable _ Hr) as [Hrc Hrw].
  pose proof (take_drop_middle rows k bad Hk) as Hsplit.
  assert (omap (credential_of sv key) rows
          = omap (credential_of sv key) (take k rows ++ drop (S k) rows)) as Hcreds.
  { rewrite <- Hsplit at 1. rewrite !omap_app. simpl. by rewrite Hc. }
  split; [exact Hrun |]. split; [| split].
  - rewrite Hcreds, omap_app, length_app, Hlc, Hrc.
    rewrite <- Hsplit at 3. rewrite length_app. simpl. lia.
  - exact Hcreds.
  - rewrite Hlog. f_equal. rewrite <- Hsplit, omap_app. simpl.
    rewrite Hlw, Hw. simpl. f_equal. exact Hrw.
Qed.

(** C7, as the code has it.  The scheme is selected by the first three
    bytes of the ciphertext: exactly the prefix v10 selects AEAD, with the
    bytes 3 to 15 of the blob as nonce (twelve bytes when the blob has at
    least fifteen), the rest as data, the master key and no associated
    data; every other prefix, v11 included, sends the whole blob to the
    data-protection service of the operating system. *)
Theorem scheme_selected_by_v10_prefix (blob : list byte) :
  (take 3 blob = v10 ->
     decrypt_password sv key blob =
       exc_bind (AESGCM_decrypt sv key (take 12 (drop 3 blob)) (drop 15 blob) None)
                (decode_utf8 sv)) /\
  (take 3 blob <> v10 ->
     decrypt_password sv key blob =
       exc_bind (CryptUnprotectData sv blob) (decode_utf8 sv)) /\
  ((15 <= length blob)%nat -> length (slice 3 15 blob) = 12%nat).
Proof.
  unfold decrypt_password, startswith, slice. split; [| split].
  - intros Hp. change (length v10) with 3%nat. by rewrite bool_decide_eq_true_2.
  - intros Hp. change (length v10) with 3%nat. by rewrite bool_decide_eq_false_2.
  - intros Hlen. rewrite length_take, length_drop. lia.
Qed.

End passwords.

Section scheme_examples.
Import Passwords.

(** C7 as the design document states it fails on a v11 blob: the rule of
    the document decrypts it with AEAD, the code hands the whole blob to
    the operating system. *)
Lemma v11_blob_is_unwrapped_by_the_os :
  modern_prefix (take 3 blob_v11) = true /\
  decrypt_row_spec toy_services [] blob_v11 = Ok "A"%string /\
  decrypt_password toy_services [] blob_v11
    = exc_bind (CryptUnprotectData toy_services blob_v11) (decode_utf8 toy_services) /\
  decrypt_password toy_services [] blob_v11
    = Raise (DecryptionError "CryptUnprotectData failed") /\
  decrypt_password toy_services [] blob_v11 <> decrypt_row_spec toy_services [] blob_v11.
Proof.
  split; [reflexivity |]. split; [vm_compute; reflexivity |].
  split; [vm_compute; reflexivity |]. split; [vm_compute; reflexivity |].
  vm_compute. discriminate.
Qed.

(** On every blob whose prefix is not v11 the code follows the rule of
    the document. *)
Lemma decrypt_password_refines_spec sv key blob :
  take 3 blob <> v11 ->
  decrypt_password sv key blob = decrypt_row_spec sv key blob.
Proof.
  intros Hne. unfold decrypt_password, decrypt_row_spec, modern_prefix, startswith.
  change (length v10) with 3%nat.
  rewrite (bool_decide_eq_false_2 (take 3 blob = v11)) by done.
  by rewrite orb_false_r.
Qed.

End scheme_examples.

(** ** Frames of the callbacks and of SQLite *)

Section report_frames.
Context (R : relation World) `{!PreOrder R}.
Context (HR : forall r w, R w (add_report r w)).

Lemma moves_call cb : forall current total message,
  moves_within R (call cb current total message).
Proof.
  induction cb as [| cs ts | outer cs ts IH] using Callback_induction;
    intros current total message.
  - unfold call. moves.
  - simpl. moves.
  - simpl. destruct (_ || _); [moves | apply IH].
Qed.

Lemma moves_report cb current total message :
  moves_within R (report cb current total message).
Proof. destruct cb; simpl; [apply moves_call | moves]. Qed.

Lemma moves_run_prog {A} (p : Prog A) cb : moves_within R (run_prog p cb).
Proof.
  induction p as [a | e | current total message k IH]; simpl; [moves | moves |].
  apply (moves_bind R); [| exact IH].
  apply (moves_attempt R), moves_report.
Qed.

End report_frames.

Lemma same_files_preorder_proof : PreOrder same_files.
Proof.
  split; [by intros w |].
  intros w1 w2 w3 [? ?] [? ?]. split; congruence.
Qed.

#[export] Instance same_files_preorder : PreOrder same_files :=
  same_files_preorder_proof.

Lemma same_files_add_log l w : same_files w (add_log l w).
Proof. done. Qed.
Lemma same_files_tick_io w : same_files w (tick_io w).
Proof. done. Qed.
Lemma same_files_add_report r w : same_files w (add_report r w).
Proof. done. Qed.
Lemma reported_same_files w w' : reported w w' -> same_files w w'.
Proof. by intros [rs ->]. Qed.

#[export] Hint Resolve same_files_add_log same_files_tick_io
  same_files_add_report : moves.

Ltac moves_step ::=
  lazymatch goal with
  | |- PreOrder _ => apply _
  | |- forall _, _ => intro
  | |- moves_within _ (bind _ _) => apply moves_bind
  | |- moves_within _ (try_except _ _) => apply moves_try_except
  | |- moves_within _ (try_finally _ _) => apply moves_try_finally
  | |- moves_within _ (attempt _) => apply moves_attempt
  | |- moves_within _ (for_range _ _) => apply moves_for_range
  | |- moves_within _ (for_enumerate _ _ _ _) => apply moves_for_enumerate
  | |- moves_within _ (ret _) => apply moves_ret
  | |- moves_within _ (raise _) => apply moves_raise
  | |- moves_within _ (gets _) => apply moves_gets
  | |- moves_within _ (logger _ _) => apply moves_logger
  | |- moves_within _ (io_point _) => apply moves_io_point
  | |- moves_within _ (modify _) => apply moves_modify
  | |- moves_within _ (report _ _ _ _) => apply moves_report
  | |- moves_within _ (run_prog _ _) => apply moves_run_prog
  | |- moves_within _ (Passwords.lift_exc _) => intros ?; reflexivity
  | |- moves_within _ (match ?x with _ => _ end) => destruct x
  | |- _ => solve [eauto with moves]
  end.

Section history_frames.
Import History.

Lemma execute_same_files {A} statement (r : Exc A) :
  moves_within same_files (execute statement r).
Proof. unfold execute. moves. Qed.

Lemma report_item_same_files cb base what i n :
  moves_within same_files (report_item cb base what i n).
Proof. unfold report_item. moves. Qed.

Lemma import_place_same_files cb m n i place acc :
  moves_within same_files (import_place cb m n i place acc).
Proof.
  unfold import_place. destruct acc as [zen mapping].
  pose proof report_item_same_files. pose proof @execute_same_files. moves.
Qed.

Lemma import_visit_same_files cb m mapping n i visit zen :
  moves_within same_files (import_visit cb m mapping n i visit zen).
Proof.
  unfold import_visit.
  pose proof report_item_same_files. pose proof @execute_same_files. moves.
Qed.

End history_frames.

(** ** The merge, when it returns *)

Lemma for_enumerate_ok_inv {St A Acc} (body : nat -> A -> Acc -> M St Acc)
    (step : nat -> A -> Acc -> Exc Acc) :
  (forall i x acc s acc' s', body i x acc s = (Ok acc', s') -> step i x acc = Ok acc') ->
  forall xs i acc s acc' s',
    for_enumerate i xs body acc s = (Ok acc', s') ->
    fold_enumerate step i xs acc = Ok acc'.
Proof.
  intros Hstep. induction xs as [| x xs IH]; intros i acc s acc' s' H; simpl in *.
  - unfold ret in H. congruence.
  - apply bind_ok_inv in H as (acc1 & s1 & H1 & H).
    rewrite (Hstep _ _ _ _ _ _ H1). eapply IH, H.
Qed.

Lemma execute_ok_inv {A} statement (r : Exc A) w a w' :
  execute statement r w = (Ok a, w') -> r = Ok a /\ same_files w w'.
Proof.
  intros H. pose proof (execute_same_files statement r w) as Hs. rewrite H in Hs.
  split; [| exact Hs].
  unfold execute, bind, io_point, Passwords.lift_exc in H.
  destruct (io_fault _ _); simpl in H; congruence.
Qed.

Lemma sqlite3_connect_ok_inv path w db w' :
  sqlite3_connect path w = (Ok db, w') ->
  fs w !! path = Some (SqliteFile db) /\ same_files w w'.
Proof.
  unfold sqlite3_connect, bind, io_point, gets. intros H.
  destruct (io_fault _ _); simpl in H; [discriminate |].
  destruct (fs w !! path) as [[db' | data] |]; try discriminate.
  unfold ret in H. injection H as -> <-. done.
Qed.

Lemma commit_ok_inv path db w w' :
  commit path db w = (Ok tt, w') ->
  env w' = env w /\ fs w' = <[path := SqliteFile db]> (fs w).
Proof.
  unfold commit, bind, io_point, modify. intros H.
  destruct (io_fault _ _); simpl in H; [discriminate |].
  injection H as <-. done.
Qed.

Section merge_inversion.
Import History.

Lemma import_place_ok_inv cb m n i place acc w acc' w' :
  import_place cb m n i place acc w = (Ok acc', w') ->
  place_step m i place acc = Ok acc'.
Proof.
  unfold import_place, place_step. destruct acc as [zen mapping]. intros H.
  apply bind_ok_inv in H as ([] & w1 & _ & H).
  apply bind_ok_inv in H as (existing & w2 & H2 & H).
  apply execute_ok_inv in H2 as [Hex _]. injection Hex as <-.
  destruct (select_place_by_url _ _) as [eid |].
  - unfold ret in H. congruence.
  - apply bind_ok_inv in H as (zen' & w3 & H3 & H).
    apply execute_ok_inv in H3 as [-> _]. unfold ret in H. congruence.
Qed.

Lemma import_visit_ok_inv cb m mapping n i visit zen w zen' w' :
  import_visit cb m mapping n i visit zen w = (Ok zen', w') ->
  visit_step m mapping i visit zen = Ok zen'.
Proof.
  unfold import_visit, visit_step, remapped_visit. intros H.
  apply bind_ok_inv in H as ([] & w1 & _ & H).
  destruct (mapping !! visit_place_id visit) as [pid |]; simpl.
  - apply execute_ok_inv in H as [-> _]. reflexivity.
  - unfold ret in H. congruence.
Qed.

(** A merge that returns: both files were databases, the two loops ran
    through, and the destination file holds their result. *)
Lemma merge_ok_inv cb temp_path places_path w w' :
  merge cb temp_path places_path w = (Ok tt, w') ->
  exists zen temp acc zen',
    fs w !! places_path = Some (SqliteFile zen) /\
    fs w !! temp_path = Some (SqliteFile temp) /\
    merged_places zen temp = Ok acc /\
    merged_visits zen temp acc = Ok zen' /\
    env w' = env w /\
    fs w' = <[places_path := SqliteFile zen']> (<[temp_path := SqliteFile temp]> (fs w)).
Proof.
  unfold merge. intros H.
  apply bind_ok_inv in H as (zen & w1 & H1 & H).
  apply sqlite3_connect_ok_inv in H1 as [Hzen [He1 Hf1]].
  apply bind_ok_inv in H as (temp & w2 & H2 & H).
  apply sqlite3_connect_ok_inv in H2 as [Htemp [He2 Hf2]].
  apply bind_ok_inv in H as (max_place_id & w3 & H3 & H).
  apply execute_ok_inv in H3 as [Hmp [He3 Hf3]]. injection Hmp as <-.
  apply bind_ok_inv in H as (max_visit_id & w4 & H4 & H).
  apply execute_ok_inv in H4 as [Hmv [He4 Hf4]]. injection Hmv as <-.
  apply bind_ok_inv in H as (places & w5 & H5 & H).
  apply execute_ok_inv in H5 as [Hpl [He5 Hf5]]. injection Hpl as <-.
  apply bind_ok_inv in H as (acc & w6 & H6 & H).
  assert (same_files w5 w6) as [He6 Hf6].
  { eapply run_moves; [| exact H6]. apply moves_for_enumerate; [apply _ |].
    intros. apply import_place_same_files. }
  apply (for_enumerate_ok_inv _ (place_step (max_place_id_of zen))) in H6;
    [| intros; by eapply import_place_ok_inv].
  apply bind_ok_inv in H as (visits & w7 & H7 & H).
  apply execute_ok_inv in H7 as [Hvi [He7 Hf7]]. injection Hvi as <-.
  apply bind_ok_inv in H as (zen' & w8 & H8 & H).
  assert (same_files w7 w8) as [He8 Hf8].
  { eapply run_moves; [| exact H8]. apply moves_for_enumerate; [apply _ |].
    intros. apply import_visit_same_files. }
  apply (for_enumerate_ok_inv _ (visit_step (max_visit_id_of zen) acc.2)) in H8;
    [| intros; by eapply import_visit_ok_inv].
  apply bind_ok_inv in H as ([] & w9 & H9 & H).
  apply commit_ok_inv in H9 as [He9 Hf9].
  apply commit_ok_inv in H as [He10 Hf10].
  exists zen, temp, acc, zen'.
  rewrite Hf1 in Htemp.
  repeat split; try done.
  - congruence.
  - rewrite Hf10, Hf9. congruence.
Qed.

End merge_inversion.

(** ** The two loops of the merge as functions of the tables *)

Section merge_facts.

Lemma select_place_by_url_app url places1 places2 visits1 visits2 eid :
  select_place_by_url url (mkDatabase places1 visits1) = Some eid ->
  select_place_by_url url (mkDatabase (places1 ++ places2) visits2) = Some eid.
Proof.
  unfold select_place_by_url. simpl. induction places1 as [| r rows IH]; simpl; [done |].
  destruct (bool_decide _); [done | exact IH].
Qed.

Lemma select_place_by_url_Some url db eid :
  select_place_by_url url db = Some eid ->
  exists row, row ∈ moz_places db /\ place_url row = url /\ place_id row = eid.
Proof.
  unfold select_place_by_url. destruct (find _ _) as [row |] eqn:Hf; [| done].
  intros [= <-]. apply find_some in Hf as [Hin Hb].
  exists row. split; [by apply list_elem_of_In |]. split; [| done].
  by apply bool_decide_eq_true_1 in Hb.
Qed.

Lemma select_place_by_url_None url db :
  select_place_by_url url db = None -> url ∉ map place_url (moz_places db).
Proof.
  unfold select_place_by_url. destruct (find _ _) as [row |] eqn:Hf; [done |].
  intros _ Hin. apply list_elem_of_fmap in Hin as (row & -> & Hin).
  apply list_elem_of_In in Hin.
  pose proof (find_none _ _ Hf row Hin) as Hb. simpl in Hb.
  by apply bool_decide_eq_false_1 in Hb.
Qed.

Lemma select_place_by_url_is_Some url db :
  url ∈ map place_url (moz_places db) -> is_Some (select_place_by_url url db).
Proof.
  intros Hin. destruct (select_place_by_url url db) eqn:Hs; [eauto |].
  by apply select_place_by_url_None in Hs.
Qed.

(** One step of the loop over the staged places: either the URL is in
    the table and nothing is inserted, or it is not and one row with that
    URL is appended. *)
Lemma place_step_inv max_place_id i place zen mapping zen' mapping' :
  place_step max_place_id i place (zen, mapping) = Ok (zen', mapping') ->
  moz_historyvisits zen' = moz_historyvisits zen /\
  ((exists eid,
      select_place_by_url (place_url place) zen = Some eid /\
      zen' = zen /\ mapping' !! place_id place = Some eid) \/
   (exists row,
      (place_url place ∉ map place_url (moz_places zen)) /\
      place_url row = place_url place /\
      moz_places zen' = moz_places zen ++ [row] /\
      mapping' !! place_id place = Some (max_place_id + place_id place))) /\
  (forall k, k <> place_id place -> mapping' !! k = mapping !! k).
Proof.
  unfold place_step. intros H.
  destruct (select_place_by_url (place_url place) zen) as [eid |] eqn:Hsel.
  - injection H as <- <-. split; [done |]. split.
    + left. exists eid. by rewrite lookup_insert_eq.
    + intros k Hk. by rewrite !lookup_insert_ne.
  - unfold insert_place in H. destruct (bool_decide _); [discriminate |].
    injection H as <- <-. split; [done |]. split.
    + right. eexists. split; [by apply select_place_by_url_None |].
      split; [| split]; [| reflexivity | by rewrite lookup_insert_eq]. reflexivity.
    + intros k Hk. by rewrite lookup_insert_ne.
Qed.

(** The loop over the staged places appends a block [new] of rows to the
    places table: one row for each URL of the staged rows that the table
    did not have, and no row for a URL that it had. *)
Lemma places_fold_rows max_place_id : forall places i zen mapping zen' mapping',
  fold_enumerate (place_step max_place_id) i places (zen, mapping) = Ok (zen', mapping') ->
  moz_historyvisits zen' = moz_historyvisits zen /\
  exists new,
    moz_places zen' = moz_places zen ++ new /\
    NoDup (map place_url new) /\
    forall url,
      url ∈ map place_url new <->
      url ∈ map place_url places /\ url ∉ map place_url (moz_places zen).
Proof.
  induction places as [| place places IH]; intros i zen mapping zen' mapping' H.
  - injection H as <- <-. split; [done |]. exists []. rewrite app_nil_r.
    split; [done |]. split; [constructor |]. intros url. simpl. set_solver.
  - cbn [fold_enumerate] in H. destruct (place_step _ _ _ _) as [[zen1 mapping1] | e] eqn:Hstep;
      [| discriminate].
    apply place_step_inv in Hstep as (Hv1 & Hcase & _).
    apply IH in H as (Hv & new & Hp & Hnd & Hchar).
    split; [congruence |].
    destruct Hcase as [(eid & Hsel & -> & _) | (row & Hnotin & Hurl & Hp1 & _)].
    + exists new. split; [done |]. split; [done |].
      intros url. rewrite Hchar. simpl.
      apply select_place_by_url_Some in Hsel as (r & Hr & Hru & _).
      assert (place_url place ∈ map place_url (moz_places zen)).
      { rewrite <- Hru. apply list_elem_of_fmap. eauto. }
      set_solver.
    + exists (row :: new). rewrite Hp, Hp1, <- app_assoc. split; [done |].
      rewrite Hp1 in Hchar. split.
      * simpl. constructor; [| done]. rewrite Hurl, Hchar, map_app. simpl. set_solver.
      * intros url. simpl. rewrite elem_of_cons, Hchar, map_app, Hurl. simpl.
        rewrite !elem_of_cons, elem_of_app, list_elem_of_singleton, Hurl.
        destruct (decide (url = place_url place)) as [-> | Hne]; tauto.
Qed.

(** The identifier map gets an entry for every staged place. *)
Lemma places_fold_dom max_place_id : forall places i zen mapping zen' mapping',
  fold_enumerate (place_step max_place_id) i places (zen, mapping) = Ok (zen', mapping') ->
  forall k, k ∈ map place_id places -> is_Some (mapping' !! k).
Proof.
  induction places as [| place places IH]; intros i zen mapping zen' mapping' H k Hk.
  - by apply elem_of_nil in Hk.
  - cbn [fold_enumerate] in H. destruct (place_step _ _ _ _) as [[zen1 mapping1] | e] eqn:Hstep;
      [| discriminate].
    apply place_step_inv in Hstep as (_ & Hcase & _).
    destruct (decide (k ∈ map place_id places)) as [Hin | Hnin].
    + eapply IH; eauto.
    + simpl in Hk. apply elem_of_cons in Hk as [-> | Hk]; [| done].
      assert (is_Some (mapping1 !! place_id place)) as Hs.
      { destruct Hcase as [(eid & _ & _ & Hm) | (row & _ & _ & _ & Hm)];
          rewrite Hm; eauto. }
      clear Hcase. revert H Hs Hnin. clear. revert i zen1 mapping1.
      induction places as [| q places IH]; intros i zen1 mapping1 H Hs Hnin.
      * injection H as <- <-. done.
      * cbn [fold_enumerate] in H. destruct (place_step _ _ _ _) as [[zen2 mapping2] | e] eqn:Hstep;
          [| discriminate].
        apply place_step_inv in Hstep as (_ & _ & Hother).
        simpl in Hnin. apply not_elem_of_cons in Hnin as [Hne Hnin].
        eapply IH; [exact H | | exact Hnin]. by rewrite Hother.
Qed.

(** Entries of the identifier map for other identifiers are kept. *)
Lemma places_fold_other max_place_id : forall places i zen mapping zen' mapping' k,
  fold_enumerate (place_step max_place_id) i places (zen, mapping) = Ok (zen', mapping') ->
  k ∉ map place_id places -> mapping' !! k = mapping !! k.
Proof.
  induction places as [| q places IH]; intros i zen mapping zen' mapping' k H Hnin.
  - by injection H as <- <-.
  - cbn [fold_enumerate] in H. destruct (place_step _ _ _ _) as [[zen2 mapping2] | e] eqn:Hstep;
      [| discriminate].
    apply place_step_inv in Hstep as (_ & _ & Hother).
    simpl in Hnin. apply not_elem_of_cons in Hnin as [Hne Hnin].
    rewrite (IH _ _ _ _ _ _ H Hnin). by apply Hother.
Qed.

(** A staged place whose URL the destination already had is mapped to
    the identifier of the row found there. *)
Lemma places_fold_existing max_place_id : forall places i zen mapping zen' mapping',
  fold_enumerate (place_step max_place_id) i places (zen, mapping) = Ok (zen', mapping') ->
  NoDup (map place_id places) ->
  forall place, place ∈ places ->
    place_url place ∈ map place_url (moz_places zen) ->
    mapping' !! place_id place = select_place_by_url (place_url place) zen.
Proof.
  induction places as [| q places IH]; intros i zen mapping zen' mapping' H Hnd p Hp Hurl.
  - by apply elem_of_nil in Hp.
  - cbn [fold_enumerate] in H. destruct (place_step _ _ _ _) as [[zen1 mapping1] | e] eqn:Hstep;
      [| discriminate].
    apply place_step_inv in Hstep as (Hv1 & Hcase & Hother).
    simpl in Hnd. apply NoDup_cons in Hnd as [Hq Hnd].
    apply elem_of_cons in Hp as [-> | Hp].
    + rewrite (places_fold_other _ _ _ _ _ _ _ _ H Hq).
      destruct Hcase as [(eid & Hsel & _ & Hm) | (row & Hnotin & _)]; [| done].
      by rewrite Hm, Hsel.
    + assert (moz_places zen1 = moz_places zen \/
              exists row, moz_places zen1 = moz_places zen ++ [row]) as Hz.
      { destruct Hcase as [(eid & _ & -> & _) | (row & _ & _ & Hp1 & _)]; eauto. }
      rewrite (IH _ _ _ _ _ H Hnd p Hp).
      * destruct (select_place_by_url_is_Some _ _ Hurl) as [eid Heid].
        rewrite Heid. destruct zen as [pl vi], zen1 as [pl1 vi1]. simpl in *.
        destruct Hz as [-> | [row ->]].
        -- unfold select_place_by_url in *. exact Heid.
        -- by eapply select_place_by_url_app.
      * destruct Hz as [-> | [row ->]]; [done |]. rewrite map_app. set_solver.
Qed.

(** The loop over the staged visits appends the remapped visits and
    leaves the places table alone. *)
Lemma visits_fold_rows max_visit_id mapping : forall visits i zen zen',
  fold_enumerate (visit_step max_visit_id mapping) i visits zen = Ok zen' ->
  moz_places zen' = moz_places zen /\
  moz_historyvisits zen' =
    moz_historyvisits zen ++ remapped_visits max_visit_id mapping i visits.
Proof.
  induction visits as [| visit visits IH]; intros i zen zen' H.
  - injection H as <-. simpl. by rewrite app_nil_r.
  - cbn [fold_enumerate] in H. unfold visit_step in H at 1. cbn [remapped_visits].
    destruct (remapped_visit max_visit_id mapping i visit) as [row |].
    + unfold insert_visit in H. destruct (bool_decide _); [discriminate |].
      apply IH in H as [Hp Hv]. simpl in *. split; [done |].
      by rewrite Hv, <- app_assoc.
    + apply IH in H as [Hp Hv]. done.
Qed.

Lemma remapped_visits_length max_visit_id mapping : forall visits i,
  (forall visit, visit ∈ visits -> is_Some (mapping !! visit_place_id visit)) ->
  length (remapped_visits max_visit_id mapping i visits) = length visits.
Proof.
  induction visits as [| visit visits IH]; intros i Hall; [done |].
  simpl. unfold remapped_visit at 1.
  destruct (Hall visit) as [pid Hpid]; [set_solver |]. rewrite Hpid. simpl.
  f_equal. apply IH. intros v Hv. apply Hall. set_solver.
Qed.

(** Every remapped visit stems from a staged visit and carries the
    identifier that the map gives to that visit's place. *)
Lemma remapped_visits_elem max_visit_id mapping : forall visits i row,
  row ∈ remapped_visits max_visit_id mapping i visits ->
  exists visit,
    visit ∈ visits /\
    mapping !! visit_place_id visit = Some (visit_place_id row) /\
    visit_date row = visit_date visit /\
    visit_type row = visit_type visit /\
    visit_session row = visit_session visit.
Proof.
  induction visits as [| visit visits IH]; intros i row Hrow; simpl in Hrow.
  - by apply elem_of_nil in Hrow.
  - apply elem_of_app in Hrow as [Hrow | Hrow].
    + unfold remapped_visit in Hrow.
      destruct (mapping !! visit_place_id visit) as [pid |] eqn:Hpid; simpl in Hrow.
      * apply list_elem_of_singleton in Hrow as ->. exists visit. simpl.
        split; [set_solver | done].
      * by apply elem_of_nil in Hrow.
    + apply IH in Hrow as (v & Hv & Hrest). exists v. split; [set_solver | done].
Qed.

End merge_facts.

(** ** Staging *)

Section staging.
Import History.

Lemma save_item_ok_inv i item db w db' w' :
  save_item i item db w = (Ok db', w') -> stage_item i item db = Ok db'.
Proof.
  unfold save_item, stage_item. intros H.
  apply bind_ok_inv in H as (rev_host & w1 & H1 & H).
  unfold Passwords.lift_exc in H1. injection H1 as -> <-.
  apply bind_ok_inv in H as (db1 & w2 & H2 & H).
  apply execute_ok_inv in H2 as [[= <-] _].
  apply execute_ok_inv in H as [[= <-] _]. reflexivity.
Qed.

Lemma save_item_same_files i item db : moves_within same_files (save_item i item db).
Proof. unfold save_item. pose proof @execute_same_files. moves. Qed.

(** Staging appends one place row and one visit row per item, the visit
    pointing at the place. *)
Lemma stage_fold_rows : forall items i db db',
  fold_enumerate stage_item i items db = Ok db' ->
  exists places visits,
    moz_places db' = moz_places db ++ places /\
    moz_historyvisits db' = moz_historyvisits db ++ visits /\
    map place_url places = map hi_url items /\
    map visit_place_id visits = map place_id places /\
    map visit_date visits = map hi_visit_time items.
Proof.
  induction items as [| item items IH]; intros i db db' H.
  - injection H as <-. exists [], []. by rewrite !app_nil_r.
  - cbn [fold_enumerate] in H. unfold stage_item in H at 1.
    destruct (rev_host_of (hi_url item)) as [rev_host | e]; [| discriminate].
    apply IH in H as (places & visits & Hp & Hv & Hu & Hpid & Hd).
    simpl in Hp, Hv. rewrite <- app_assoc in Hp, Hv.
    eexists (_ :: places), (_ :: visits). split; [exact Hp |]. split; [exact Hv |].
    simpl. by rewrite Hu, Hpid, Hd.
Qed.

(** [save_to_sqlite] when it returns: the file holds the staged rows on
    top of what it held. *)
Lemma save_to_sqlite_ok_inv imp items w path w' :
  save_to_sqlite imp items w = (Ok path, w') ->
  path = temp_db_path imp /\
  env w' = env w /\
  exists db0 db,
    (fs w !! temp_db_path imp = None -> db0 = empty_database) /\
    fold_enumerate stage_item 0 items db0 = Ok db /\
    fs w' = <[temp_db_path imp := SqliteFile db]>
              (<[temp_db_path imp := SqliteFile db0]> (fs w)).
Proof.
  unfold save_to_sqlite. intros H. unfold try_except in H.
  match type of H with
  | match ?m w with _ => _ end = _ => destruct (m w) as [[p | e] w1] eqn:Hbody
  end; cycle 1.
  { unfold bind, logger, modify, raise in H. discriminate. }
  injection H as -> ->.
  apply bind_ok_inv in Hbody as (db0 & w1 & H1 & H).
  assert (env w1 = env w /\ fs w1 = <[temp_db_path imp := SqliteFile db0]> (fs w) /\
          (fs w !! temp_db_path imp = None -> db0 = empty_database)) as (He1 & Hf1 & Hnew).
  { unfold sqlite3_connect_create, bind, io_point, gets, modify, ret in H1.
    repeat (destruct (io_fault _ _); simpl in H1; try discriminate).
    destruct (fs w !! temp_db_path imp) as [[db' | data] |] eqn:Hc; simpl in H1;
      try discriminate;
      repeat (destruct (io_fault _ _); simpl in H1; try discriminate);
      injection H1 as <- <-; simpl; done. }
  apply bind_ok_inv in H as (db & w2 & H2 & H).
  assert (same_files w1 w2) as [He2 Hf2].
  { eapply run_moves; [| exact H2]. apply moves_for_enumerate; [apply _ |].
    intros. apply save_item_same_files. }
  apply (for_enumerate_ok_inv _ stage_item) in H2;
    [| intros; by eapply save_item_ok_inv].
  apply bind_ok_inv in H as ([] & w3 & H3 & H).
  assert (same_files w2 w3) as [He3 Hf3] by (eapply run_moves; [| exact H3]; moves).
  apply bind_ok_inv in H as ([] & w4 & H4 & H).
  assert (same_files w3 w4) as [He4 Hf4] by (eapply run_moves; [| exact H4]; moves).
  apply bind_ok_inv in H as ([] & w5 & H5 & H).
  assert (same_files w4 w5) as [He5 Hf5] by (eapply run_moves; [| exact H5]; moves).
  apply bind_ok_inv in H as ([] & w6 & H6 & H).
  apply commit_ok_inv in H6 as [He6 Hf6].
  unfold bind, logger, modify, ret in H. injection H as <- <-.
  split; [done |]. split; [simpl; congruence |].
  exists db0, db. split; [done |]. split; [done |]. simpl. congruence.
Qed.

End staging.

(** ** The importer, when it reports success *)

Section importer_inversion.
Import History.

Lemma try_except_ok_inv {St A} (m : M St A) h s a s' :
  try_except m h s = (Ok a, s') ->
  m s = (Ok a, s') \/ exists e s1, m s = (Raise e, s1) /\ h e s1 = (Ok a, s').
Proof.
  unfold try_except. destruct (m s) as [[a' | e] s1] eqn:Hm; intros H;
    [left; congruence |].
  right. eauto.
Qed.

Lemma try_finally_ok_inv {St A} (m : M St A) c s a s' :
  try_finally m c s = (Ok a, s') ->
  exists s1, m s = (Ok a, s1) /\ c s1 = (Ok tt, s').
Proof.
  unfold try_finally. destruct (m s) as [r s1] eqn:Hm.
  destruct (c s1) as [[[] | e] s2] eqn:Hc; intros H; [| discriminate].
  injection H as -> <-. by exists s1.
Qed.

Lemma shutil_copy2_ok_inv src dst w w' :
  shutil_copy2 src dst w = (Ok tt, w') ->
  env w' = env w /\
  exists c, fs w !! src = Some c /\ fs w' = <[dst := c]> (fs w).
Proof.
  unfold shutil_copy2, bind, io_point, gets, modify. intros H.
  destruct (io_fault _ _); simpl in H; [discriminate |].
  destruct (fs w !! src) as [c |] eqn:Hc; simpl in H; [| discriminate].
  injection H as <-. eauto.
Qed.

(** The restore step never raises: its own failure is logged. *)
Lemma restore_backup_returns places_path backup w :
  exists w', restore_backup places_path backup w = (Ok tt, w').
Proof.
  unfold restore_backup, try_except.
  match goal with |- context [match ?m w with _ => _ end] => destruct (m w) as [[[] | e] w1] end;
    [by eexists |].
  unfold logger, modify. by eexists.
Qed.

(** The handler of a failed merge returns [False]. *)
Lemma merge_failed_returns places_path backup e w :
  exists w', merge_failed places_path backup e w = (Ok false, w').
Proof.
  unfold merge_failed, bind at 1, logger at 1, modify at 1.
  unfold bind at 1, os_path_exists at 1, gets at 1.
  destruct (bool_decide _).
  - destruct (restore_backup_returns places_path backup
                (add_log (ERROR, "Failed to import history: " +:+ str_exn e) w))
      as [w1 H1].
    erewrite run_bind_ok by exact H1. by eexists.
  - unfold bind, ret. by eexists.
Qed.

Lemma remove_temp_untouched imp q path :
  path <> q -> moves_within (untouched q) (remove_temp imp path).
Proof.
  intros Hne. unfold remove_temp. destruct (secure_delete imp).
  - apply moves_bind; [apply _ | by apply secure_delete_file_untouched | moves].
  - by apply os_remove_untouched.
Qed.

Lemma discard_backup_untouched imp q backup :
  backup <> q -> moves_within (untouched q) (discard_backup imp backup).
Proof.
  intros Hne. unfold discard_backup. pose proof remove_temp_untouched.
  pose proof os_path_exists_untouched. moves.
Qed.

Lemma cleanup_temp_untouched imp cb q path :
  path <> q -> moves_within (untouched q) (cleanup_temp imp cb path).
Proof.
  intros Hne. unfold cleanup_temp. pose proof remove_temp_untouched.
  pose proof os_path_exists_untouched. moves.
Qed.

Lemma merge_and_report_ok_inv cb temp_path places_path w b w' :
  merge_and_report cb temp_path places_path w = (Ok b, w') ->
  b = true /\
  exists w1 w2,
    same_files w w1 /\ merge cb temp_path places_path w1 = (Ok tt, w2) /\
    same_files w2 w'.
Proof.
  unfold merge_and_report. intros H.
  apply bind_ok_inv in H as ([] & w1 & H1 & H).
  assert (same_files w w1) as Hs1 by (eapply run_moves; [| exact H1]; moves).
  apply bind_ok_inv in H as ([] & w2 & H2 & H).
  apply bind_ok_inv in H as ([] & w3 & H3 & H).
  assert (same_files w2 w3) as [He3 Hf3] by (eapply run_moves; [| exact H3]; moves).
  unfold bind, logger, modify, ret in H. injection H as <- <-.
  split; [done |]. exists w1, w2. split; [done |]. split; [done |].
  split; simpl; done.
Qed.

(** [_import_history_via_database] returns [True] only after a merge
    that ran through: the destination file then holds the result of the
    two loops over what it held and what the staging file held. *)
Lemma import_via_database_ok_inv imp temp_path profile cb w w' :
  _import_history_via_database imp temp_path profile cb w = (Ok true, w') ->
  places_db_path_of profile <> places_db_path_backup imp ->
  temp_path <> places_db_path_backup imp ->
  exists zen temp acc zen',
    fs w !! places_db_path_of profile = Some (SqliteFile zen) /\
    fs w !! temp_path = Some (SqliteFile temp) /\
    merged_places zen temp = Ok acc /\
    merged_visits zen temp acc = Ok zen' /\
    fs w' !! places_db_path_of profile = Some (SqliteFile zen') /\
    env w' = env w.
Proof.
  unfold _import_history_via_database. intros H Hpb Htb.
  apply bind_ok_inv in H as (present & w0 & H0 & H).
  unfold os_path_exists, gets in H0. injection H0 as <- <-.
  destruct (negb _).
  { unfold bind, logger, modify, ret in H. discriminate. }
  apply bind_ok_inv in H as ([] & w1 & H1 & H).
  assert (same_files w w1) as [He1 Hf1] by (eapply run_moves; [| exact H1]; moves).
  apply bind_ok_inv in H as ([] & w2 & H2 & H).
  apply shutil_copy2_ok_inv in H2 as (He2 & c & Hc & Hf2).
  apply try_finally_ok_inv in H as (w3 & H & Hfin).
  apply try_except_ok_inv in H as [H | (e & w2' & _ & H)]; cycle 1.
  { destruct (merge_failed_returns (places_db_path_of profile)
                (places_db_path_backup imp) e w2') as [w3' Hmf].
    rewrite Hmf in H. discriminate. }
  apply merge_and_report_ok_inv in H as (_ & wa & wb & [Hea Hfa] & Hmerge & [Heb Hfb]).
  apply merge_ok_inv in Hmerge
    as (zen & temp & acc & zen' & Hzen & Htemp & Hmp & Hmv & Hem & Hfm).
  assert (untouched (places_db_path_of profile) w3 w') as [He3 Hf3].
  { eapply run_moves; [| exact Hfin]. apply discard_backup_untouched. done. }
  exists zen, temp, acc, zen'.
  rewrite Hfa, Hf2, Hf1 in Hzen, Htemp.
  rewrite lookup_insert_ne in Hzen, Htemp by done.
  repeat split; try done.
  - rewrite Hf3, Hfb, Hfm. apply lookup_insert_eq.
  - congruence.
Qed.

End importer_inversion.

(** ** Deduplication and row counts *)

Section merge_outcome.
Import History.

Lemma rows_of_url_absent url rows :
  url ∉ map place_url rows -> rows_of_url url rows = [].
Proof.
  unfold rows_of_url. induction rows as [| row rows IH]; intros Hnin; [done |].
  simpl in Hnin. apply not_elem_of_cons in Hnin as [Hne Hnin].
  rewrite filter_cons_False by done. by apply IH.
Qed.

(** C2.  After a merge that reports success, a URL [U] that the
    destination already held still has the rows it had and no other: no
    place row was inserted for it.  Every staged place with that URL is
    mapped to the identifier [existing_id] that the destination's lookup
    by URL returns, and the visits written are the staged visits remapped
    through that identifier map, so every imported visit of [U] refers to
    [existing_id]. *)
Theorem merge_deduplicates_by_url imp temp_path profile cb w w' zen temp U :
  _import_history_via_database imp temp_path profile cb w = (Ok true, w') ->
  places_db_path_of profile <> places_db_path_backup imp ->
  temp_path <> places_db_path_backup imp ->
  fs w !! places_db_path_of profile = Some (SqliteFile zen) ->
  fs w !! temp_path = Some (SqliteFile temp) ->
  NoDup (map place_id (moz_places temp)) ->
  U ∈ map place_url (moz_places zen) ->
  exists zen' place_id_mapping existing_id,
    fs w' !! places_db_path_of profile = Some (SqliteFile zen') /\
    rows_of_url U (moz_places zen') = rows_of_url U (moz_places zen) /\
    select_place_by_url U zen = Some existing_id /\
    (forall place, place ∈ moz_places temp -> place_url place = U ->
       place_id_mapping !! place_id place = Some existing_id) /\
    moz_historyvisits zen' =
      moz_historyvisits zen
      ++ remapped_visits (max_visit_id_of zen) place_id_mapping 0
           (moz_historyvisits temp).
Proof.
  intros H Hpb Htb Hzen Htemp Hnd HU.
  apply import_via_database_ok_inv in H
    as (zen0 & temp0 & [zen1 mapping] & zen' & Hzen0 & Htemp0 & Hmp & Hmv & Hout & _);
    [| done | done].
  rewrite Hzen in Hzen0. injection Hzen0 as <-.
  rewrite Htemp in Htemp0. injection Htemp0 as <-.
  unfold merged_places in Hmp. unfold merged_visits in Hmv. simpl in Hmv.
  destruct (places_fold_rows _ _ _ _ _ _ _ Hmp) as (Hv1 & new & Hp1 & _ & Hchar).
  destruct (visits_fold_rows _ _ _ _ _ _ Hmv) as (Hp2 & Hv2).
  destruct (select_place_by_url_is_Some _ _ HU) as [existing_id Hsel].
  exists zen', mapping, existing_id. split; [done |]. split; [| split; [done |]; split].
  - rewrite Hp2, Hp1. unfold rows_of_url at 1. rewrite filter_app.
    fold (rows_of_url U (moz_places zen)). fold (rows_of_url U new).
    rewrite (rows_of_url_absent U new), app_nil_r; [done |].
    intros Hin. apply Hchar in Hin as [_ Hnin]. done.
  - intros place Hplace Hurl.
    rewrite (places_fold_existing _ _ _ _ _ _ _ Hmp Hnd place Hplace); [| by rewrite Hurl].
    by rewrite Hurl.
  - by rewrite Hv2, Hv1.
Qed.

Lemma attempt_inv {St A} (m : M St A) s r s' :
  attempt m s = (Ok r, s') -> m s = (r, s').
Proof. unfold attempt. destruct (m s). congruence. Qed.

Lemma import_failed_not_true cb e w b w' :
  import_failed cb e w = (Ok b, w') -> b = false.
Proof.
  unfold import_failed. intros H.
  apply bind_ok_inv in H as ([] & w1 & _ & H).
  apply bind_ok_inv in H as ([] & w2 & _ & H).
  unfold ret in H. congruence.
Qed.

(** [import_history] returns [True] for a window that is not empty only
    after staging it and merging it. *)
Lemma import_history_ok_inv imp item items profile cb w w' :
  import_history imp (item :: items) (Some profile) cb w = (Ok true, w') ->
  temp_db_path imp <> places_db_path_of profile ->
  exists w1 w2 w3 w4,
    same_files w w1 /\
    save_to_sqlite imp (item :: items) w1 = (Ok (temp_db_path imp), w2) /\
    same_files w2 w3 /\
    _import_history_via_database imp (temp_db_path imp) profile cb w3 = (Ok true, w4) /\
    untouched (places_db_path_of profile) w4 w'.
Proof.
  unfold import_history. intros H Htp.
  apply bind_ok_inv in H as (found & w0 & H0 & H).
  unfold ret in H0. injection H0 as <- <-.
  apply bind_ok_inv in H as ([] & w1 & H1 & H).
  assert (same_files w w1) as Hs1 by (eapply run_moves; [| exact H1]; moves).
  destruct (zen_browser_running imp).
  { apply bind_ok_inv in H as ([] & wa & _ & H).
    apply bind_ok_inv in H as ([] & wb & _ & H). unfold ret in H. congruence. }
  apply bind_ok_inv in H as (staged_path & w2 & H2 & H).
  apply attempt_inv in H2.
  destruct staged_path as [path | e]; cycle 1.
  { apply import_failed_not_true in H. discriminate. }
  apply bind_ok_inv in H2 as ([] & w1' & H1' & H2).
  assert (same_files w1 w1') as Hs1' by (eapply run_moves; [| exact H1']; moves).
  pose proof (save_to_sqlite_ok_inv _ _ _ _ _ H2) as (-> & _).
  apply try_finally_ok_inv in H as (w4 & H & Hfin).
  apply try_except_ok_inv in H as [H | (e & wx & _ & H)]; cycle 1.
  { apply import_failed_not_true in H. discriminate. }
  apply bind_ok_inv in H as ([] & w3 & H3 & H).
  assert (same_files w2 w3) as Hs3 by (eapply run_moves; [| exact H3]; moves).
  exists w1', w2, w3, w4. split; [by etransitivity |]. split; [done |].
  split; [done |]. split; [done |].
  eapply run_moves; [| exact Hfin]. by apply cleanup_temp_untouched.
Qed.

(** C3.  When [import_history] reports success for a window none of
    whose URLs the destination holds, staged in a new file, the
    destination has gained one place row per distinct URL of the window
    (although one place row per item was staged) and one visit row per
    item. *)
Theorem merge_row_counts imp items profile cb w w' zen :
  import_history imp items (Some profile) cb w = (Ok true, w') ->
  places_db_path_of profile <> places_db_path_backup imp ->
  temp_db_path imp <> places_db_path_backup imp ->
  temp_db_path imp <> places_db_path_of profile ->
  fs w !! places_db_path_of profile = Some (SqliteFile zen) ->
  fs w !! temp_db_path imp = None ->
  (forall item, item ∈ items -> hi_url item ∉ map place_url (moz_places zen)) ->
  exists zen',
    fs w' !! places_db_path_of profile = Some (SqliteFile zen') /\
    length (moz_places zen') = (length (moz_places zen) + distinct_urls items)%nat /\
    length (moz_historyvisits zen') = (length (moz_historyvisits zen) + length items)%nat.
Proof.
  intros H Hpb Htb Htp Hzen Hfresh Hnew.
  destruct items as [| item items].
  { unfold import_history, bind, logger, modify, ret in H. injection H as <-.
    assert (distinct_urls [] = 0%nat) as ->
      by (unfold distinct_urls; apply (size_empty (C := gset string))).
    exists zen. simpl. split; [done |]. lia. }
  apply import_history_ok_inv in H
    as (w1 & w2 & w3 & w4 & [He1 Hf1] & Hsave & [He3 Hf3] & Himp & [He5 Hf5]); [| done].
  apply save_to_sqlite_ok_inv in Hsave as (_ & He2 & db0 & db & Hdb0 & Hstage & Hf2).
  rewrite Hf1 in Hdb0. rewrite (Hdb0 Hfresh) in Hstage.
  apply import_via_database_ok_inv in Himp
    as (zen0 & temp0 & [zen1 mapping] & zen' & Hzen0 & Htemp0 & Hmp & Hmv & Hout & _);
    [| done | done].
  rewrite Hf3, Hf2 in Hzen0, Htemp0.
  rewrite !lookup_insert_ne, Hf1, Hzen in Hzen0 by done. injection Hzen0 as <-.
  rewrite lookup_insert_eq in Htemp0. injection Htemp0 as <-.
  apply stage_fold_rows in Hstage as (places & visits & Hp & Hv & Hurls & Hpids & _).
  simpl in Hp, Hv.
  unfold merged_places in Hmp. unfold merged_visits in Hmv. simpl in Hmv.
  destruct (places_fold_rows _ _ _ _ _ _ _ Hmp) as (Hv1 & new & Hp1 & Hnd & Hchar).
  destruct (visits_fold_rows _ _ _ _ _ _ Hmv) as (Hp2 & Hv2).
  exists zen'. split; [by rewrite Hf5 |]. split.
  - rewrite Hp2, Hp1, length_app. f_equal.
    unfold distinct_urls. rewrite <- (length_map place_url new).
    rewrite <- (size_list_to_set (C := gset string)) by done.
    f_equal. apply set_eq. intros url.
    rewrite !elem_of_list_to_set, Hchar, Hp, Hurls. split; [tauto |].
    intros Hin. split; [done |].
    apply list_elem_of_fmap in Hin as (it & -> & Hit). by apply Hnew.
  - rewrite Hv2, Hv1, length_app. f_equal.
    rewrite remapped_visits_length.
    + rewrite Hv. rewrite <- (length_map visit_place_id visits), Hpids, length_map.
      rewrite <- (length_map place_url places), Hurls, length_map. done.
    + intros visit Hvisit.
      eapply (places_fold_dom _ _ _ _ _ _ _ Hmp).
      rewrite Hp, <- Hpids, <- Hv. apply list_elem_of_fmap. eauto.
Qed.

End merge_outcome.

(** ** Rollback *)

Section rollback.
Import History.







End rollback.

(** ** The properties at work *)

Section examples.
Import History Examples.



(** The scenario of the design document: two visits of https://a.test
    merged into a destination that holds it as place 7 give no new place
    row and two visit rows that refer to place 7. *)
Lemma merge_deduplicates_by_url_witness :
  _import_history_via_database importer temp_path profile attached calm_world_a
    = (Ok true, calm_end_a) /\
  exists zen' place_id_mapping existing_id,
    fs calm_end_a !! places_path = Some (SqliteFile zen') /\
    rows_of_url "https://a.test" (moz_places zen')
      = rows_of_url "https://a.test" (moz_places destination) /\
    select_place_by_url "https://a.test" destination = Some existing_id /\
    (forall place, place ∈ moz_places (staged_or_empty window_a) ->
       place_url place = "https://a.test"%string ->
       place_id_mapping !! place_id place = Some existing_id) /\
    moz_historyvisits zen' =
      moz_historyvisits destination
      ++ remapped_visits (max_visit_id_of destination) place_id_mapping 0
           (moz_historyvisits (staged_or_empty window_a)).
Proof.
  split; [vm_compute; reflexivity |].
  apply (merge_deduplicates_by_url importer temp_path profile attached calm_world_a
           calm_end_a destination (staged_or_empty window_a) "https://a.test").
  - vm_compute. reflexivity.
  - vm_compute. discriminate.
  - vm_compute. discriminate.
  - vm_compute. reflexivity.
  - vm_compute. reflexivity.
  - vm_compute. repeat constructor; set_solver.
  - vm_compute. set_solver.
Defined.

(** The scenario in numbers. *)
Example scenario_a_test :
  exists zen',
    fs calm_end_a !! places_path = Some (SqliteFile zen') /\
    moz_places zen' = moz_places destination /\
    map visit_place_id (moz_historyvisits zen') = [7; 7; 7] /\
    map visit_date (moz_historyvisits zen') = [5; 100; 200].
Proof. eexists. split; [vm_compute; reflexivity |]. by vm_compute. Qed.

(** Three visits of two new URLs: two more places, three more visits. *)
Lemma merge_row_counts_witness :
  import_history importer window_new (Some profile) attached calm_world
    = (Ok true, calm_end_new) /\
  distinct_urls window_new = 2%nat /\
  exists zen',
    fs calm_end_new !! places_db_path_of profile = Some (SqliteFile zen') /\
    length (moz_places zen')
      = (length (moz_places destination) + distinct_urls window_new)%nat /\
    length (moz_historyvisits zen')
      = (length (moz_historyvisits destination) + length window_new)%nat.
Proof.
  split; [vm_compute; reflexivity |]. split; [vm_compute; reflexivity |].
  apply (merge_row_counts importer window_new profile attached calm_world
           calm_end_new destination).
  - vm_compute. reflexivity.
  - vm_compute. discriminate.
  - vm_compute. discriminate.
  - vm_compute. discriminate.
  - vm_compute. reflexivity.
  - vm_compute. reflexivity.
  - intros item Hitem. vm_compute in Hitem. vm_compute.
    intros Hin. apply elem_of_cons in Hin as [Hin | Hin]; [| by apply elem_of_nil in Hin].
    repeat (apply elem_of_cons in Hitem as [-> | Hitem]; [discriminate |]).
    by apply elem_of_nil in Hitem.
Defined.

(** One login of three fails to decrypt: two credentials, one warning. *)
Lemma one_undecryptable_row_is_skipped_witness :
  exists creds w',
    Passwords.decrypt_logins Passwords.toy_services attached [] logins calm_world
      = (Ok creds, w') /\
    length creds = (length logins - 1)%nat /\
    creds = omap (credential_of Passwords.toy_services [])
              (take 1 logins ++ drop 2 logins) /\
    log w' = log calm_world ++
      [(WARNING, "Failed to decrypt password for https://b.test: InvalidTag")].
Proof.
  apply (one_undecryptable_row_is_skipped Passwords.toy_services attached [] logins 1
           (Passwords.login "https://b.test" Passwords.blob_truncated)
           (DecryptionError "InvalidTag") calm_world).
  - split; [reflexivity |]. intros c [= <-]. reflexivity.
  - reflexivity.
  - eexists. split; [reflexivity |]. split; [discriminate | vm_compute; reflexivity].
  - intros j row Hj Hne.
    destruct j as [| [| [| j]]]; simpl in Hj; try discriminate; try done;
      injection Hj as <-; eexists _, _;
      (split; [reflexivity |]; split; [discriminate | vm_compute; reflexivity]).
Defined.

End examples.

(** ** The pipeline *)

Section pipeline.
Import Pipeline.

(** A block never raises, and records [True] exactly when its sequence
    returned [True]. *)
Lemma sync_type_spec {A} (b : TypeBlock A) cb total results cs w :
  exists cs' w',
    sync_type true b cb total (results, cs) w
      = (Ok (<[key b := match (type_sequence b cb total cs w).1 with
                         | Ok true => true
                         | _ => false
                         end]> results, cs'), w').
Proof.
  unfold sync_type. change (negb true) with false. cbv iota.
  destruct (extract_step b cb total cs w) as [[items | e] w1] eqn:He.
  - destruct (import_step b cb total (cs + 1) items w1) as [[result | e] w2] eqn:Hi.
    + assert (type_sequence b cb total cs w = (Ok result, w2)) as ->
        by (unfold type_sequence; by erewrite run_bind_ok by exact He).
      eexists _, _. erewrite run_bind_ok by (apply run_attempt; exact He).
      cbv beta iota. erewrite run_bind_ok by (apply run_attempt; exact Hi).
      cbv beta iota. unfold bind, logger, modify, ret. simpl.
      replace (if result then true else false) with result by (by destruct result).
      reflexivity.
    + assert (type_sequence b cb total cs w = (Raise e, w2)) as ->
        by (unfold type_sequence; by erewrite run_bind_ok by exact He).
      eexists _, _. erewrite run_bind_ok by (apply run_attempt; exact He).
      cbv beta iota. erewrite run_bind_ok by (apply run_attempt; exact Hi).
      cbv beta iota.
      unfold type_failed, log_exception, bind, logger, modify, ret. reflexivity.
  - assert (type_sequence b cb total cs w = (Raise e, w1)) as ->
      by (unfold type_sequence; by erewrite run_bind_raise by exact He).
    eexists _, _. erewrite run_bind_ok by (apply run_attempt; exact He).
    cbv beta iota.
    unfold type_failed, log_exception, bind, logger, modify, ret. reflexivity.
Qed.

Lemma sync_type_disabled {A} (b : TypeBlock A) cb total st w :
  sync_type false b cb total st w = (Ok st, w).
Proof. unfold sync_type. by destruct st. Qed.

(** The block of a data type, in terms of its sequence. *)
Lemma block_of_spec t c p cb results cs w :
  exists cs' w',
    block_of t c p cb (results, cs) w
      = (Ok (if selected c t
             then <[type_key t := match (sequence_of t c p cb cs w).1 with
                                  | Ok true => true
                                  | _ => false
                                  end]> results
             else results, cs'), w').
Proof.
  destruct t; cbn [block_of selected type_key sequence_of].
  - destruct (sync_passwords c);
      [apply (sync_type_spec (passwords_block c p))
      | rewrite sync_type_disabled; by eexists _, _].
  - destruct (sync_bookmarks c);
      [apply (sync_type_spec (bookmarks_block c p))
      | rewrite sync_type_disabled; by eexists _, _].
  - destruct (sync_history c);
      [apply (sync_type_spec (history_block c p))
      | rewrite sync_type_disabled; by eexists _, _].
Qed.

Lemma any_values_insert_true k (m : gmap string bool) :
  any_values (<[k := true]> m) = true.
Proof.
  apply bool_decide_eq_true_2. exists k, true. by rewrite lookup_insert_eq.
Qed.

Lemma any_values_insert_false k (m : gmap string bool) :
  m !! k = Some false -> any_values (<[k := false]> m) = any_values m.
Proof. intros Hk. by rewrite insert_id. Qed.

Lemma any_values_insert k b (m : gmap string bool) :
  m !! k = Some false -> any_values (<[k := b]> m) = b || any_values m.
Proof.
  intros Hk. destruct b; [apply any_values_insert_true | by apply any_values_insert_false].
Qed.

Lemma any_values_initial : any_values initial_results = false.
Proof. by vm_compute. Qed.

Lemma returned_true {A : Type} (r : Exc bool * A) :
  match r.1 with Ok true => true | _ => false end = true <-> exists a, r = (Ok true, a).
Proof.
  destruct r as [[[|] | e] a]; simpl; split; try done; eauto; by intros [? [=]].
Qed.

Lemma any_values_three b1 b2 b3 :
  any_values (<["history" := b3]> (<["bookmarks" := b2]>
                (<["passwords" := b1]> initial_results)))
  = b1 || b2 || b3.
Proof. destruct b1, b2, b3; by vm_compute. Qed.

(** The three blocks never raise; the results hold [True] for a key
    exactly when that data type succeeded. *)
Lemma synchronize_types_spec c p cb w :
  exists results cs w',
    synchronize_types c p cb w = (Ok (results, cs), w') /\
    (any_values results = true <-> exists t, type_succeeded t c p cb w).
Proof.
  unfold synchronize_types.
  destruct (block_of_spec passwords c p cb initial_results 0 w) as (cs1 & w1 & H1).
  set (v1 := match (sequence_of passwords c p cb 0 w).1 with
             | Ok true => true | _ => false end) in *.
  set (r1 := if selected c passwords then <[type_key passwords := v1]> initial_results
             else initial_results) in *.
  destruct (block_of_spec bookmarks c p cb r1 cs1 w1) as (cs2 & w2 & H2).
  set (v2 := match (sequence_of bookmarks c p cb cs1 w1).1 with
             | Ok true => true | _ => false end) in *.
  set (r2 := if selected c bookmarks then <[type_key bookmarks := v2]> r1 else r1) in *.
  destruct (block_of_spec history c p cb r2 cs2 w2) as (cs3 & w3 & H3).
  set (v3 := match (sequence_of history c p cb cs2 w2).1 with
             | Ok true => true | _ => false end) in *.
  set (r3 := if selected c history then <[type_key history := v3]> r2 else r2) in *.
  cbn [block_of] in H1, H2, H3.
  exists r3, cs3, w3. split.
  { erewrite run_bind_ok by exact H1. erewrite run_bind_ok by exact H2. exact H3. }
  assert (r3 = <["history" := selected c history && v3]>
                 (<["bookmarks" := selected c bookmarks && v2]>
                    (<["passwords" := selected c passwords && v1]> initial_results)))
    as ->.
  { subst r3 r2 r1. cbn [type_key].
    destruct (selected c passwords), (selected c bookmarks), (selected c history);
      cbn [andb]; apply map_eq; intros k;
      repeat (rewrite lookup_insert; case_decide; subst; try done). }
  rewrite any_values_three.
  assert (entry_of bookmarks c p cb w = ((r1, cs1), w1)) as Hb.
  { cbn [entry_of]. unfold after_block. cbn [block_of fst snd]. by rewrite H1. }
  assert (entry_of history c p cb w = ((r2, cs2), w2)) as Hh.
  { cbn [entry_of] in *. rewrite Hb. unfold after_block. cbn [block_of fst snd].
    by rewrite H2. }
  rewrite !orb_true_iff, !andb_true_iff. subst v1 v2 v3. rewrite !returned_true.
  unfold type_succeeded. split.
  - intros [[[Hs Hv] | [Hs Hv]] | [Hs Hv]].
    + exists passwords. split; [done |]. exact Hv.
    + exists bookmarks. split; [done |]. rewrite Hb. exact Hv.
    + exists history. split; [done |]. rewrite Hh. exact Hv.
  - intros [[| |] [Hs Hv]].
    + left. left. split; [done |]. exact Hv.
    + left. right. split; [done |]. rewrite Hb in Hv. exact Hv.
    + right. split; [done |]. rewrite Hh in Hv. exact Hv.
Qed.

(** A callback that raised raises again later: the cancellation flag
    stays set, and a closure that divides by zero keeps doing so. *)
Lemma call_raises_again cb : forall current1 current2 total message1 message2 w1 w2 e1,
  (call cb current1 total message1 w1).1 = Raise e1 ->
  env w2 = env w1 -> (length (reports w1) <= length (reports w2))%nat ->
  exists e2, (call cb current2 total message2 w2).1 = Raise e2.
Proof.
  induction cb as [| cs ts | outer cs ts IH] using Callback_induction;
    intros current1 current2 total message1 message2 w1 w2 e1 H He Hlen.
  - unfold call, bind, modify, gets, cancelled in *. simpl in *. rewrite He.
    destruct (cancel_at (env w1)) as [k |]; [| discriminate].
    rewrite length_app in *. simpl in *.
    destruct (bool_decide (k <= length (reports w1) + 1)%nat) eqn:Hk; [| discriminate].
    apply bool_decide_eq_true_1 in Hk.
    rewrite bool_decide_eq_true_2 by lia. simpl. eauto.
  - discriminate.
  - simpl in *. destruct (_ || _); [simpl; eauto |]. eapply IH; eauto.
Qed.

Lemma report_raises_again cb current1 current2 total message1 message2 w1 w2 e1 :
  (report cb current1 total message1 w1).1 = Raise e1 ->
  env w2 = env w1 -> (length (reports w1) <= length (reports w2))%nat ->
  exists e2, (report cb current2 total message2 w2).1 = Raise e2.
Proof.
  destruct cb as [cb |]; simpl; [apply call_raises_again | discriminate].
Qed.

Lemma reporting_length w w' :
  reporting w w' -> (length (reports w) <= length (reports w'))%nat.
Proof. intros [_ Hp]. by apply prefix_length. Qed.

Lemma report_reporting cb current total message :
  moves_within reporting (report cb current total message).
Proof. apply moves_report; [apply _ | apply reporting_add_report]. Qed.

(** [detect_profile] raises only what a progress report raised. *)
Lemma detect_profile_raise_inv c cb w e w' :
  detect_profile c cb w = (Raise e, w') ->
  exists current message wr,
    report cb current 100 message wr = (Raise e, w') /\ reporting w wr.
Proof.
  unfold detect_profile, try_except. intros H.
  match type of H with
  | match ?m w with _ => _ end = _ => destruct (m w) as [[a | e0] w1] eqn:Hbody
  end; [discriminate |].
  assert (reporting w w1) as Hr1.
  { eapply run_moves; [| exact Hbody].
    pose proof report_reporting. pose proof reporting_add_log. moves. }
  apply bind_raise_inv in H as [H | ([] & w2 & H2 & H)]; [discriminate |].
  unfold logger, modify in H2. injection H2 as <-.
  apply bind_raise_inv in H as [H | ([] & w3 & _ & H)]; [| discriminate].
  eexists _, _, _. split; [exact H |].
  etransitivity; [exact Hr1 | apply reporting_add_log].
Qed.

(** Once a report has raised, the handler of [synchronize_all] raises as
    well: its own report meets the same refusal. *)
Lemma failure_handler_raises cb current message wr e0 e s b w' :
  (report cb current 100 message wr).1 = Raise e0 ->
  reporting wr s ->
  (log_exception e ;;;
   logger ERROR ("Synchronization failed: " +:+ str_exn e) ;;;
   report cb 0 100 ("Synchronization failed: " +:+ str_exn e) ;;;
   ret false) s <> (Ok b, w').
Proof.
  intros Hraise [Hes Hps] H.
  apply bind_ok_inv in H as ([] & s1 & H1 & H).
  unfold log_exception, logger, modify in H1. injection H1 as <-.
  apply bind_ok_inv in H as ([] & s2 & H2 & H).
  unfold logger, modify in H2. injection H2 as <-.
  apply bind_ok_inv in H as ([] & s3 & H3 & _).
  edestruct (report_raises_again cb current 0 100 message
               ("Synchronization failed: " +:+ str_exn e) wr) as [e2 He2];
    [exact Hraise | | | rewrite H3 in He2; discriminate].
  - simpl. exact Hes.
  - simpl. by apply prefix_length.
Qed.

(** What [synchronize_all] returns, when it returns. *)
Lemma synchronize_all_returns c cb w b w' :
  synchronize_all c cb false w = (Ok b, w') ->
  (b = true <-> some_type_succeeded c cb w).
Proof.
  unfold synchronize_all, some_type_succeeded, types_start. intros H.
  apply bind_ok_inv in H as ([] & w0 & H0 & H).
  unfold logger, modify in H0. injection H0 as <-.
  destruct (authentication_required c && negb (token_valid c)).
  { assert (b = false) as ->.
    { apply try_except_ok_inv in H as [H | (e & w1 & _ & H)].
      - apply bind_ok_inv in H as ([] & w1 & _ & H).
        apply bind_ok_inv in H as ([] & w2 & _ & H). unfold ret in H. congruence.
      - apply bind_ok_inv in H as ([] & w2 & _ & H).
        apply bind_ok_inv in H as ([] & w3 & _ & H).
        apply bind_ok_inv in H as ([] & w4 & _ & H). unfold ret in H. congruence. }
    split; [done |]. by intros (? & ? & ? & ? & ?). }
  destruct (detect_profile c cb (add_log (INFO, "Starting full synchronization") w))
    as [[[p |] | e] w1] eqn:Hdet.
  - (* a profile was found *)
    destruct (synchronize_types_spec c p cb w1) as (results & cs & w2 & Hty & Hany).
    unfold try_except in H.
    erewrite run_bind_ok in H by exact Hdet. cbv beta iota in H.
    erewrite run_bind_ok in H by exact Hty. cbn [fst] in H.
    unfold conclude in H.
    set (msg := ("Synchronization " +:+ _)%string) in H.
    destruct (report cb 100 100 msg w2) as [[[] | e] w3] eqn:Hrep.
    + erewrite run_bind_ok in H by exact Hrep.
      unfold bind, logger, modify, ret in H. injection H as <- <-.
      rewrite Hany. split.
      * intros [t Ht]. by exists p, w1, t.
      * intros (p' & w1' & t & [= <- <-] & Ht). by exists t.
    + (* the last report raised: the handler's report raises as well *)
      erewrite run_bind_raise in H by exact Hrep.
      exfalso. eapply (failure_handler_raises cb 100 msg w2); [| | exact H].
      * by rewrite Hrep.
      * pose proof (report_reporting cb 100 100 msg w2) as Hr. by rewrite Hrep in Hr.
  - (* no profile *)
    assert (b = false) as ->.
    { unfold try_except in H. erewrite run_bind_ok in H by exact Hdet.
      unfold ret in H. congruence. }
    split; [done |]. by intros (? & ? & ? & ? & ?).
  - (* the detection raised what a report raised *)
    exfalso. unfold try_except in H. erewrite run_bind_raise in H by exact Hdet.
    apply detect_profile_raise_inv in Hdet as (current & message & wr & Hrep & _).
    eapply (failure_handler_raises cb current message wr); [| | exact H].
    + by rewrite Hrep.
    + pose proof (report_reporting cb current 100 message wr) as Hr.
      by rewrite Hrep in Hr.
Qed.

(** ** What the pipeline leaves alone *)

(** Nothing in the pipeline changes the environment or takes back a
    progress report. *)
Lemma import_history_reporting imp items profile cb :
  moves_within reporting (History.import_history imp items profile cb).
Proof.
  unfold History.import_history, History.import_failed, History.cleanup_temp,
    History._import_history_via_database, History.merge_failed, History.restore_backup,
    History.discard_backup, History.remove_temp, History.merge_and_report, History.merge,
    History.save_to_sqlite, History.import_place, History.import_visit,
    History.save_item, History.report_item,
    sqlite3_connect, sqlite3_connect_create, commit, execute,
    Security.secure_delete_file, Security.overwrite_and_remove,
    Security.overwrite_round, Security.overwrite, os_path_exists, os_path_getsize,
    os_remove, shutil_copy2, open_wb, f_write_flush, os_fsync, os_urandom.
  moves.
Qed.

Lemma sync_type_reporting {A} enabled (b : TypeBlock A) cb total st :
  (forall cb' cs ts msg, moves_within reporting (first_report b cb' cs ts msg)) ->
  (forall cb', moves_within reporting (extract b cb')) ->
  (forall items cb', moves_within reporting (import b items cb')) ->
  moves_within reporting (sync_type enabled b cb total st).
Proof.
  intros Hf He Hi. unfold sync_type, extract_step, import_step, type_failed,
    log_exception, report_step.
  destruct st as [results cs]. moves.
Qed.

Lemma block_of_reporting t c p cb st :
  moves_within reporting (block_of t c p cb st).
Proof.
  pose proof import_history_reporting.
  destruct t; cbn [block_of]; apply sync_type_reporting; cbn;
    unfold report_step, import_bookmarks; moves.
Qed.

Lemma steady_reporting cb w w' : steady cb w -> reporting w w' -> steady cb w'.
Proof. intros [Hc Hcb] [He _]. split; [by rewrite He | done]. Qed.

Lemma detect_profile_reporting c cb : moves_within reporting (detect_profile c cb).
Proof. unfold detect_profile. moves. Qed.

Lemma synchronize_types_reporting c p cb :
  moves_within reporting (synchronize_types c p cb).
Proof.
  unfold synchronize_types.
  pose proof (block_of_reporting passwords c p cb) as H1.
  pose proof (block_of_reporting bookmarks c p cb) as H2.
  pose proof (block_of_reporting history c p cb) as H3.
  cbn [block_of] in *. moves.
Qed.

Lemma after_block_reporting t c p cb st : reporting st.2 (after_block t c p cb st).2.
Proof.
  unfold after_block.
  pose proof (block_of_reporting t c p cb st.1 st.2) as H.
  by destruct (block_of t c p cb st.1 st.2) as [[st' | e] w'].
Qed.

Lemma entry_of_reporting t c p cb w : reporting w (entry_of t c p cb w).2.
Proof.
  destruct t; cbn [entry_of].
  - reflexivity.
  - apply (after_block_reporting passwords c p cb (_, w)).
  - etransitivity; [| apply after_block_reporting].
    apply (after_block_reporting passwords c p cb (_, w)).
Qed.

Lemma extracts_nothing_reporting t c p cb cs w w1 :
  extracts_nothing t c p cb cs w w1 -> reporting w w1.
Proof.
  destruct t; cbn [extracts_nothing]; [done | |]; intros H;
    (eapply run_moves; [| exact H]); unfold extract_step; cbn; unfold report_step; moves.
Qed.

Lemma types_start_reporting c cb w p w0 :
  types_start c cb w = Some (p, w0) -> reporting w w0.
Proof.
  unfold types_start. destruct (_ && _); [done |].
  destruct (detect_profile c cb _) as [[[p' |] | e] w1] eqn:H; try done.
  intros [= <- <-]. etransitivity; [apply reporting_add_log |].
  eapply run_moves; [apply detect_profile_reporting | exact H].
Qed.

(** While the user does not cancel, [synchronize_all] returns. *)
Lemma synchronize_all_total c cb w :
  steady cb w -> exists b w', synchronize_all c cb false w = (Ok b, w').
Proof.
  intros Hs. unfold synchronize_all.
  set (w0 := add_log (INFO, "Starting full synchronization"%string) w).
  assert (steady cb w0) as Hs0 by done.
  erewrite run_bind_ok by (unfold logger, modify; reflexivity). 
  destruct (authentication_required c && negb (token_valid c)).
  { destruct (report_steady cb 0 100 "Authentication required for password synchronization"
                (add_log (WARNING, "Authentication required for password synchronization"%string) w0))
      as (w1 & H1 & _); [done | done |].
    eexists _, _. erewrite run_try_except_ok; [reflexivity |].
    erewrite run_bind_ok by (unfold logger, modify; reflexivity).
    erewrite run_bind_ok by exact H1. reflexivity. }
  destruct (detect_profile c cb w0) as [[[p |] | e] w1] eqn:Hdet.
  - assert (steady cb w1) as Hs1.
    { eapply steady_reporting; [exact Hs0 |].
      eapply run_moves; [apply detect_profile_reporting | exact Hdet]. }
    destruct (synchronize_types_spec c p cb w1) as (results & cs & w2 & Hty & _).
    assert (steady cb w2) as Hs2.
    { eapply steady_reporting; [exact Hs1 |].
      eapply run_moves; [apply synchronize_types_reporting | exact Hty]. }
    destruct (report_steady cb 100 100
                ("Synchronization " +:+
                 (if any_values results then "completed successfully"
                  else "completed with errors")) w2)
      as (w3 & H3 & _); [done | done |].
    eexists _, _. erewrite run_try_except_ok; [reflexivity |].
    erewrite run_bind_ok by exact Hdet. cbv beta iota.
    erewrite run_bind_ok by exact Hty. cbn [fst]. unfold conclude.
    erewrite run_bind_ok by exact H3.
    unfold bind, logger, modify, ret. reflexivity.
  - eexists _, _. erewrite run_try_except_ok; [reflexivity |].
    erewrite run_bind_ok by exact Hdet. reflexivity.
  - (* the detection raises only what a report raised *)
    exfalso. apply detect_profile_raise_inv in Hdet as (current & message & wr & Hrep & Hr).
    destruct (report_steady cb current 100 message wr) as (w' & H' & _);
      [by eapply steady_reporting | done |].
    rewrite H' in Hrep. discriminate.
Qed.

(** C4.  While the user does not cancel, [synchronize_all] returns; and
    whenever it returns, it returns [True] if and only if at least one
    selected data type's extract-and-import sequence returned [True]:
    that other selected types failed or raised does not matter. *)
Theorem overall_success_iff_some_type_succeeded c cb w :
  (steady cb w -> exists b w', synchronize_all c cb false w = (Ok b, w')) /\
  (forall b w',
     synchronize_all c cb false w = (Ok b, w') ->
     (b = true <-> some_type_succeeded c cb w)).
Proof.
  split; [apply synchronize_all_total |].
  intros b w'. apply synchronize_all_returns.
Qed.

(** ** Cancellation *)

Lemma total_steps_selected c t : selected c t = true -> total_steps_of c <> 0.
Proof.
  unfold total_steps_of. intros Hs.
  destruct t; cbn [selected] in Hs; rewrite Hs; unfold Z_of_bool;
    repeat match goal with |- context [if ?b then _ else _] => destruct b end; lia.
Qed.

(** With the cancellation pending, the worker thread's callback emits
    the report and raises. *)
Lemma report_cancel_pending current total message w :
  cancel_pending w ->
  report (Some SyncThread_progress_callback) current total message w
    = (Raise CancelledByUser, add_report (current, total, message) w).
Proof.
  intros (k & Hk & Hle). unfold report, call, bind, modify, gets, cancelled. simpl.
  rewrite Hk, length_app. simpl. by rewrite bool_decide_eq_true_2 by lia.
Qed.

Lemma cancel_pending_reporting w w' :
  cancel_pending w -> reporting w w' -> cancel_pending w'.
Proof.
  intros (k & Hk & Hle) [He Hp]. exists k. rewrite He. split; [done |].
  apply prefix_length in Hp. lia.
Qed.

Lemma cancelled_pending w : cancelled w = true -> cancel_pending w.
Proof.
  unfold cancelled. intros H. destruct (cancel_at (env w)) as [k |] eqn:Hk; [| done].
  apply bool_decide_eq_true_1 in H. exists k. split; [done | lia].
Qed.

(** A block entered with the cancellation pending: its first report
    raises, the handler records [False]. *)
Lemma sync_type_cancel_pending {A} (b : TypeBlock A) total results cs w current :
  cancel_pending w ->
  (forall w0, cancel_pending w0 ->
     first_report b (Some SyncThread_progress_callback) cs total (extracting b) w0
       = (Raise CancelledByUser, add_report (current, 100, extracting b) w0)) ->
  exists w',
    sync_type true b (Some SyncThread_progress_callback) total (results, cs) w
      = (Ok (<[key b := false]> results, cs + 2), w') /\
    reports w' = reports w ++ [(current, 100, extracting b)] /\
    log w' = log w ++
      [(INFO, extracting b);
       (ERROR, "Exception: Exception: Synchronization cancelled by user"%string);
       (ERROR, title b +:+ " synchronization failed: Synchronization cancelled by user")] /\
    cancel_pending w'.
Proof.
  intros Hc Hfirst. unfold sync_type. change (negb true) with false. cbv iota.
  assert (cancel_pending (add_log (INFO, extracting b) w)) as Hc1.
  { eapply cancel_pending_reporting; [exact Hc | apply reporting_add_log]. }
  specialize (Hfirst _ Hc1).
  eexists. split; [| split; [| split]].
  - erewrite run_bind_ok.
    2:{ apply run_attempt. unfold extract_step.
        erewrite run_bind_ok by (unfold logger, modify; reflexivity).
        erewrite run_bind_raise by exact Hfirst. reflexivity. }
    cbv beta iota. unfold type_failed, log_exception, bind, logger, modify, ret.
    reflexivity.
  - reflexivity.
  - simpl. by rewrite <- !app_assoc.
  - eapply cancel_pending_reporting; [exact Hc |].
    split; [done |]. simpl. by apply prefix_app_r.
Qed.

(** C5, as the code has it.  The cancellation is an ordinary exception:
    a selected data type whose sequence raises, whatever it raises, is
    caught at the type's boundary and recorded as [False], the value of
    a failed type.  The flag stays set after the block in which it was
    seen.  The pipeline goes on: every later selected data type is
    started with the worker thread's callback, logs its first line and
    emits its opening report, which raises the cancellation again; it is
    recorded as [False] too, with the log line of a failure. *)
Theorem cancellation_is_recorded_as_failure :
  (forall t c p cb results cs w e,
     selected c t = true ->
     (sequence_of t c p cb cs w).1 = Raise e ->
     exists cs' w',
       block_of t c p cb (results, cs) w
         = (Ok (<[type_key t := false]> results, cs'), w')) /\
  (forall t c p cb st w,
     cancelled w = true -> cancel_pending (block_of t c p cb st w).2) /\
  (forall t c p results cs w,
     selected c t = true ->
     cancel_pending w ->
     exists w',
       block_of t c p (Some SyncThread_progress_callback) (results, cs) w
         = (Ok (<[type_key t := false]> results, cs + 2), w') /\
       reports w' = reports w ++ [opening_report t c cs] /\
       log w' = log w ++
         [(INFO, (opening_report t c cs).2);
          (ERROR, "Exception: Exception: Synchronization cancelled by user"%string);
          failure_line t CancelledByUser] /\
       cancel_pending w').
Proof.
  split; [| split].
  - intros t c p cb results cs w e Hs He.
    destruct (block_of_spec t c p cb results cs w) as (cs' & w' & H).
    rewrite Hs, He in H. eauto.
  - intros t c p cb st w Hc.
    eapply cancel_pending_reporting; [by apply cancelled_pending |].
    apply block_of_reporting.
  - intros t c p results cs w Hs Hc.
    pose proof (total_steps_selected c t Hs) as Htot.
    destruct t; cbn [block_of selected] in *; rewrite Hs.
    + apply (sync_type_cancel_pending (passwords_block c p)); [done |].
      intros w0 Hw0. by apply report_cancel_pending.
    + apply (sync_type_cancel_pending (bookmarks_block c p)); [done |].
      intros w0 Hw0. cbn [first_report bookmarks_block]. unfold report_step.
      rewrite bool_decide_eq_false_2 by done. by apply report_cancel_pending.
    + apply (sync_type_cancel_pending (history_block c p)); [done |].
      intros w0 Hw0. cbn [first_report history_block]. unfold report_step.
      rewrite bool_decide_eq_false_2 by done. by apply report_cancel_pending.
Qed.

(** ** Empty imports *)

Lemma steady_add_log cb l w : steady cb w -> steady cb (add_log l w).
Proof. done. Qed.

Lemma report_step_steady cb current_step total message w :
  steady cb w -> total <> 0 ->
  exists w', report_step cb current_step total message w = (Ok tt, w') /\ reported w w'.
Proof.
  intros Hs Htot. unfold report_step. destruct cb as [cb |].
  - rewrite bool_decide_eq_false_2 by done. by apply report_steady.
  - exists w. split; reflexivity.
Qed.

(** The second half of a block on an empty list, when the import of an
    empty list only logs a warning. *)
Lemma import_step_nil {A} (b : TypeBlock A) cb total cs w warning :
  steady cb w -> total <> 0 ->
  (forall cb' w0, import b [] cb' w0 = (Ok true, add_log (WARNING, warning) w0)) ->
  exists w', import_step b cb total cs [] w = (Ok true, w') /\
             fs w' = fs w /\ io_count w' = io_count w /\ disk w' = disk w.
Proof.
  intros Hs Htot Himport. unfold import_step.
  set (w1 := add_log (INFO, extracted b (length (@nil A))) w).
  destruct (report_step_steady cb cs total (extracted b (length (@nil A))) w1)
    as (w2 & H2 & Hr2); [done | done |].
  set (w3 := add_log (INFO, importing b) w2).
  destruct (report_step_steady cb cs total (importing b) w3)
    as (w4 & H4 & Hr4); [by eapply steady_add_log, steady_reported | done |].
  eexists. split.
  - erewrite run_bind_ok by (unfold logger, modify; reflexivity).
    erewrite run_bind_ok by exact H2.
    erewrite run_bind_ok by (unfold logger, modify; reflexivity).
    erewrite run_bind_ok by exact H4.
    apply Himport.
  - destruct Hr2 as [rs2 ->], Hr4 as [rs4 ->]. done.
Qed.

(** C10.  [import_history] and [import_bookmarks] called with an empty
    list return [True] at once: they log one warning and leave the
    files, the disk and the count of file operations as they were.  So,
    in a run in which the user does not cancel, a selected data type
    (bookmarks or history) whose extraction returns the empty list has a
    sequence that returns [True] without a file operation after the
    extraction, it is a succeeded type, and the run returns [True]. *)
Theorem empty_import_counts_as_success :
  (forall imp profile cb w,
     History.import_history imp [] profile cb w
       = (Ok true, add_log (WARNING, "No history items to import"%string) w)) /\
  (forall c profile cb w,
     import_bookmarks c [] profile cb w
       = (Ok true, add_log (WARNING, "No bookmarks to import"%string) w)) /\
  (forall c cb w p w0 t w1,
     steady cb w ->
     types_start c cb w = Some (p, w0) ->
     selected c t = true ->
     extracts_nothing t c p cb (entry_of t c p cb w0).1.2 (entry_of t c p cb w0).2 w1 ->
     type_succeeded t c p cb w0 /\
     (exists w2,
        sequence_of t c p cb (entry_of t c p cb w0).1.2 (entry_of t c p cb w0).2
          = (Ok true, w2) /\
        fs w2 = fs w1 /\ io_count w2 = io_count w1 /\ disk w2 = disk w1) /\
     exists w', synchronize_all c cb false w = (Ok true, w')).
Proof.
  assert (forall imp profile cb w,
            History.import_history imp [] profile cb w
              = (Ok true, add_log (WARNING, "No history items to import"%string) w))
    as Hhistory by reflexivity.
  assert (forall c profile cb w,
            import_bookmarks c [] profile cb w
              = (Ok true, add_log (WARNING, "No bookmarks to import"%string) w))
    as Hbookmarks by reflexivity.
  split; [exact Hhistory |]. split; [exact Hbookmarks |].
  intros c cb w p w0 t w1 Hsteady0 Hstart Hsel Hnone.
  pose proof (total_steps_selected c t Hsel) as Htot.
  assert (steady cb w1) as Hsteady.
  { eapply steady_reporting; [exact Hsteady0 |].
    etransitivity; [by eapply types_start_reporting |].
    etransitivity; [apply (entry_of_reporting t c p cb) |].
    by eapply extracts_nothing_reporting. }
  set (entry := entry_of t c p cb w0) in *.
  assert (exists w2,
            sequence_of t c p cb entry.1.2 entry.2 = (Ok true, w2) /\
            fs w2 = fs w1 /\ io_count w2 = io_count w1 /\ disk w2 = disk w1)
    as (w2 & Hseq & Hframe).
  { destruct t; cbn [extracts_nothing sequence_of] in *; [done | |].
    - destruct (import_step_nil (bookmarks_block c p) cb (total_steps_of c)
                  (entry.1.2 + 1) w1 "No bookmarks to import")
        as (w2 & H2 & Hf); [done | done | intros; apply Hbookmarks |].
      exists w2. split; [| done]. unfold type_sequence.
      by erewrite run_bind_ok by exact Hnone.
    - destruct (import_step_nil (history_block c p) cb (total_steps_of c)
                  (entry.1.2 + 1) w1 "No history items to import")
        as (w2 & H2 & Hf); [done | done | intros; apply Hhistory |].
      exists w2. split; [| done]. unfold type_sequence.
      by erewrite run_bind_ok by exact Hnone. }
  assert (type_succeeded t c p cb w0) as Hsucc.
  { split; [done |]. by exists w2. }
  split; [exact Hsucc |]. split; [by exists w2 |].
  destruct (synchronize_all_total c cb w Hsteady0) as (b & w' & Hrun).
  assert (b = true) as ->; [| by exists w'].
  apply (synchronize_all_returns c cb w b w' Hrun). by exists p, w0, t.
Qed.

End pipeline.

(** ** The pipeline on examples *)

Section pipeline_examples.
Import Pipeline Examples.

(** The passwords cannot be read, the bookmarks are imported, the
    history is empty: the run returns [True]. *)
Lemma overall_success_iff_some_type_succeeded_witness :
  synchronize_all mixed_collaborators attached false calm_world
    = (Ok true, end_of mixed_collaborators calm_world) /\
  synchronize_types mixed_collaborators profile attached
    (start_of mixed_collaborators calm_world)
    = (Ok ({[ "passwords"%string := false; "bookmarks"%string := true;
              "history"%string := true ]}, 6),
       types_end_of mixed_collaborators calm_world) /\
  (true = true <-> some_type_succeeded mixed_collaborators attached calm_world).
Proof.
  split; [vm_compute; reflexivity |]. split; [vm_compute; reflexivity |].
  apply (proj2 (overall_success_iff_some_type_succeeded mixed_collaborators attached
                  calm_world) true (end_of mixed_collaborators calm_world)).
  vm_compute. reflexivity.
Defined.

(** C5 as the design document states it fails.  The user cancels while
    the passwords are read.  The three blocks end with [False] for every
    data type, which is what they end with when every data type fails on
    its own account; the bookmarks and the history are started after the
    cancellation and emit their opening reports; the log has the lines of
    three failed synchronizations; and the run as a whole raises. *)
Lemma cancelled_run_starts_the_later_types :
  cancelled (start_of collaborators in_flight_world) = false /\
  synchronize_types collaborators profile attached (start_of collaborators in_flight_world)
    = (Ok (initial_results, 6), types_end_of collaborators in_flight_world) /\
  (synchronize_types failing_collaborators profile attached
     (start_of failing_collaborators calm_world)).1 = Ok (initial_results, 6) /\
  reports (types_end_of collaborators in_flight_world) =
    [(5, 100, "Using Zen Browser profile: default"%string);
     (10, 100, "Extracting passwords from Chrome"%string);
     (8, 100, "Reading passwords"%string);
     (33, 100, "Extracting bookmarks from Chrome"%string);
     (66, 100, "Extracting browsing history from Chrome (last 30 days)"%string)] /\
  filter is_error (log (types_end_of collaborators in_flight_world)) =
    [(ERROR, "Exception: Exception: Synchronization cancelled by user"%string);
     (ERROR, "Password synchronization failed: Synchronization cancelled by user"%string);
     (ERROR, "Exception: Exception: Synchronization cancelled by user"%string);
     (ERROR, "Bookmark synchronization failed: Synchronization cancelled by user"%string);
     (ERROR, "Exception: Exception: Synchronization cancelled by user"%string);
     (ERROR, "History synchronization failed: Synchronization cancelled by user"%string)] /\
  synchronize_all collaborators attached false in_flight_world
    = (Raise CancelledByUser, end_of collaborators in_flight_world).
Proof.
  split; [vm_compute; reflexivity |]. split; [vm_compute; reflexivity |].
  split; [vm_compute; reflexivity |]. split; [vm_compute; reflexivity |].
  split; vm_compute; reflexivity.
Qed.

(** The same run at the block of the bookmarks: the cancellation is
    pending, the block is entered all the same and records [False]. *)
Lemma cancellation_is_recorded_as_failure_witness :
  cancel_pending after_passwords /\
  exists w',
    block_of bookmarks collaborators profile attached (initial_results, 2) after_passwords
      = (Ok (<["bookmarks" := false]> initial_results, 2 + 2), w') /\
    reports w' = reports after_passwords
                 ++ [(33, 100, "Extracting bookmarks from Chrome"%string)] /\
    log w' = log after_passwords ++
      [(INFO, "Extracting bookmarks from Chrome"%string);
       (ERROR, "Exception: Exception: Synchronization cancelled by user"%string);
       (ERROR, "Bookmark synchronization failed: Synchronization cancelled by user"%string)] /\
    cancel_pending w'.
Proof.
  assert (cancel_pending after_passwords) as Hpending.
  { exists 3%nat. split; [vm_compute; reflexivity | vm_compute; lia]. }
  split; [exact Hpending |].
  apply (proj2 (proj2 cancellation_is_recorded_as_failure)
           bookmarks collaborators profile initial_results 2 after_passwords);
    [reflexivity | exact Hpending].
Defined.

(** The undisturbed run, whose history of the last thirty days is
    empty: the history counts as a succeeded type. *)
Lemma empty_import_counts_as_success_witness :
  extracts_nothing history collaborators profile attached 4
    (entry_of history collaborators profile attached
       (start_of collaborators calm_world)).2 history_extracted /\
  type_succeeded history collaborators profile attached
    (start_of collaborators calm_world) /\
  exists w', synchronize_all collaborators attached false calm_world = (Ok true, w').
Proof.
  assert (extracts_nothing history collaborators profile attached 4
            (entry_of history collaborators profile attached
               (start_of collaborators calm_world)).2 history_extracted) as Hnone.
  { cbn [extracts_nothing]. vm_compute. reflexivity. }
  split; [exact Hnone |].
  destruct (proj2 (proj2 empty_import_counts_as_success)
              collaborators attached calm_world profile
              (start_of collaborators calm_world) history history_extracted)
    as (Hsucc & _ & Hrun).
  - split; [vm_compute; reflexivity |]. intros c [= <-]. reflexivity.
  - vm_compute. reflexivity.
  - reflexivity.
  - replace (entry_of history collaborators profile attached
               (start_of collaborators calm_world)).1.2 with 4
      by (vm_compute; reflexivity).
    exact Hnone.
  - split; [exact Hsucc | exact Hrun].
Defined.

End pipeline_examples.

(** ** Further examples *)

Section further_examples.
Import Timestamp Security Passwords Examples.

(** A visit with no time stamp is dated at the epoch. *)
Lemma datetime_clamps_witness :
  datetime_unix_timestamp (ChromeHistoryItem_init "https://a.test" "A" 0 1 0 0 false)
    = 0%Q.
Proof. apply datetime_clamps. vm_compute. reflexivity. Defined.

(** The first write fails; the plain [os.remove] takes the file away. *)
Lemma secure_delete_file_fallback_witness :
  exists w',
    secure_delete_file "artifact.tmp" default_passes write_fault_world = (Ok true, w') /\
    fs w' !! "artifact.tmp"%string = None /\
    (exists msg, (WARNING, msg) ∈ log w').
Proof.
  apply (secure_delete_file_fallback "artifact.tmp" default_passes write_fault_world
           (OSError "write") write_failed).
  - eexists. vm_compute. reflexivity.
  - vm_compute. reflexivity.
  - vm_compute. reflexivity.
Defined.


(** A v10 blob is treated as the document says. *)
Lemma decrypt_password_refines_spec_witness :
  decrypt_password toy_services [] blob_v10 = decrypt_row_spec toy_services [] blob_v10.
Proof.
  apply decrypt_password_refines_spec. intros H. vm_compute in H. discriminate.
Defined.

End further_examples.

(** * Further properties of the code *)

(** ** Secure deletion: what the result says *)

Section secure_delete_result.
Import Security.

Lemma os_remove_ok_inv p w w' :
  os_remove p w = (Ok tt, w') -> fs w' !! p = None.
Proof.
  unfold os_remove. intros H.
  apply bind_ok_inv in H as ([] & w1 & H1 & H).
  apply bind_ok_inv in H as (c & w2 & H2 & H).
  unfold gets in H2. injection H2 as <- <-.
  destruct (fs w1 !! p) as [c |]; [| discriminate].
  unfold bind, modify in H. injection H as <-. simpl. apply lookup_delete_eq.
Qed.

Lemma overwrite_and_remove_ok_inv p passes w b w' :
  overwrite_and_remove p passes w = (Ok b, w') -> b = true /\ fs w' !! p = None.
Proof.
  unfold overwrite_and_remove. intros H.
  apply bind_ok_inv in H as (n & w1 & _ & H).
  apply bind_ok_inv in H as ([] & w2 & _ & H).
  apply bind_ok_inv in H as ([] & w3 & H3 & H).
  apply os_remove_ok_inv in H3.
  unfold bind, logger, modify, ret in H. injection H as <- <-. by split.
Qed.

(** [secure_delete_file] never raises; it returns [True] only when the
    file is gone; called on a path that does not exist it returns
    [False] and does nothing but log; and it leaves every other file as
    it was. *)
Theorem secure_delete_file_true_means_gone p passes w :
  exists b w',
    secure_delete_file p passes w = (Ok b, w') /\
    (b = true -> fs w' !! p = None) /\
    (fs w !! p = None ->
       b = false /\ fs w' = fs w /\ disk w' = disk w /\ io_count w' = io_count w) /\
    (forall q, q <> p -> fs w' !! q = fs w !! q).
Proof.
  destruct (secure_delete_file p passes w) as [[b | e] w'] eqn:Hrun.
  2:{ destruct (secure_delete_file_returns p passes w) as (b & w2 & H2). congruence. }
  exists b, w'. split; [reflexivity |]. split; [| split].
  - intros ->. unfold secure_delete_file in Hrun.
    apply bind_ok_inv in Hrun as (present & w1 & H1 & Hrun).
    unfold os_path_exists, gets in H1. injection H1 as <- <-.
    destruct (negb _).
    { unfold bind, logger, modify, ret in Hrun. discriminate. }
    apply try_except_ok_inv in Hrun as [Hrun | (e & w1 & _ & Hrun)].
    + by apply overwrite_and_remove_ok_inv in Hrun as [_ ?].
    + apply bind_ok_inv in Hrun as ([] & w2 & _ & Hrun).
      apply try_except_ok_inv in Hrun as [Hrun | (e2 & w3 & _ & Hrun)].
      * apply bind_ok_inv in Hrun as ([] & w3 & H3 & Hrun).
        apply os_remove_ok_inv in H3.
        unfold bind, logger, modify, ret in Hrun. by injection Hrun as <-.
      * unfold bind, logger, modify, ret in Hrun. discriminate.
  - intros Hnone. unfold secure_delete_file in Hrun.
    erewrite run_bind_ok in Hrun
      by (unfold os_path_exists, gets; rewrite Hnone; reflexivity).
    rewrite bool_decide_eq_false_2 in Hrun by (by intros [? ?]).
    unfold bind, logger, modify, ret in Hrun. simpl in Hrun.
    by injection Hrun as <- <-.
  - intros q Hq.
    pose proof (secure_delete_file_untouched q p passes (not_eq_sym Hq) w) as [_ Hf].
    rewrite Hrun in Hf. by symmetry.
Qed.

End secure_delete_result.

(** ** Staging needs a host in every URL *)

Section staging_needs_host.
Import History.

Lemma split_on_length sep s :
  length (split_on sep s) = S (length (filter (fun c => c = sep) s)).
Proof.
  induction s as [| c s IH]; [reflexivity |].
  cbn [split_on]. destruct (Ascii.eqb_spec c sep) as [-> | Hne].
  - rewrite filter_cons_True by done. simpl. by rewrite IH.
  - rewrite filter_cons_False by done.
    destruct (split_on sep s) as [| part parts]; [discriminate |]. exact IH.
Qed.

Lemma rev_host_of_raises url :
  (slashes url < 2)%nat <-> rev_host_of url = Raise IndexError.
Proof.
  unfold rev_host_of, slashes.
  pose proof (split_on_length "/"%char (list_ascii_of_string url)) as Hlen.
  destruct (split_on "/"%char (list_ascii_of_string url) !! 2%nat) as [host |] eqn:Hl.
  - apply lookup_lt_Some in Hl. split; [lia | discriminate].
  - apply lookup_ge_None in Hl. split; [done | lia].
Qed.

Lemma stage_fold_hosts : forall items i db db' item,
  fold_enumerate stage_item i items db = Ok db' ->
  item ∈ items -> exists host, rev_host_of (hi_url item) = Ok host.
Proof.
  induction items as [| x items IH]; intros i db db' item H Hin.
  - by apply elem_of_nil in Hin.
  - cbn [fold_enumerate] in H. unfold stage_item in H at 1.
    destruct (rev_host_of (hi_url x)) as [host | e] eqn:Hx; [| discriminate].
    apply elem_of_cons in Hin as [-> | Hin]; [eauto |]. eapply IH; eauto.
Qed.

Lemma save_to_sqlite_untouched imp items q :
  temp_db_path imp <> q -> moves_within (untouched q) (save_to_sqlite imp items).
Proof.
  intros Hne. unfold save_to_sqlite, sqlite3_connect_create, commit, save_item, execute.
  moves.
Qed.

Lemma import_failed_steady cb e w :
  steady cb w -> exists w', import_failed cb e w = (Ok false, w').
Proof.
  intros Hs. unfold import_failed.
  destruct (report_steady cb 0 100 ("Failed to import history: " +:+ str_exn e)
              (add_log (ERROR, "Failed to import history: " +:+ str_exn e) w))
    as (w1 & H1 & _); [done | done |].
  eexists. erewrite run_bind_ok by (unfold logger, modify; reflexivity).
  erewrite run_bind_ok by exact H1. reflexivity.
Qed.

(** A window that holds one URL with fewer than two ['/'], such as
    about:blank, cannot be imported: [save_to_sqlite] raises
    [IndexError] on it, so [import_history] never returns [True],
    whatever the other items are, and the destination database is left
    as it was; while the user does not cancel it returns [False]. *)
Theorem url_without_host_fails_the_import imp items profile cb w bad r w' :
  bad ∈ items ->
  (slashes (hi_url bad) < 2)%nat ->
  temp_db_path imp <> places_db_path_of profile ->
  import_history imp items (Some profile) cb w = (r, w') ->
  r <> Ok true /\
  fs w' !! places_db_path_of profile = fs w !! places_db_path_of profile /\
  (steady cb w -> r = Ok false).
Proof.
  intros Hin Hbad Hne Hrun. apply rev_host_of_raises in Hbad.
  destruct items as [| item items]; [by apply elem_of_nil in Hin |].
  set (q := places_db_path_of profile) in *.
  unfold import_history in Hrun. cbv beta iota in Hrun.
  erewrite run_bind_ok in Hrun by reflexivity. cbv beta iota in Hrun.
  destruct (report cb 5 100 ("Using Zen Browser profile: " +:+ profile_name profile) w)
    as [[[] | e] w1] eqn:H1; cycle 1.
  { erewrite run_bind_raise in Hrun by exact H1. injection Hrun as <- <-.
    split; [done |]. split.
    - assert (same_files w w1) as [_ Hf] by (eapply run_moves; [| exact H1]; moves).
      by rewrite Hf.
    - intros Hs. destruct (report_steady cb 5 100
        ("Using Zen Browser profile: " +:+ profile_name profile) w) as (? & H' & _);
        [done | done | congruence]. }
  assert (same_files w w1) as [He1 Hf1] by (eapply run_moves; [| exact H1]; moves).
  assert (reported_or_same : steady cb w -> steady cb w1).
  { intros [Hc Hcb]. split; [by rewrite He1 | done]. }
  erewrite run_bind_ok in Hrun by exact H1.
  destruct (zen_browser_running imp).
  { assert (untouched q w1 w') as [_ Hf].
    { eapply run_moves; [| exact Hrun]. moves. }
    split; [| split].
    - intros ->. apply bind_ok_inv in Hrun as ([] & wa & _ & Hrun).
      apply bind_ok_inv in Hrun as ([] & wb & _ & Hrun). unfold ret in Hrun. congruence.
    - by rewrite Hf, Hf1.
    - intros Hs. apply reported_or_same in Hs.
      destruct (report_steady cb 0 100
                  "Zen Browser is running. Please close it before importing history."
                  (add_log (ERROR, "Zen Browser is running. Please close it before importing history."%string) w1))
        as (w2 & H2 & _); [done | done |].
      erewrite run_bind_ok in Hrun by (unfold logger, modify; reflexivity).
      erewrite run_bind_ok in Hrun by exact H2. unfold ret in Hrun. congruence. }
  set (staging := (report cb 10 100 "Saving history to temporary database" ;;;
                   save_to_sqlite imp (item :: items))%monad) in Hrun.
  destruct (staging w1) as [[path | e] w2] eqn:Hst.
  { (* the staging cannot return *)
    exfalso. subst staging.
    apply bind_ok_inv in Hst as ([] & wa & _ & Hst).
    apply save_to_sqlite_ok_inv in Hst as (_ & _ & db0 & db & _ & Hfold & _).
    destruct (stage_fold_hosts _ _ _ _ bad Hfold Hin) as [host Hhost]. congruence. }
  assert (untouched q w1 w2) as [He2 Hf2].
  { eapply run_moves; [| exact Hst]. subst staging.
    pose proof (save_to_sqlite_untouched imp (item :: items) q Hne). moves. }
  erewrite run_bind_ok in Hrun by (apply run_attempt; exact Hst).
  cbv beta iota in Hrun.
  assert (untouched q w2 w') as [_ Hf3].
  { eapply run_moves; [| exact Hrun]. unfold import_failed. moves. }
  split; [| split].
  - intros ->. by apply import_failed_not_true in Hrun.
  - by rewrite Hf3, Hf2, Hf1.
  - intros Hs. apply reported_or_same in Hs.
    destruct (import_failed_steady cb e w2) as [w3 H3]; [| congruence].
    destruct Hs as [Hc Hcb]. split; [by rewrite He2 | done].
Qed.

End staging_needs_host.

Section staging_examples.
Import History Examples MoreExamples.

(** about:blank after a good item: the import returns [False] and the
    destination is as before. *)
Lemma url_without_host_fails_the_import_witness :
  @Ok bool false <> Ok true /\
  fs blank_end !! places_db_path_of profile = fs calm_world !! places_db_path_of profile /\
  (steady attached calm_world -> @Ok bool false = Ok false).
Proof.
  apply (url_without_host_fails_the_import importer window_blank profile attached
           calm_world (item "about:blank" 200)).
  - set_solver.
  - vm_compute. lia.
  - vm_compute. discriminate.
  - vm_compute. reflexivity.
Defined.

End staging_examples.

(** ** Temporary files after a successful import *)

Section cleanup.
Import History.

Lemma run_env {A} (m : M World A) w r w' :
  moves_within reporting m -> m w = (r, w') -> env w' = env w.
Proof. intros Hm H. by destruct (run_moves reporting m w r w' Hm H). Qed.

Lemma remove_temp_gone imp path w w' :
  fault_free w -> remove_temp imp path w = (Ok tt, w') -> fs w' !! path = None.
Proof.
  intros Hff. unfold remove_temp. destruct (secure_delete imp).
  - intros H. apply bind_ok_inv in H as (b & w1 & H1 & H).
    unfold ret in H. injection H as <-.
    destruct (fs w !! path) as [c |] eqn:Hc.
    + destruct (secure_delete_file_fault_free path Security.default_passes c w)
        as (w2 & H2 & Hgone & _); [done | done |]. congruence.
    + unfold Security.secure_delete_file in H1.
      erewrite run_bind_ok in H1
        by (unfold os_path_exists, gets; rewrite Hc; reflexivity).
      rewrite bool_decide_eq_false_2 in H1 by (by intros [? ?]).
      unfold bind, logger, modify, ret in H1. simpl in H1. by injection H1 as _ <-.
  - apply os_remove_ok_inv.
Qed.

Lemma discard_backup_gone imp backup w w' :
  fault_free w -> discard_backup imp backup w = (Ok tt, w') -> fs w' !! backup = None.
Proof.
  intros Hff. unfold discard_backup. intros H.
  apply bind_ok_inv in H as (present & w1 & H1 & H).
  unfold os_path_exists, gets in H1. injection H1 as <- <-.
  case_bool_decide as Hp.
  - by eapply remove_temp_gone.
  - unfold ret in H. injection H as <-.
    destruct (fs w !! backup); [by destruct Hp | done].
Qed.

Lemma cleanup_temp_gone imp cb path w w' :
  fault_free w -> cleanup_temp imp cb path w = (Ok tt, w') -> fs w' !! path = None.
Proof.
  intros Hff. unfold cleanup_temp. intros H.
  apply bind_ok_inv in H as (present & w1 & H1 & H).
  unfold os_path_exists, gets in H1. injection H1 as <- <-.
  case_bool_decide as Hp.
  - apply bind_ok_inv in H as ([] & w1 & H1 & H).
    assert (same_files w w1) as [He _] by (eapply run_moves; [| exact H1]; moves).
    eapply remove_temp_gone; [| exact H]. by eapply fault_free_env.
  - unfold ret in H. injection H as <-.
    destruct (fs w !! path); [by destruct Hp | done].
Qed.

Lemma import_via_database_reporting imp temp_path profile cb :
  moves_within reporting (_import_history_via_database imp temp_path profile cb).
Proof.
  unfold _import_history_via_database, merge_failed, restore_backup,
    discard_backup, remove_temp, merge_and_report, merge,
    import_place, import_visit, report_item,
    sqlite3_connect, commit, execute,
    Security.secure_delete_file, Security.overwrite_and_remove,
    Security.overwrite_round, Security.overwrite, os_path_exists, os_path_getsize,
    os_remove, shutil_copy2, open_wb, f_write_flush, os_fsync, os_urandom.
  moves.
Qed.

(** [_import_history_via_database] that returned [True] has removed its
    backup. *)
Lemma import_via_database_discards imp temp_path profile cb w w' :
  fault_free w ->
  _import_history_via_database imp temp_path profile cb w = (Ok true, w') ->
  fs w' !! places_db_path_backup imp = None.
Proof.
  intros Hff H. unfold _import_history_via_database in H.
  apply bind_ok_inv in H as (present & w0 & H0 & H).
  unfold os_path_exists, gets in H0. injection H0 as <- <-.
  destruct (negb _).
  { unfold bind, logger, modify, ret in H. discriminate. }
  apply bind_ok_inv in H as ([] & w1 & H1 & H).
  assert (env w1 = env w) as He1 by (eapply run_env; [| exact H1]; moves).
  apply bind_ok_inv in H as ([] & w2 & H2 & H).
  assert (env w2 = env w1) as He2.
  { eapply run_env; [| exact H2]. unfold shutil_copy2. moves. }
  apply try_finally_ok_inv in H as (w3 & H & Hfin).
  assert (env w3 = env w2) as He3.
  { eapply run_env; [| exact H].
    unfold merge_failed, restore_backup, merge_and_report, merge,
      import_place, import_visit, report_item, sqlite3_connect, commit, execute,
      os_path_exists, os_remove, shutil_copy2.
    moves. }
  eapply discard_backup_gone; [| exact Hfin].
  eapply fault_free_env; [| exact Hff]. congruence.
Qed.

(** When no file operation fails and [import_history] returns [True]
    for a window that is not empty, neither the staging database nor
    the backup of the destination is left on the disk. *)
Theorem successful_import_leaves_no_temporary_file imp items profile cb w w' :
  fault_free w ->
  items <> [] ->
  temp_db_path imp <> places_db_path_of profile ->
  temp_db_path imp <> places_db_path_backup imp ->
  import_history imp items (Some profile) cb w = (Ok true, w') ->
  fs w' !! temp_db_path imp = None /\
  fs w' !! places_db_path_backup imp = None.
Proof.
  intros Hff Hitems Htp Htb H.
  destruct items as [| item items]; [done |].
  pose proof (run_env _ _ _ _ (import_history_reporting imp (item :: items)
                                 (Some profile) cb) H) as Henv.
  unfold import_history in H. cbv beta iota in H.
  apply bind_ok_inv in H as (found & w0 & H0 & H).
  unfold ret in H0. injection H0 as <- <-.
  apply bind_ok_inv in H as ([] & w1 & H1 & H).
  assert (env w1 = env w) as He1 by (eapply run_env; [| exact H1]; moves).
  destruct (zen_browser_running imp).
  { apply bind_ok_inv in H as ([] & wa & _ & H).
    apply bind_ok_inv in H as ([] & wb & _ & H). unfold ret in H. congruence. }
  apply bind_ok_inv in H as (staged_path & w2 & H2 & H).
  apply attempt_inv in H2.
  destruct staged_path as [path | e]; cycle 1.
  { apply import_failed_not_true in H. discriminate. }
  apply bind_ok_inv in H2 as ([] & w1' & H1' & H2).
  assert (env w1' = env w1) as He1' by (eapply run_env; [| exact H1']; moves).
  pose proof (save_to_sqlite_ok_inv _ _ _ _ _ H2) as (-> & He2 & _).
  apply try_finally_ok_inv in H as (w4 & H & Hfin).
  apply try_except_ok_inv in H as [H | (e & wx & _ & H)]; cycle 1.
  { apply import_failed_not_true in H. discriminate. }
  apply bind_ok_inv in H as ([] & w3 & H3 & H).
  assert (env w3 = env w2) as He3 by (eapply run_env; [| exact H3]; moves).
  assert (fault_free w3) as Hff3.
  { eapply fault_free_env; [| exact Hff]. congruence. }
  pose proof (run_env _ _ _ _ (import_via_database_reporting _ _ _ _) H) as He4.
  split.
  - eapply cleanup_temp_gone; [| exact Hfin]. by eapply fault_free_env.
  - assert (untouched (places_db_path_backup imp) w4 w') as [_ Hf].
    { eapply run_moves; [| exact Hfin]. by apply cleanup_temp_untouched. }
    rewrite Hf. by eapply import_via_database_discards.
Qed.

End cleanup.

Section cleanup_examples.
Import History Examples.

Lemma successful_import_leaves_no_temporary_file_witness :
  fs calm_end_new !! temp_db_path importer = None /\
  fs calm_end_new !! places_db_path_backup importer = None.
Proof.
  apply (successful_import_leaves_no_temporary_file importer window_new profile
           attached calm_world calm_end_new).
  - intros n. reflexivity.
  - discriminate.
  - vm_compute. discriminate.
  - vm_compute. discriminate.
  - vm_compute. reflexivity.
Defined.

End cleanup_examples.

(** ** A successful import only appends *)

Section append_only.
Import History.

Lemma remapped_visits_dates max_visit_id mapping : forall visits i,
  (forall visit, visit ∈ visits -> is_Some (mapping !! visit_place_id visit)) ->
  map visit_date (remapped_visits max_visit_id mapping i visits) = map visit_date visits.
Proof.
  induction visits as [| visit visits IH]; intros i Hall; [done |].
  simpl. unfold remapped_visit at 1.
  destruct (Hall visit) as [pid Hpid]; [set_solver |]. rewrite Hpid. simpl.
  f_equal. apply IH. intros v Hv. apply Hall. set_solver.
Qed.

(** When [import_history] returns [True], the destination holds the
    rows it held, unchanged and in their places, followed by new ones:
    one place row for each distinct URL of the window that it lacked,
    none for a URL that it had, and one visit row per item, in the
    order of the window and with the item's visit time.  Importing a
    window again therefore adds no place and doubles its visits. *)
Theorem successful_import_only_appends imp items profile cb w w' zen :
  import_history imp items (Some profile) cb w = (Ok true, w') ->
  places_db_path_of profile <> places_db_path_backup imp ->
  temp_db_path imp <> places_db_path_backup imp ->
  temp_db_path imp <> places_db_path_of profile ->
  fs w !! places_db_path_of profile = Some (SqliteFile zen) ->
  fs w !! temp_db_path imp = None ->
  exists zen' new_places new_visits,
    fs w' !! places_db_path_of profile = Some (SqliteFile zen') /\
    moz_places zen' = moz_places zen ++ new_places /\
    moz_historyvisits zen' = moz_historyvisits zen ++ new_visits /\
    NoDup (map place_url new_places) /\
    (forall url,
       url ∈ map place_url new_places <->
       url ∈ map hi_url items /\ url ∉ map place_url (moz_places zen)) /\
    map visit_date new_visits = map hi_visit_time items.
Proof.
  intros H Hpb Htb Htp Hzen Hfresh.
  destruct items as [| item items].
  { unfold import_history, bind, logger, modify, ret in H. injection H as <-.
    exists zen, [], []. rewrite !app_nil_r. simpl. split; [done |].
    split; [done |]. split; [done |]. split; [constructor |]. split; [| done].
    intros url. set_solver. }
  apply import_history_ok_inv in H
    as (w1 & w2 & w3 & w4 & [He1 Hf1] & Hsave & [He3 Hf3] & Himp & [He5 Hf5]); [| done].
  apply save_to_sqlite_ok_inv in Hsave as (_ & He2 & db0 & db & Hdb0 & Hstage & Hf2).
  rewrite Hf1 in Hdb0. rewrite (Hdb0 Hfresh) in Hstage.
  apply import_via_database_ok_inv in Himp
    as (zen0 & temp0 & [zen1 mapping] & zen' & Hzen0 & Htemp0 & Hmp & Hmv & Hout & _);
    [| done | done].
  rewrite Hf3, Hf2 in Hzen0, Htemp0.
  rewrite !lookup_insert_ne, Hf1, Hzen in Hzen0 by done. injection Hzen0 as <-.
  rewrite lookup_insert_eq in Htemp0. injection Htemp0 as <-.
  apply stage_fold_rows in Hstage as (places & visits & Hp & Hv & Hurls & Hpids & Hdates).
  simpl in Hp, Hv.
  unfold merged_places in Hmp. unfold merged_visits in Hmv. simpl in Hmv.
  destruct (places_fold_rows _ _ _ _ _ _ _ Hmp) as (Hv1 & new & Hp1 & Hnd & Hchar).
  destruct (visits_fold_rows _ _ _ _ _ _ Hmv) as (Hp2 & Hv2).
  exists zen', new, (remapped_visits (max_visit_id_of zen) mapping 0 (moz_historyvisits db)).
  split; [by rewrite Hf5 |]. split; [by rewrite Hp2, Hp1 |].
  split; [by rewrite Hv2, Hv1 |]. split; [done |]. split.
  - intros url. by rewrite Hchar, Hp, Hurls.
  - rewrite remapped_visits_dates; [by rewrite Hv |].
    intros visit Hvisit.
    eapply (places_fold_dom _ _ _ _ _ _ _ Hmp).
    rewrite Hp, <- Hpids, <- Hv. apply list_elem_of_fmap. eauto.
Qed.

End append_only.

Section append_only_examples.
Import History Examples MoreExamples.

(** Two more visits of a URL that the destination holds. *)
Lemma successful_import_only_appends_witness :
  exists zen' new_places new_visits,
    fs known_end !! places_db_path_of profile = Some (SqliteFile zen') /\
    moz_places zen' = moz_places destination ++ new_places /\
    moz_historyvisits zen' = moz_historyvisits destination ++ new_visits /\
    NoDup (map place_url new_places) /\
    (forall url,
       url ∈ map place_url new_places <->
       url ∈ map hi_url window_a /\ url ∉ map place_url (moz_places destination)) /\
    map visit_date new_visits = map hi_visit_time window_a.
Proof.
  apply (successful_import_only_appends importer window_a profile attached
           calm_world known_end destination).
  - vm_compute. reflexivity.
  - vm_compute. discriminate.
  - vm_compute. discriminate.
  - vm_compute. discriminate.
  - vm_compute. reflexivity.
  - vm_compute. reflexivity.
Defined.

End append_only_examples.

(** ** A run with nothing to do *)

Section nothing_selected.
Import Pipeline.

Lemma synchronize_types_nothing_selected c p cb w :
  sync_passwords c = false -> sync_bookmarks c = false -> sync_history c = false ->
  synchronize_types c p cb w = (Ok (initial_results, 0), w).
Proof.
  intros Hp Hb Hh. unfold synchronize_types. rewrite Hp, Hb, Hh.
  erewrite run_bind_ok by apply sync_type_disabled.
  erewrite run_bind_ok by apply sync_type_disabled.
  apply sync_type_disabled.
Qed.

(** With no data type selected, [synchronize_all] returns [False], as
    after a run in which every type failed, while the user does not
    cancel: whatever the authentication and the detection of the
    profile give.  The blocks of the three data types are skipped:
    they log and report nothing and leave every result [False]. *)
Theorem nothing_selected_is_reported_as_failure c cb w :
  sync_passwords c = false -> sync_bookmarks c = false -> sync_history c = false ->
  steady cb w ->
  (exists w', synchronize_all c cb false w = (Ok false, w')) /\
  (forall p w0, synchronize_types c p cb w0 = (Ok (initial_results, 0), w0)).
Proof.
  intros Hp Hb Hh Hs. split.
  - destruct (synchronize_all_total c cb w Hs) as (b & w' & Hrun).
    assert (b = false) as ->.
    { destruct b; [| done].
      destruct (proj1 (synchronize_all_returns c cb w true w' Hrun) eq_refl)
        as (p & w0 & t & _ & Hsel & _).
      destruct t; cbn [selected] in Hsel; congruence. }
    by exists w'.
  - intros p w0. by apply synchronize_types_nothing_selected.
Qed.

End nothing_selected.

Section nothing_selected_examples.
Import Pipeline Examples MoreExamples.

Lemma nothing_selected_is_reported_as_failure_witness :
  (exists w',
     synchronize_all idle_collaborators attached false calm_world = (Ok false, w')) /\
  (forall p w0,
     synchronize_types idle_collaborators p attached w0 = (Ok (initial_results, 0), w0)).
Proof.
  apply (nothing_selected_is_reported_as_failure idle_collaborators attached calm_world);
    try reflexivity.
  split; [reflexivity |]. intros c [= <-]. reflexivity.
Defined.

End nothing_selected_examples.

(** ** Refused imports *)

Section refused_imports.
Import History.

(** While the destination browser is running, [import_history] of a
    window that is not empty into a given profile returns [False]
    before anything is written: no file is created, changed or removed,
    and the staging database is not even created. *)
Theorem import_is_refused_without_touching_files imp items p cb w :
  items <> [] ->
  steady cb w ->
  zen_browser_running imp = true ->
  exists w',
    import_history imp items (Some p) cb w = (Ok false, w') /\
    fs w' = fs w /\ disk w' = disk w.
Proof.
  intros Hitems Hs Hrun. destruct items as [| item items]; [done |].
  unfold import_history. cbv beta iota.
  erewrite run_bind_ok by reflexivity. cbv beta iota. rewrite Hrun.
  destruct (report_steady cb 5 100 ("Using Zen Browser profile: " +:+ profile_name p) w)
    as (w1 & H1 & Hr1); [done | done |].
  erewrite run_bind_ok by exact H1.
  set (msg := "Zen Browser is running. Please close it before importing history."%string).
  destruct (report_steady cb 0 100 msg (add_log (ERROR, msg) w1))
    as (w2 & H2 & Hr2); [by eapply steady_add_log, steady_reported | done |].
  exists w2. erewrite run_bind_ok by (unfold logger, modify; reflexivity).
  erewrite run_bind_ok by exact H2. split; [reflexivity |].
  destruct Hr1 as [rs1 ->], Hr2 as [rs2 ->]. done.
Qed.

End refused_imports.

Section refused_imports_examples.
Import History Examples MoreExamples.

Lemma import_is_refused_without_touching_files_witness :
  exists w',
    import_history busy_importer window_new (Some profile) attached calm_world
      = (Ok false, w') /\
    fs w' = fs calm_world /\ disk w' = disk calm_world.
Proof.
  apply (import_is_refused_without_touching_files busy_importer window_new
           profile attached calm_world).
  - discriminate.
  - split; [reflexivity |]. intros c [= <-]. reflexivity.
  - reflexivity.
Defined.

End refused_imports_examples.

(** ** Authentication *)

Section authentication.
Import Auth.

Lemma truthy_Some s : s <> EmptyString -> truthy (Some s) = true.
Proof. by destruct s. Qed.

(** [authenticate_user] when it returns [True] with authentication
    required: the token and its expiry are those of this call. *)
Lemma authenticate_user_true_inv sv password st st1 :
  require_auth st = true ->
  authenticate_user sv password st = (Ok true, st1) ->
  require_auth st1 = true /\
  current_token st1 = Some (create_secure_token sv) /\
  token_expiry st1 = (time_time sv + TOKEN_VALIDITY_DURATION)%Q.
Proof.
  intros Hreq H. unfold authenticate_user in H.
  erewrite run_bind_ok in H by reflexivity. rewrite Hreq in H. cbv beta iota in H.
  change (negb true) with false in H. cbv iota in H.
  apply try_except_ok_inv in H as [H | (e & s1 & _ & H)]; cycle 1.
  { unfold bind, logger, modify, ret in H. discriminate. }
  apply bind_ok_inv in H as (result & s1 & H1 & H).
  assert (require_auth s1 = true) as Hreq1.
  { destruct (truthy password).
    - destruct (negb (truthy _)).
      + unfold bind, logger, modify, ret in H1. by injection H1 as _ <-.
      + unfold Passwords.lift_exc in H1. by injection H1 as _ <-.
    - unfold ret in H1. by injection H1 as _ <-. }
  apply bind_ok_inv in H as ([] & s2 & H2 & H).
  unfold ret in H. injection H as -> <-.
  unfold bind, _create_auth_token, logger, modify in H2. injection H2 as <-.
  done.
Qed.

(** After a successful [authenticate_user] the token is accepted up to
    and including one hour later and refused from then on, and after
    [logout] it is refused at once. *)
Theorem token_is_valid_for_one_hour sv password st st1 later :
  require_auth st = true ->
  create_secure_token sv <> EmptyString ->
  authenticate_user sv password st = (Ok true, st1) ->
  (exists b st2,
     validate_token later st1 = (Ok b, st2) /\
     (b = true <-> (time_time later <= time_time sv + 3600)%Q)) /\
  (exists st3, (logout ;;; validate_token later) st1 = (Ok false, st3)).
Proof.
  intros Hreq Htok Hrun.
  apply authenticate_user_true_inv in Hrun as (Hreq1 & Ht & He); [| done].
  split.
  - unfold validate_token, bind, is_authentication_required, gets.
    cbv beta iota. rewrite Hreq1. cbv beta iota. change (negb true) with false.
    cbv beta iota. rewrite Ht, He, truthy_Some by done.
    change (negb true) with false. cbv [orb].
    destruct (Qlt_le_dec _ _) as [Hlt | Hle]; unfold logger, modify, ret.
    + eexists _, _. split; [reflexivity |]. split; [done |].
      intros Hle. exfalso. apply (Qlt_irrefl (time_time later)).
      eapply Qle_lt_trans; [exact Hle | exact Hlt].
    + eexists _, _. split; [reflexivity |]. done.
  - unfold logout, validate_token, bind, is_authentication_required, gets, logger,
      modify, ret. simpl. rewrite Hreq1. simpl. eauto.
Qed.

(** The operation name makes no difference to [is_authenticated_for]:
    it answers, and logs, what [validate_token] does.  In particular,
    with [require_auth_for_sensitive_ops] switched off, every
    operation, sensitive ones like password_sync included, counts as
    authenticated without any token. *)
Theorem operation_name_is_irrelevant sv operation_name st :
  is_authenticated_for sv operation_name st = validate_token sv st /\
  (require_auth st = false -> is_authenticated_for sv operation_name st = (Ok true, st)).
Proof.
  assert (is_authenticated_for sv operation_name st = validate_token sv st) as Heq.
  { unfold is_authenticated_for, require_authentication.
    destruct (bool_decide _); [reflexivity |].
    unfold validate_token, bind, is_authentication_required, gets, ret.
    destruct (require_auth st) eqn:Hreq; cbv beta iota; [| reflexivity].
    change (negb true) with false. cbv beta iota. rewrite Hreq. reflexivity. }
  split; [exact Heq |]. intros Hoff. rewrite Heq.
  unfold validate_token, bind, is_authentication_required, gets, ret. by rewrite Hoff.
Qed.

(** When no stored hash can be read, [authenticate_user] accepts every
    password that is not empty and issues a token, whether or not the
    hash of that password could be stored. *)
Theorem first_password_is_always_accepted sv password st :
  require_auth st = true ->
  password <> EmptyString ->
  truthy (_get_stored_password_hash sv) = false ->
  exists st1,
    authenticate_user sv (Some password) st = (Ok true, st1) /\
    current_token st1 = Some (create_secure_token sv) /\
    token_expiry st1 = (time_time sv + TOKEN_VALIDITY_DURATION)%Q.
Proof.
  intros Hreq Hpw Hnone. unfold authenticate_user.
  erewrite run_bind_ok by reflexivity. rewrite Hreq.
  change (negb true) with false. cbv iota.
  rewrite truthy_Some, Hnone by done.
  unfold try_except, bind, _create_auth_token, logger, modify, ret. simpl.
  eexists. split; [reflexivity |]. done.
Qed.

End authentication.

Section authentication_examples.
Import Auth Examples MoreExamples.

Lemma token_is_valid_for_one_hour_witness :
  (exists b st2,
     validate_token first_run logged_in = (Ok b, st2) /\
     (b = true <-> (time_time first_run <= time_time first_run + 3600)%Q)) /\
  (exists st3, (logout ;;; validate_token first_run) logged_in = (Ok false, st3)).
Proof.
  apply (token_is_valid_for_one_hour first_run (Some "hunter2"%string) locked logged_in
           first_run).
  - reflexivity.
  - discriminate.
  - vm_compute. reflexivity.
Defined.

Lemma first_password_is_always_accepted_witness :
  exists st1,
    authenticate_user first_run (Some "hunter2"%string) locked = (Ok true, st1) /\
    current_token st1 = Some (create_secure_token first_run) /\
    token_expiry st1 = (time_time first_run + TOKEN_VALIDITY_DURATION)%Q.
Proof.
  apply (first_password_is_always_accepted first_run "hunter2" locked).
  - reflexivity.
  - discriminate.
  - reflexivity.
Defined.

End authentication_examples.

(** ** The authentication gate of the pipeline *)

Section authentication_gate.
Import Pipeline.

(** The run depends on the token for password synchronization whatever
    is selected: when the configuration requires authentication and the
    token is missing or expired, the manager logs its warning and
    [synchronize_all] returns [False] without touching a file, also
    when passwords are not among the selected data types; when the
    configuration does not require authentication, the check lets every
    run through. *)
Theorem unauthenticated_run_is_refused st sv c cb w :
  steady cb w ->
  (Auth.require_auth st = true ->
   Auth.truthy (Auth.current_token st) = false
   \/ (Auth.token_expiry st < Auth.time_time sv)%Q ->
   (exists w',
      synchronize_all (with_manager st sv c) cb false w = (Ok false, w') /\
      fs w' = fs w /\ io_count w' = io_count w) /\
   Auth.log (Auth.validate_token sv st).2
   = Auth.log st ++ [(WARNING, "Authentication token is invalid or expired"%string)]) /\
  (Auth.require_auth st = false ->
   authentication_required (with_manager st sv c)
   && negb (token_valid (with_manager st sv c)) = false).
Proof.
  intros Hs. split.
  - intros Hreq Hbad.
    assert (authentication_required (with_manager st sv c) = true) as Ha by reflexivity.
    assert (negb (Auth.truthy (Auth.current_token st))
            || (if Qlt_le_dec (Auth.token_expiry st) (Auth.time_time sv)
                then true else false) = true) as Hcond.
    { destruct Hbad as [-> | Hlt]; [reflexivity |].
      destruct (Qlt_le_dec _ _) as [_ | Hle]; [apply orb_true_r |].
      exfalso. apply (Qlt_irrefl (Auth.token_expiry st)).
      eapply Qlt_le_trans; [exact Hlt | exact Hle]. }
    assert ((Auth.validate_token sv st).1 = Ok false /\
            Auth.log (Auth.validate_token sv st).2
            = Auth.log st
              ++ [(WARNING, "Authentication token is invalid or expired"%string)])
      as [Hvt Hlog].
    { unfold Auth.validate_token, bind, Auth.is_authentication_required, gets.
      cbv beta iota. rewrite Hreq. change (negb true) with false. cbv beta iota.
      rewrite Hcond. unfold Auth.logger, modify, ret. cbn. split; reflexivity. }
    assert (token_valid (with_manager st sv c) = false) as Hv.
    { cbn [with_manager token_valid]. unfold answer. by rewrite Hvt. }
    split; [| exact Hlog].
    unfold synchronize_all. rewrite Ha, Hv. cbn [andb negb].
    set (msg := "Authentication required for password synchronization"%string).
    destruct (report_steady cb 0 100 msg
                (add_log (WARNING, msg)
                   (add_log (INFO, "Starting full synchronization"%string) w)))
      as (w1 & H1 & Hr1); [done | done |].
    exists w1. split.
    + erewrite run_bind_ok by (unfold logger, modify; reflexivity).
      erewrite run_try_except_ok; [reflexivity |].
      erewrite run_bind_ok by (unfold logger, modify; reflexivity).
      erewrite run_bind_ok by exact H1. reflexivity.
    + destruct Hr1 as [rs ->]. by simpl.
  - intros Hoff. cbn [with_manager token_valid authentication_required].
    unfold answer at 2. unfold Auth.validate_token, bind,
      Auth.is_authentication_required, gets. cbv beta iota. rewrite Hoff.
    cbn. apply andb_false_r.
Qed.

End authentication_gate.

Section authentication_gate_examples.
Import Pipeline Examples MoreExamples.

Lemma unauthenticated_run_is_refused_witness :
  (exists w',
     synchronize_all (with_manager locked first_run no_passwords) attached false calm_world
       = (Ok false, w') /\
     fs w' = fs calm_world /\ io_count w' = io_count calm_world) /\
  Auth.log (Auth.validate_token first_run locked).2
  = Auth.log locked ++ [(WARNING, "Authentication token is invalid or expired"%string)].
Proof.
  assert (steady attached calm_world) as Hs.
  { split; [reflexivity |]. intros c [= <-]. reflexivity. }
  apply (proj1 (unauthenticated_run_is_refused locked first_run no_passwords attached
                  calm_world Hs)).
  - reflexivity.
  - left. reflexivity.
Defined.

End authentication_gate_examples.

(** ** Retries *)

Section retries.
Context {A : Type} (format_1f : Q -> string).
Context (func : M World A) (max_retries : Z) (backoff_factor : Q)
        (catches : exn -> bool) (fallback_func : option (M World A)).

Local Notation "'the_retries'" :=
  (Retry.with_retries format_1f func max_retries backoff_factor catches fallback_func).
Local Notation "'the_loop'" :=
  (Retry.retry_loop format_1f func max_retries backoff_factor catches fallback_func).

(** The first round.  With a negative [max_retries] the function is
    never called and [with_retries] returns [None]; otherwise a first
    call that returns ends the loop with its result, without a log line
    or a nap, and a first call that raises an exception outside
    [exceptions] lets it through at once: no retry, no nap, no
    fallback. *)
Theorem with_retries_first_round st :
  (max_retries < 0 ->
   Retry.with_retries format_1f func max_retries backoff_factor catches
     fallback_func st
   = (Ok None, st)) /\
  (forall a w',
     0 <= max_retries -> func (Retry.world st) = (Ok a, w') ->
     Retry.with_retries format_1f func max_retries backoff_factor catches
       fallback_func st
     = (Ok (Some a), Retry.mkState w' (Retry.slept st))) /\
  (forall e w',
     0 <= max_retries -> func (Retry.world st) = (Raise e, w') -> catches e = false ->
     Retry.with_retries format_1f func max_retries backoff_factor catches
       fallback_func st
     = (Raise e, Retry.mkState w' (Retry.slept st))).
Proof.
  unfold Retry.with_retries. split; [| split].
  - intros Hneg. destruct (Z.to_nat _); cbn [Retry.retry_loop];
      by rewrite bool_decide_eq_false_2 by lia.
  - intros a w' Hpos Hf.
    destruct (Z.to_nat (max_retries + 1)) as [| fuel] eqn:Hfuel; [lia |].
    cbn [Retry.retry_loop]. rewrite bool_decide_eq_true_2 by lia.
    rewrite (bool_decide_eq_false_2 (0 < 0)) by lia.
    unfold bind, attempt, Retry.lift, ret. by rewrite Hf.
  - intros e w' Hpos Hf Hc.
    destruct (Z.to_nat (max_retries + 1)) as [| fuel] eqn:Hfuel; [lia |].
    cbn [Retry.retry_loop]. rewrite bool_decide_eq_true_2 by lia.
    rewrite (bool_decide_eq_false_2 (0 < 0)) by lia.
    unfold bind, attempt, Retry.lift, ret, raise. by rewrite Hf, Hc.
Qed.

Hypothesis always_fails : forall w, exists e w', func w = (Raise e, w') /\ catches e = true.
Hypothesis factor_not_negative : (0 <= backoff_factor)%Q.



End retries.

Section retries_examples.
Import Examples MoreExamples.


End retries_examples.

(** ** The default profile *)

Section default_profile.
Import Profiles.

Lemma find_first {X} (f : X -> bool) (l : list X) x :
  find f l = Some x ->
  exists before after,
    l = before ++ x :: after /\ f x = true /\ Forall (fun y => f y = false) before.
Proof.
  induction l as [| y l IH]; [done |]. simpl.
  destruct (f y) eqn:Hy.
  - intros [= ->]. exists [], l. by split.
  - intros H. destruct (IH H) as (before & after & -> & Hx & Hb).
    exists (y :: before), after. split; [done |]. split; [done |]. by constructor.
Qed.

Lemma find_absent {X} (f : X -> bool) (l : list X) :
  find f l = None -> Forall (fun y => f y = false) l.
Proof.
  intros H. apply Forall_forall. intros y Hy. apply list_elem_of_In in Hy.
  exact (find_none f l H y Hy).
Qed.

(** Of the detected profiles [get_default_profile] returns one of the
    list, and [None] only for the empty list: the first one flagged as
    default if there is one; otherwise the first one whose name is the
    configured profile name; otherwise the first of the list. *)
Theorem default_profile_precedence profiles default_profile :
  exists chosen,
    get_default_profile (Ok profiles) default_profile = Ok chosen /\
    (chosen = None <-> profiles = []) /\
    forall profile, chosen = Some profile ->
      exists before after,
        profiles = before ++ profile :: after /\
        (profile_is_default profile = true /\
         Forall (fun p => profile_is_default p = false) before
         \/
         Forall (fun p => profile_is_default p = false) profiles /\
         (profile_name profile = default_profile /\
          Forall (fun p => profile_name p <> default_profile) before
          \/
          Forall (fun p => profile_name p <> default_profile) profiles /\
          before = [])).
Proof.
  unfold get_default_profile.
  destruct (find profile_is_default profiles) as [p |] eqn:Hd.
  { exists (Some p). split; [done |]. split.
    - split; [done |]. intros ->. discriminate.
    - intros profile [= <-].
      destruct (find_first _ _ _ Hd) as (before & after & -> & Hp & Hb).
      exists before, after. split; [done |]. by left. }
  apply find_absent in Hd.
  destruct (find _ profiles) as [p |] eqn:Hn.
  { exists (Some p). split; [done |]. split.
    - split; [done |]. intros ->. discriminate.
    - intros profile [= <-].
      destruct (find_first _ _ _ Hn) as (before & after & -> & Hp & Hb).
      exists before, after. split; [done |]. right. split; [done |]. left.
      split; [by apply bool_decide_eq_true_1 in Hp |].
      eapply Forall_impl; [exact Hb |]. intros q Hq.
      by apply bool_decide_eq_false_1 in Hq. }
  apply find_absent in Hn.
  assert (Forall (fun p => profile_name p <> default_profile) profiles) as Hn'.
  { eapply Forall_impl; [exact Hn |]. intros q Hq. by apply bool_decide_eq_false_1 in Hq. }
  destruct profiles as [| p rest].
  - exists None. split; [done |]. split; [done |]. intros profile [=].
  - exists (Some p). split; [done |]. split.
    + split; discriminate.
    + intros profile [= <-]. exists [], rest. split; [done |]. right.
      split; [done |]. right. done.
Qed.

End default_profile.

(** ** Configuration *)

Section configuration.
Import Config.
Open Scope py_scope.

Lemma run_then {A B} (c : Py A) (f : A -> Py B) m a m' :
  c m = (Returns a, m') -> (x <- c ;; f x) m = f a m'.
Proof. intros H. unfold and_then. by rewrite H. Qed.

Lemma run_then_raises {A B} (c : Py A) (f : A -> Py B) m e m' :
  c m = (Raises e, m') -> (x <- c ;; f x) m = (Raises e, m').
Proof. intros H. unfold and_then. by rewrite H. Qed.

Lemma then_returns_inv {A B} (c : Py A) (f : A -> Py B) m b m'' :
  (x <- c ;; f x) m = (Returns b, m'') ->
  exists a m', c m = (Returns a, m') /\ f a m' = (Returns b, m'').
Proof.
  unfold and_then. destruct (c m) as [[a | e] m']; intros H; [eauto | discriminate].
Qed.

(** A computation that raises whatever its first part does. *)
Lemma then_never_returns {A B} (c : Py A) (f : A -> Py B) m :
  (forall a m', c m = (Returns a, m') -> exists e m'', f a m' = (Raises e, m'')) ->
  exists e m'', (x <- c ;; f x) m = (Raises e, m'').
Proof.
  intros H. unfold and_then. destruct (c m) as [[a | e] m'] eqn:Hc; [eauto | eauto].
Qed.

(** [get] spelled out. *)
Lemma get_unfold section key default m :
  get section key default m =
    match dict_lookup section (heap m !!! config m) with
    | None => (Returns default, m)
    | Some s =>
        match key with
        | VNone => (Returns s, m)
        | _ => value_get s key default m
        end
    end.
Proof.
  cbv [get and_then read value_contains value_getitem entries pure throw].
  destruct (dict_lookup section (heap m !!! config m)) as [s |] eqn:Hs.
  - rewrite bool_decide_eq_true_2 by eauto. cbn [negb].
    destruct key; rewrite Hs; reflexivity.
  - rewrite bool_decide_eq_false_2 by (by intros [? ?]). reflexivity.
Qed.

Lemma value_get_unfold x key default m :
  value_get x key default m =
    match x with
    | VRef l =>
        match key with
        | VStr k => (Returns (from_option id default (dict_lookup k (heap m !!! l))), m)
        | VRef _ => (Raises (TypeError "unhashable type: 'dict'"), m)
        | VList _ => (Raises (TypeError "unhashable type: 'list'"), m)
        | _ => (Returns default, m)
        end
    | _ => (Raises (AttributeError ("'" +:+ type_of x
                                    +:+ "' object has no attribute 'get'")), m)
    end.
Proof. by destruct x, key. Qed.

(** [config_manager.get(section, {})], the call with which the
    constructors read the sections storage and security, passes the
    empty dictionary as the key: when the section exists the call
    raises (a [dict] cannot be a key, and a section that is no [dict]
    has no [get]); when it does not exist the call returns [None], on
    which the [.get] that follows raises.  So [HistoryImporter(...)]
    raises, whatever the configuration holds. *)
Theorem importer_constructor_always_raises gettempdir m :
  (forall section empty field default m0,
     exists e m1,
       (s <- get section (VRef empty) VNone ;; value_get s field default) m0
       = (Raises e, m1)) /\
  exists e m', HistoryImporter_init gettempdir m = (Raises e, m').
Proof.
  assert (forall section empty field default m0,
            exists e m1,
              (s <- get section (VRef empty) VNone ;; value_get s field default) m0
              = (Raises e, m1)) as Hget.
  { intros section empty field default m0. unfold and_then at 1.
    rewrite get_unfold.
    destruct (dict_lookup section _) as [s |].
    - rewrite value_get_unfold. destruct s; eauto.
    - rewrite value_get_unfold. eauto. }
  split; [exact Hget |].
  unfold HistoryImporter_init.
  do 9 (apply then_never_returns; intros ? ? _).
  apply then_never_returns. intros e0 m0 _.
  match goal with
  | |- exists e m'', (storage <- get "storage" (VRef e0) VNone ;;
                      temp_dir <- value_get storage ?f ?d ;; _) m0 = _ =>
      destruct (Hget "storage"%string e0 f d m0) as (e & m1 & He)
  end.
  unfold and_then in He |- *.
  destruct (get "storage" (VRef e0) VNone m0) as [[s | e1] m2]; [| eauto].
  rewrite He. eauto.
Qed.

(** *** The objects of the heap *)

Lemma dict_lookup_store key value d :
  dict_lookup key (dict_store key value d) = Some value.
Proof.
  induction d as [| [k v] rest IH]; cbn [dict_store dict_lookup].
  - by rewrite bool_decide_eq_true_2.
  - destruct (bool_decide (k = key)) eqn:Hk; cbn [dict_lookup].
    + by rewrite bool_decide_eq_true_2.
    + by rewrite Hk.
Qed.

Lemma dict_lookup_store_ne key key' value d :
  key <> key' ->
  dict_lookup key' (dict_store key value d) = dict_lookup key' d.
Proof.
  intros Hne. induction d as [| [k v] rest IH]; cbn [dict_store dict_lookup].
  - by rewrite bool_decide_eq_false_2.
  - destruct (bool_decide (k = key)) eqn:Hk; cbn [dict_lookup].
    + apply bool_decide_eq_true_1 in Hk. subst k.
      by rewrite !bool_decide_eq_false_2.
    + by rewrite IH.
Qed.

Lemma dict_lookup_remove key d : dict_lookup key (dict_remove key d) = None.
Proof.
  unfold dict_remove. induction d as [| [k v] rest IH]; [done |].
  cbn [filter list_filter]. destruct (decide ((k, v).1 <> key)) as [Hk | Hk].
  - cbn [dict_lookup]. cbn [fst] in Hk. by rewrite bool_decide_eq_false_2.
  - exact IH.
Qed.

(** An object that has an entry is an object of the heap. *)
Lemma entry_in_heap (h : gmap nat dict) l key v :
  dict_lookup key (h !!! l) = Some v -> l ∈ dom h.
Proof.
  intros H. apply elem_of_dom. destruct (h !! l) as [d |] eqn:Hl; [eauto |].
  rewrite lookup_total_alt, Hl in H. discriminate.
Qed.

Lemma fresh_not_in_heap (h : gmap nat dict) l : l ∈ dom h -> fresh (dom h) <> l.
Proof. intros Hl <-. exact (is_fresh (dom h) Hl). Qed.

(** What follows an invalid configuration in [set] never returns
    [True]. *)
Lemma then_false_not_true {A} (c : Py A) m m' :
  (c ;;; pure false) m <> (Returns true, m').
Proof.
  unfold and_then, pure. destruct (c m) as [[a | e] m0]; congruence.
Qed.

(** One statement of a method, run. *)
Ltac py_step := erewrite run_then by reflexivity; cbv beta.
Ltac py_step_in H := erewrite run_then in H by reflexivity; cbv beta in H.
Ltac py_state :=
  unfold set_heap, set_config;
  cbn [heap config DEFAULT_CONFIG config_dir_exists
       makedirs_error write_error opened_before_error written log].

Lemma bind_false_not_true {A} (c : Py A) (f : A -> Py bool) m m' :
  (forall a m0 m1, f a m0 <> (Returns true, m1)) ->
  (x <- c ;; f x) m <> (Returns true, m').
Proof.
  intros Hf. unfold and_then. destruct (c m) as [[a | e] m0]; [apply Hf | congruence].
Qed.

Lemma value_getitem_ref l key v m :
  dict_lookup key (heap m !!! l) = Some v ->
  value_getitem (VRef l) key m = (Returns v, m).
Proof. intros H. cbv [value_getitem and_then entries read]. by rewrite H. Qed.

Ltac py_state_in H :=
  unfold set_heap, set_config in H;
  cbn [heap config DEFAULT_CONFIG config_dir_exists
       makedirs_error write_error opened_before_error written log] in H.
Ltac py_lookup :=
  apply value_getitem_ref; py_state;
  rewrite ?lookup_total_insert_eq, ?lookup_total_insert_ne by done;
  first [eassumption | apply dict_lookup_store].

Lemma value_contains_ref l key m :
  value_contains key (VRef l) m
  = (Returns (bool_decide (is_Some (dict_lookup key (heap m !!! l)))), m).
Proof. reflexivity. Qed.

Lemma contains_true {A} (x : A) : bool_decide (is_Some (Some x)) = true.
Proof. apply bool_decide_eq_true_2. eauto. Qed.

Lemma contains_false {A} : bool_decide (is_Some (@None A)) = false.
Proof. apply bool_decide_eq_false_2. by intros [? ?]. Qed.

(** *** Exporting *)

Lemma lookup_total_insert_fresh (h : gmap nat dict) d x :
  x ∈ dom h -> <[fresh (dom h) := d]> h !!! x = h !!! x.
Proof.
  intros Hx. apply lookup_total_insert_ne. by apply fresh_not_in_heap.
Qed.

Lemma insert_keeps_objects (h : gmap nat dict) k d x :
  x ∈ dom h -> x ∈ dom (<[k := d]> h).
Proof. rewrite dom_insert. set_solver. Qed.

(** Storing under one key does not change what an object holds under
    another, whichever object is read. *)
Lemma lookup_after_store (h : gmap nat dict) l l' key key' value :
  key <> key' ->
  dict_lookup key' (<[l := dict_store key value (h !!! l)]> h !!! l')
  = dict_lookup key' (h !!! l').
Proof.
  intros Hne. destruct (decide (l = l')) as [<- | Hl].
  - rewrite lookup_total_insert_eq. by apply dict_lookup_store_ne.
  - by rewrite lookup_total_insert_ne.
Qed.

(** [export_config(path, include_sensitive=False)] copies the
    configuration one level deep and sets [passwords] to [False] in the
    copy's [sync.data_types], which is the object of the configuration
    itself.  So after the call, also when the file could not be
    written, [synchronize_all] reads that passwords are not to be
    synchronized.  The call returns whether the file was written. *)
Theorem export_switches_password_sync_off path ls ld m :
  is_Some (dict_lookup "security" (heap m !!! config m)) ->
  dict_lookup "sync" (heap m !!! config m) = Some (VRef ls) ->
  dict_lookup "data_types" (heap m !!! ls) = Some (VRef ld) ->
  is_Some (dict_lookup "passwords" (heap m !!! ld)) ->
  exists b m',
    export_config path false m = (Returns b, m') /\
    config m' = config m /\
    b = bool_decide (write_error m path = None) /\
    exists m'', read_sync_passwords m' = (Returns (VBool false), m'').
Proof.
  intros [sec Hsec] Hsync Hdt [pw Hpw].
  assert (config m ∈ dom (heap m)) as Hroot by eauto using entry_in_heap.
  assert (ls ∈ dom (heap m)) as Hls by eauto using entry_in_heap.
  assert (ld ∈ dom (heap m)) as Hld by eauto using entry_in_heap.
  unfold export_config, catch. do 3 py_step. cbn [negb]. py_state.
  set (h1 := <[fresh (dom (heap m)) := heap m !!! config m]> (heap m)).
  set (e0 := fresh (dom (heap m))).
  set (h2 := <[fresh (dom h1) := []]> h1).
  set (h3 := <[fresh (dom h2) := []]> h2).
  assert (forall x, x ∈ dom (heap m) -> x ∈ dom h3 /\ h3 !!! x = heap m !!! x
                                      /\ h2 !!! x = heap m !!! x
                                      /\ h1 !!! x = heap m !!! x) as Hold.
  { intros x Hx.
    assert (x ∈ dom h1) as H1 by by apply insert_keeps_objects.
    assert (x ∈ dom h2) as H2 by by apply insert_keeps_objects.
    split; [by apply insert_keeps_objects |].
    unfold h3, h2, h1. by rewrite !lookup_total_insert_fresh. }
  assert (h1 !!! e0 = heap m !!! config m) as He0
    by apply lookup_total_insert_eq.
  assert (e0 ∈ dom h1) as He0dom by (unfold h1; rewrite dom_insert; set_solver).
  assert (h2 !!! e0 = heap m !!! config m /\ h3 !!! e0 = heap m !!! config m)
    as [He0' He0''].
  { assert (e0 ∈ dom h2) by by apply insert_keeps_objects.
    unfold h3, h2. by rewrite !lookup_total_insert_fresh. }
  destruct (Hold _ Hroot) as (Hroot3 & Hr3 & Hr2 & Hr1).
  destruct (Hold _ Hls) as (Hls3 & Hl3 & Hl2 & Hl1).
  destruct (Hold _ Hld) as (Hld3 & Hd3 & Hd2 & Hd1).
  erewrite run_then.
  2:{ py_step. py_state. fold e0. rewrite He0.
      rewrite Hsec, contains_true. do 2 py_step. py_state.
      change (<[fresh (dom h1) := []]> h1) with h2.
      rewrite He0', Hsync. cbn [from_option id].
      do 2 py_step. py_state.
      change (<[fresh (dom h2) := []]> h2) with h3. rewrite Hl3, Hdt. cbn [from_option id].
      py_step. py_state. rewrite Hd3, Hpw, contains_true.
      erewrite run_then by (apply value_getitem_ref; py_state; by rewrite He0'').
      erewrite run_then by (apply value_getitem_ref; py_state; by rewrite Hl3).
      reflexivity. }
  py_state. rewrite Hd3.
  set (h4 := <[ld := dict_store "passwords" (VBool false) (heap m !!! ld)]> h3).
  assert (forall st, heap st = h4 -> config st = config m ->
                     exists m'', read_sync_passwords st = (Returns (VBool false), m''))
    as Hread.
  { assert (forall x key, "passwords"%string <> key ->
                          dict_lookup key (h4 !!! x) = dict_lookup key (h3 !!! x))
      as Hother.
    { intros x key Hkey. unfold h4. rewrite <- Hd3.
      by apply lookup_after_store. }
    assert (dict_lookup "passwords" (h4 !!! ld) = Some (VBool false)) as Hoff.
    { unfold h4. rewrite lookup_total_insert_eq. apply dict_lookup_store. }
    intros st Hh Hc. unfold read_sync_passwords. py_step.
    unfold and_then. rewrite get_unfold. py_state. rewrite Hh, Hc.
    rewrite (lookup_total_insert_fresh h4 _ (config m))
      by (by apply insert_keeps_objects).
    rewrite Hother by done. rewrite Hr3, Hsync.
    rewrite value_get_unfold. py_state.
    rewrite (lookup_total_insert_fresh h4 _ ls) by (by apply insert_keeps_objects).
    rewrite Hother by done. rewrite Hl3, Hdt. cbn [from_option id].
    rewrite value_get_unfold. py_state.
    rewrite (lookup_total_insert_fresh h4 _ ld) by (by apply insert_keeps_objects).
    rewrite Hoff. eauto. }
  cbv [and_then dump_to read record update]. py_state.
  destruct (write_error m path) as [msg |].
  - py_state. destruct (opened_before_error m path).
    + do 2 eexists. split; [reflexivity |]. py_state.
      split; [done |]. split; [done |]. by apply Hread.
    + do 2 eexists. split; [reflexivity |]. py_state.
      split; [done |]. split; [done |]. by apply Hread.
  - do 2 eexists. split; [reflexivity |]. py_state.
    split; [done |]. split; [done |]. by apply Hread.
Qed.

Section manager_properties.
Context (validate_config : gmap nat dict -> nat -> option string).

(** The end of [set]: what it returns says what the validation
    said. *)
Lemma set_end_true section key root m m' :
  (error <- validate validate_config ;;
   match error with
   | Some error0 =>
       logger ERROR
         ("Invalid configuration after setting " +:+
          section +:+ "." +:+ key +:+ ": " +:+ error0) ;;;
       defaults <- read DEFAULT_CONFIG ;;
       in_defaults <- value_contains section (VRef defaults) ;;
       has_default <- (if in_defaults
                       then
                        ds <- value_getitem (VRef defaults) section ;;
                        value_contains key ds
                       else pure false) ;;
       (if has_default
        then
         ds <- value_getitem (VRef defaults) section ;;
         dv <- value_getitem ds key ;;
         s0 <- value_getitem (VRef root) section ;;
         value_setitem s0 key dv
        else
         s0 <- value_getitem (VRef root) section ;;
         value_delitem s0 key) ;;;
       pure false
   | None => pure true
   end) m = (Returns true, m') ->
  m' = m.
Proof.
  intros H. py_step_in H.
  destruct (validate_config (heap m) (config m)) as [error |].
  - exfalso. revert H.
    do 4 (apply bind_false_not_true; intros ? ? ?).
    apply then_false_not_true.
  - by injection H as <-.
Qed.

(** A value that [set] has accepted is the value that [get] returns:
    when [set(section, key, value)] returns [True], a
    [get(section, key, default)] that follows returns [value].  The
    configuration is an object of the heap, and its section is not the
    configuration itself. *)
Theorem accepted_value_is_read_back section key value default m m' :
  config m ∈ dom (heap m) ->
  dict_lookup section (heap m !!! config m) <> Some (VRef (config m)) ->
  set validate_config section key value m = (Returns true, m') ->
  get section (VStr key) default m' = (Returns value, m').
Proof.
  intros Hroot Hself Hset. rewrite get_unfold.
  unfold set in Hset. do 2 py_step_in Hset.
  destruct (dict_lookup section (heap m !!! config m)) as [s |] eqn:Hs.
  - rewrite contains_true in Hset. cbn [negb] in Hset.
    py_step_in Hset.
    erewrite run_then in Hset by (by apply value_getitem_ref).
    destruct s as [| | | | | ls]; try discriminate Hset.
    py_step_in Hset. apply set_end_true in Hset. subst m'.
    assert (ls <> config m) as Hne by congruence.
    cbn [set_heap heap config].
    rewrite lookup_total_insert_ne by done. rewrite Hs.
    rewrite value_get_unfold. cbn [set_heap heap].
    by rewrite lookup_total_insert_eq, dict_lookup_store.
  - rewrite contains_false in Hset. cbn [negb] in Hset.
    pose proof (fresh_not_in_heap _ _ Hroot) as Hfresh.
    py_step_in Hset.
    erewrite run_then in Hset
      by (apply value_getitem_ref; cbn [set_heap heap];
          rewrite lookup_total_insert_eq; apply dict_lookup_store).
    py_step_in Hset. apply set_end_true in Hset. subst m'.
    cbn [set_heap heap config].
    rewrite (lookup_total_insert_ne _ (fresh _)) by done.
    rewrite lookup_total_insert_eq, dict_lookup_store.
    rewrite value_get_unfold. cbn [set_heap heap].
    by rewrite lookup_total_insert_eq, dict_lookup_store.
Qed.

(** *** Saving *)

Lemma save_returns path m :
  exists b m',
    save validate_config path m = (Returns b, m') /\
    heap m' = heap m /\ config m' = config m /\
    DEFAULT_CONFIG m' = DEFAULT_CONFIG m /\
    (validate_config (heap m) (config m) <> None ->
       b = false /\ written m' = written m) /\
    (b = true ->
       validate_config (heap m) (config m) = None /\
       written m' = written m ++ [Dumped path (config m) (heap m)]) /\
    (b = false ->
       written m' = written m \/ written m' = written m ++ [Truncated path]).
Proof.
  unfold save. py_step.
  destruct (validate_config (heap m) (config m)) as [error |].
  { do 2 eexists. split; [reflexivity |]. cbn. repeat split; eauto; done. }
  assert (forall m0,
            heap m0 = heap m -> config m0 = config m ->
            DEFAULT_CONFIG m0 = DEFAULT_CONFIG m -> written m0 = written m ->
            exists b m',
              catch
                (root <- read config ;;
                 dump_to path root ;;;
                 logger INFO "Configuration saved successfully." ;;;
                 pure true)
                (fun e =>
                   logger ERROR ("Error saving configuration: " +:+ str_error e) ;;;
                   pure false) m0 = (Returns b, m') /\
              heap m' = heap m /\ config m' = config m /\
              DEFAULT_CONFIG m' = DEFAULT_CONFIG m /\
              (b = true -> written m' = written m ++ [Dumped path (config m) (heap m)]) /\
              (b = false ->
                 written m' = written m \/ written m' = written m ++ [Truncated path]))
    as Hdump.
  { intros m0 Hh Hc Hd Hw. cbv [catch and_then read dump_to record update].
    destruct (write_error m0 path) as [msg |].
    - destruct (opened_before_error m0 path).
      + do 2 eexists. split; [reflexivity |]. cbn. rewrite Hh, Hc, Hd, Hw.
        repeat split; eauto; done.
      + do 2 eexists. split; [reflexivity |]. cbn. rewrite Hh, Hc, Hd, Hw.
        repeat split; eauto; done.
    - do 2 eexists. split; [reflexivity |]. cbn. rewrite Hh, Hc, Hd, Hw.
      repeat split; eauto; done. }
  py_step. destruct (config_dir_exists m) eqn:Hdir; cbn [negb].
  - py_step. cbn [negb].
    destruct (Hdump m) as (b & m' & Hrun & Hh & Hc & Hd & Ht & Hf); try done.
    exists b, m'. rewrite Hrun. repeat split; eauto; done.
  - destruct (makedirs_error m) as [msg |] eqn:Hmk.
    + erewrite run_then
        by (cbv [catch and_then read os_makedirs throw logger update pure];
            rewrite Hmk; reflexivity).
      cbn [negb]. do 2 eexists. split; [reflexivity |]. cbn.
      repeat split; eauto; done.
    + erewrite run_then
        by (cbv [catch and_then read os_makedirs throw logger update pure];
            rewrite Hmk; reflexivity).
      cbn [negb].
      match goal with
      | |- context [catch _ _ ?m0] =>
          destruct (Hdump m0) as (b & m' & Hrun & Hh & Hc & Hd & Ht & Hf);
            try reflexivity
      end.
      exists b, m'. rewrite Hrun. repeat split; eauto; done.
Qed.

(** *** Resetting *)
(** [save] writes the configuration only after the validation has
    accepted it.  For a configuration that the schema rejects it
    returns [False] and the file is not opened.  When it returns
    [True] the configuration is valid and the file holds it.  In every
    other case the file is as it was or is left truncated by a write
    that failed: a file never holds a configuration that [save] was
    given and the schema rejects.  The objects of the configuration
    are left as they were. *)
Theorem save_writes_valid_configurations_only path m r m' :
  save validate_config path m = (r, m') ->
  heap m' = heap m /\ config m' = config m /\
  (validate_config (heap m) (config m) <> None ->
     r = Returns false /\ written m' = written m) /\
  (r = Returns true ->
     validate_config (heap m) (config m) = None /\
     written m' = written m ++ [Dumped path (config m) (heap m)]) /\
  (r <> Returns true ->
     written m' = written m \/ written m' = written m ++ [Truncated path]).
Proof.
  intros Hsave.
  destruct (save_returns path m) as (b & m1 & H & Hh & Hc & _ & Hbad & Ht & Hf).
  rewrite Hsave in H. injection H as -> ->.
  split; [exact Hh |]. split; [exact Hc |]. split; [| split].
  - intros Hv. destruct (Hbad Hv) as [-> Hw]. done.
  - intros [= ->]. by apply Ht.
  - intros Hr. apply Hf. destruct b; [by destruct Hr | done].
Qed.

(** *** Resetting *)

Lemma reset_returns path m :
  exists b m',
    reset validate_config path m = (Returns b, m') /\
    heap m' = <[fresh (dom (heap m)) := heap m !!! DEFAULT_CONFIG m]> (heap m) /\
    config m' = fresh (dom (heap m)) /\
    DEFAULT_CONFIG m' = DEFAULT_CONFIG m.
Proof.
  unfold reset. do 4 py_step.
  match goal with
  | |- context [save _ path ?m0] =>
      destruct (save_returns path m0) as (b & m' & H & Hh & Hc & Hd & _)
  end.
  exists b, m'. rewrite H. split; [reflexivity |]. rewrite Hh, Hc, Hd. done.
Qed.

Lemma dict_store_twice key value d :
  dict_store key value (dict_store key value d) = dict_store key value d.
Proof.
  induction d as [| [k v] rest IH]; cbn [dict_store].
  - by rewrite bool_decide_eq_true_2.
  - destruct (bool_decide (k = key)) eqn:Hk; cbn [dict_store].
    + by rewrite bool_decide_eq_true_2.
    + by rewrite Hk, IH.
Qed.

(** [set] on a section whose object the configuration shares with
    [DEFAULT_CONFIG]. *)
Lemma set_shared_section section key value ls m :
  dict_lookup section (heap m !!! config m) = Some (VRef ls) ->
  dict_lookup section (heap m !!! DEFAULT_CONFIG m) = Some (VRef ls) ->
  ls <> config m -> ls <> DEFAULT_CONFIG m ->
  exists b m',
    set validate_config section key value m = (Returns b, m') /\
    heap m' = <[ls := dict_store key value (heap m !!! ls)]> (heap m) /\
    config m' = config m /\ DEFAULT_CONFIG m' = DEFAULT_CONFIG m /\
    b = bool_decide
          (validate_config (<[ls := dict_store key value (heap m !!! ls)]> (heap m))
             (config m) = None).
Proof.
  intros Hs Hd Hroot Hdef. unfold set. do 2 py_step.
  rewrite Hs, contains_true. cbn [negb]. py_step.
  erewrite run_then by (by apply value_getitem_ref).
  do 2 py_step. cbn [set_heap heap config].
  destruct (validate_config _ (config m)) as [error |] eqn:Hv.
  - do 3 py_step. unfold logger, update. py_state.
    rewrite (lookup_total_insert_ne _ ls (DEFAULT_CONFIG m)) by done.
    rewrite Hd, contains_true.
    erewrite run_then
      by (erewrite run_then by py_lookup; apply value_contains_ref).
    py_state. rewrite lookup_total_insert_eq, dict_lookup_store, contains_true.
    erewrite run_then
      by (do 3 (erewrite run_then by py_lookup); reflexivity).
    do 2 eexists. split; [reflexivity |]. cbn [set_heap heap config DEFAULT_CONFIG].
    rewrite lookup_total_insert_eq, dict_store_twice, insert_insert_eq.
    rewrite bool_decide_eq_false_2 by done. done.
  - do 2 eexists. split; [reflexivity |]. cbn [set_heap heap config DEFAULT_CONFIG].
    by rewrite bool_decide_eq_true_2.
Qed.

(** [reset] and then [set] on a section that [DEFAULT_CONFIG] has. *)
Lemma set_after_reset path section key value ls m r1 m1 r2 m2 :
  dict_lookup section (heap m !!! DEFAULT_CONFIG m) = Some (VRef ls) ->
  ls ∈ dom (heap m) ->
  ls <> DEFAULT_CONFIG m ->
  reset validate_config path m = (r1, m1) ->
  set validate_config section key value m1 = (r2, m2) ->
  r2 = Returns (bool_decide (validate_config (heap m2) (config m2) = None)) /\
  dict_lookup section (heap m2 !!! config m2) = Some (VRef ls) /\
  dict_lookup section (heap m2 !!! DEFAULT_CONFIG m2) = Some (VRef ls) /\
  dict_lookup key (heap m2 !!! ls) = Some value /\
  ls <> config m2 /\ ls ∈ dom (heap m2) /\ DEFAULT_CONFIG m2 = DEFAULT_CONFIG m.
Proof.
  intros Hd Hls Hdef Hreset Hset.
  destruct (reset_returns path m) as (b1 & m1' & Hr & Hh1 & Hc1 & Hd1).
  rewrite Hreset in Hr. injection Hr as -> <-.
  pose proof (fresh_not_in_heap _ _ Hls) as Hfresh.
  assert (DEFAULT_CONFIG m ∈ dom (heap m)) as HD by eauto using entry_in_heap.
  pose proof (fresh_not_in_heap _ _ HD) as HfreshD.
  destruct (set_shared_section section key value ls m1)
    as (b & m2' & Hs & Hh2 & Hc2 & Hd2 & Hb).
  - by rewrite Hh1, Hc1, lookup_total_insert_eq.
  - by rewrite Hh1, Hd1, lookup_total_insert_ne.
  - by rewrite Hc1.
  - by rewrite Hd1.
  - rewrite Hset in Hs. injection Hs as -> <-.
    rewrite Hh2, Hc2, Hd2, Hd1, Hc1, Hh1. repeat split.
    + by rewrite Hb, Hh1, Hc1.
    + rewrite lookup_total_insert_ne by done. by rewrite lookup_total_insert_eq.
    + rewrite lookup_total_insert_ne by done. by rewrite lookup_total_insert_ne.
    + rewrite lookup_total_insert_eq. apply dict_lookup_store.
    + done.
    + rewrite !dom_insert. set_solver.
Qed.

(** A configuration that [reset] has made shares the objects of its
    sections with [DEFAULT_CONFIG], which [reset] copies one level deep.
    So a [set] that follows writes into [DEFAULT_CONFIG] itself, and the
    value it writes stays also when the validation rejects it and [set]
    returns [False]: the value from [DEFAULT_CONFIG] to which [set]
    then reverts is the rejected value.  [ls] is the object of the
    section in [DEFAULT_CONFIG]. *)
Theorem rejected_value_stays_after_reset path section key value default ls
    m r1 m1 r2 m2 :
  dict_lookup section (heap m !!! DEFAULT_CONFIG m) = Some (VRef ls) ->
  ls ∈ dom (heap m) ->
  ls <> DEFAULT_CONFIG m ->
  reset validate_config path m = (r1, m1) ->
  set validate_config section key value m1 = (r2, m2) ->
  r2 = Returns (bool_decide (validate_config (heap m2) (config m2) = None)) /\
  get section (VStr key) default m2 = (Returns value, m2) /\
  (ds <- value_getitem (VRef (DEFAULT_CONFIG m2)) section ;; value_getitem ds key) m2
  = (Returns value, m2).
Proof.
  intros Hd Hls Hdef Hreset Hset.
  destruct (set_after_reset _ _ _ _ _ _ _ _ _ _ Hd Hls Hdef Hreset Hset)
    as (Hr & Hs2 & Hd2 & Hk & _).
  split; [exact Hr |]. split.
  - rewrite get_unfold, Hs2, value_get_unfold. by rewrite Hk.
  - erewrite run_then by (by apply value_getitem_ref).
    by apply value_getitem_ref.
Qed.

(** [reset] does not restore what [set] has changed since the last
    [reset]: after [reset], [set(section, key, value)] and a second
    [reset], [get(section, key, default)] returns [value], whatever
    [DEFAULT_CONFIG] held for the key at the start. *)
Theorem reset_does_not_restore_a_changed_value path path' section key value
    default ls m r1 m1 r2 m2 r3 m3 :
  dict_lookup section (heap m !!! DEFAULT_CONFIG m) = Some (VRef ls) ->
  ls ∈ dom (heap m) ->
  ls <> DEFAULT_CONFIG m ->
  reset validate_config path m = (r1, m1) ->
  set validate_config section key value m1 = (r2, m2) ->
  reset validate_config path' m2 = (r3, m3) ->
  get section (VStr key) default m3 = (Returns value, m3).
Proof.
  intros Hd Hls Hdef Hreset Hset Hreset'.
  destruct (set_after_reset _ _ _ _ _ _ _ _ _ _ Hd Hls Hdef Hreset Hset)
    as (_ & _ & Hd2 & Hk & _ & Hls2 & _).
  destruct (reset_returns path' m2) as (b3 & m3' & Hr & Hh3 & Hc3 & _).
  rewrite Hreset' in Hr. injection Hr as -> <-.
  pose proof (fresh_not_in_heap _ _ Hls2) as Hfresh.
  rewrite get_unfold, Hh3, Hc3, lookup_total_insert_eq, Hd2.
  rewrite value_get_unfold, Hh3, lookup_total_insert_ne by done.
  by rewrite Hk.
Qed.

(** When the configuration has objects of its own, a rejected [set]
    does revert, and to [DEFAULT_CONFIG]: after a
    [set(section, key, value)] that returns [False],
    [get(section, key, default)] returns what [DEFAULT_CONFIG] holds for
    the key, or [default] when it holds nothing; the value that the
    configuration held before the call is lost.  [ls] and [ld] are the
    objects of the section in the configuration and in
    [DEFAULT_CONFIG]. *)
Theorem rejected_value_is_replaced_by_the_default section key value default
    ls ld m m' :
  dict_lookup section (heap m !!! config m) = Some (VRef ls) ->
  dict_lookup section (heap m !!! DEFAULT_CONFIG m) = Some (VRef ld) ->
  ls <> config m -> ls <> DEFAULT_CONFIG m -> ls <> ld ->
  set validate_config section key value m = (Returns false, m') ->
  get section (VStr key) default m'
  = (Returns (from_option id default (dict_lookup key (heap m !!! ld))), m') /\
  heap m' !!! ld = heap m !!! ld.
Proof.
  intros Hs Hd Hroot Hdef Hne Hset. unfold set in Hset. do 2 py_step_in Hset.
  rewrite Hs, contains_true in Hset. cbn [negb] in Hset. py_step_in Hset.
  erewrite run_then in Hset by (by apply value_getitem_ref).
  do 2 py_step_in Hset. py_state_in Hset.
  match type of Hset with
  | context [validate_config ?h ?c] => destruct (validate_config h c) as [error |]
  end; [| discriminate Hset].
  do 3 py_step_in Hset. unfold logger, update in Hset. py_state_in Hset.
  rewrite (lookup_total_insert_ne _ ls (DEFAULT_CONFIG m)) in Hset by done.
  rewrite Hd, contains_true in Hset.
  erewrite run_then in Hset
    by (erewrite run_then by py_lookup; apply value_contains_ref).
  py_state_in Hset. rewrite (lookup_total_insert_ne _ ls ld) in Hset by done.
  destruct (dict_lookup key (heap m !!! ld)) as [dv |] eqn:Hdv.
  - rewrite contains_true in Hset.
    erewrite run_then in Hset.
    2:{ erewrite run_then by py_lookup.
        erewrite run_then
          by (apply value_getitem_ref; py_state;
              rewrite lookup_total_insert_ne by done; exact Hdv).
        erewrite run_then by py_lookup. reflexivity. }
    injection Hset as <-. py_state.
    rewrite get_unfold. py_state.
    rewrite (lookup_total_insert_ne _ ls (config m)) by done.
    rewrite (lookup_total_insert_ne _ ls (config m)) by done.
    rewrite Hs, value_get_unfold. py_state.
    rewrite !lookup_total_insert_eq, dict_lookup_store.
    by rewrite !(lookup_total_insert_ne _ ls ld) by done.
  - rewrite contains_false in Hset.
    erewrite run_then in Hset.
    2:{ erewrite run_then by py_lookup.
        cbv [value_delitem and_then entries read]. py_state.
        rewrite lookup_total_insert_eq, dict_lookup_store. reflexivity. }
    injection Hset as <-. py_state.
    rewrite get_unfold. py_state.
    rewrite (lookup_total_insert_ne _ ls (config m)) by done.
    rewrite (lookup_total_insert_ne _ ls (config m)) by done.
    rewrite Hs, value_get_unfold. py_state.
    rewrite !lookup_total_insert_eq, dict_lookup_remove.
    by rewrite !(lookup_total_insert_ne _ ls ld) by done.
Qed.

(** [set] on a section that neither the configuration nor
    [DEFAULT_CONFIG] has, under a schema that rejects every
    configuration with that section (the schema of config_schema.py
    allows no additional section): [set] returns [False] and deletes
    the key, but the empty section that it has created stays, so every
    [save] that follows returns [False] and writes nothing. *)
Theorem unknown_section_makes_the_configuration_unsavable section key value m :
  (forall h root, is_Some (dict_lookup section (h !!! root)) ->
                  validate_config h root <> None) ->
  config m ∈ dom (heap m) ->
  DEFAULT_CONFIG m ∈ dom (heap m) ->
  config m <> DEFAULT_CONFIG m ->
  dict_lookup section (heap m !!! config m) = None ->
  dict_lookup section (heap m !!! DEFAULT_CONFIG m) = None ->
  exists l m',
    set validate_config section key value m = (Returns false, m') /\
    dict_lookup section (heap m' !!! config m') = Some (VRef l) /\
    heap m' !!! l = [] /\
    forall path, exists m'',
      save validate_config path m' = (Returns false, m'') /\
      written m'' = written m'.
Proof.
  intros Hclosed Hroot HD Hne Hs Hd.
  pose proof (fresh_not_in_heap _ _ Hroot) as Hfresh.
  pose proof (fresh_not_in_heap _ _ HD) as HfreshD.
  unfold set. do 2 py_step. rewrite Hs, contains_false. cbn [negb].
  py_step. erewrite run_then by py_lookup. do 2 py_step. py_state.
  set (l := fresh (dom (heap m))) in *.
  assert (forall d d', (<[config m := d]> (<[l := d']> (heap m))) !!! l = d') as Hl.
  { intros d d'. rewrite lookup_total_insert_ne by done.
    apply lookup_total_insert_eq. }
  rewrite Hl. cbn [dict_store].
  match goal with
  | |- context [validate_config ?h ?c] =>
      destruct (validate_config h c) as [error |] eqn:Hv
  end.
  2:{ exfalso. revert Hv. apply Hclosed.
      rewrite (lookup_total_insert_ne _ l (config m)) by done.
      rewrite lookup_total_insert_eq, dict_lookup_store. eauto. }
  clear Hv. do 3 py_step. unfold logger, update. py_state.
  rewrite !(lookup_total_insert_ne _ _ (DEFAULT_CONFIG m)) by done.
  rewrite Hd, contains_false. py_step.
  erewrite run_then.
  2:{ erewrite run_then
        by (apply value_getitem_ref; py_state;
            rewrite (lookup_total_insert_ne _ l (config m)) by done;
            rewrite lookup_total_insert_eq; apply dict_lookup_store).
      cbv [value_delitem and_then entries read]. py_state.
      rewrite lookup_total_insert_eq. cbn [dict_lookup].
      rewrite bool_decide_eq_true_2 by done. reflexivity. }
  exists l. eexists. split; [reflexivity |]. py_state.
  match goal with
  | |- dict_lookup section (?h !!! config m) = _ /\ _ =>
      assert (dict_lookup section (h !!! config m) = Some (VRef l)) as Hsec
  end.
  { rewrite !(lookup_total_insert_ne _ l (config m)) by done.
    rewrite lookup_total_insert_eq. apply dict_lookup_store. }
  split; [exact Hsec |]. split.
  { rewrite lookup_total_insert_eq. unfold dict_remove. cbn [filter list_filter].
    destruct (decide _) as [Hk | Hk]; [by cbn in Hk | done]. }
  intros path. unfold save. py_step. py_state.
  match goal with
  | |- context [validate_config ?h ?c] =>
      destruct (validate_config h c) as [error' |] eqn:Hv
  end.
  - eexists. split; [reflexivity | done].
  - exfalso. revert Hv. apply Hclosed. rewrite Hsec. eauto.
Qed.

End manager_properties.

Section configuration_examples.
Import MoreExamples.

Lemma in_heap_by_lookup (h : gmap nat dict) l :
  bool_decide (is_Some (h !! l)) = true -> l ∈ dom h.
Proof. intros H. apply elem_of_dom. by apply bool_decide_eq_true_1 in H. Qed.

(** French is accepted and read back. *)
Lemma accepted_value_is_read_back_witness :
  get "general" (VStr "language") VNone
    (set small_schema "general" "language" (VStr "fr-FR") loaded).2
  = (Returns (VStr "fr-FR"),
     (set small_schema "general" "language" (VStr "fr-FR") loaded).2).
Proof.
  apply (accepted_value_is_read_back small_schema "general" "language"
           (VStr "fr-FR") VNone loaded).
  - apply in_heap_by_lookup. vm_compute. reflexivity.
  - vm_compute. discriminate.
  - vm_compute. reflexivity.
Defined.

(** After the first start, a number is rejected as the language, and
    stays. *)
Lemma rejected_value_stays_after_reset_witness :
  @Returns bool false
  = Returns (bool_decide
               (small_schema
                  (heap (set small_schema "general" "language" (VInt 7) started).2)
                  (config (set small_schema "general" "language" (VInt 7) started).2)
                = None)) /\
  get "general" (VStr "language") VNone
    (set small_schema "general" "language" (VInt 7) started).2
  = (Returns (VInt 7), (set small_schema "general" "language" (VInt 7) started).2) /\
  (ds <- value_getitem
           (VRef (DEFAULT_CONFIG
                    (set small_schema "general" "language" (VInt 7) started).2))
           "general" ;;
   value_getitem ds "language")
    (set small_schema "general" "language" (VInt 7) started).2
  = (Returns (VInt 7), (set small_schema "general" "language" (VInt 7) started).2).
Proof.
  apply (rejected_value_stays_after_reset small_schema "config.json" "general"
           "language" (VInt 7) VNone 1%nat unloaded (Returns true) started).
  - vm_compute. reflexivity.
  - apply in_heap_by_lookup. vm_compute. reflexivity.
  - discriminate.
  - vm_compute. reflexivity.
  - vm_compute. reflexivity.
Defined.

(** German, set after the first start, is what a reset gives. *)
Lemma reset_does_not_restore_a_changed_value_witness :
  get "general" (VStr "language") VNone
    (reset small_schema "config.json"
       (set small_schema "general" "language" (VStr "de-DE") started).2).2
  = (Returns (VStr "de-DE"),
     (reset small_schema "config.json"
        (set small_schema "general" "language" (VStr "de-DE") started).2).2).
Proof.
  apply (reset_does_not_restore_a_changed_value small_schema "config.json"
           "config.json" "general" "language" (VStr "de-DE") VNone 1%nat
           unloaded (Returns true) started (Returns true)
           (set small_schema "general" "language" (VStr "de-DE") started).2
           (Returns true)).
  - vm_compute. reflexivity.
  - apply in_heap_by_lookup. vm_compute. reflexivity.
  - discriminate.
  - vm_compute. reflexivity.
  - vm_compute. reflexivity.
  - vm_compute. reflexivity.
Defined.

(** A number is rejected as the language of the loaded configuration,
    which then reads en-US and no longer de-DE. *)
Lemma rejected_value_is_replaced_by_the_default_witness :
  get "general" (VStr "language") VNone
    (set small_schema "general" "language" (VInt 7) loaded).2
  = (Returns (from_option id VNone (dict_lookup "language" (heap loaded !!! 1%nat))),
     (set small_schema "general" "language" (VInt 7) loaded).2) /\
  heap (set small_schema "general" "language" (VInt 7) loaded).2 !!! 1%nat
  = heap loaded !!! 1%nat.
Proof.
  apply (rejected_value_is_replaced_by_the_default small_schema "general"
           "language" (VInt 7) VNone 7%nat 1%nat loaded).
  - vm_compute. reflexivity.
  - vm_compute. reflexivity.
  - discriminate.
  - discriminate.
  - discriminate.
  - vm_compute. reflexivity.
Defined.

(** A key of the section plugins. *)
Lemma unknown_section_makes_the_configuration_unsavable_witness :
  exists l m',
    set small_schema "plugins" "enabled" (VBool true) loaded = (Returns false, m') /\
    dict_lookup "plugins" (heap m' !!! config m') = Some (VRef l) /\
    heap m' !!! l = [] /\
    forall path, exists m'',
      save small_schema path m' = (Returns false, m'') /\
      written m'' = written m'.
Proof.
  apply (unknown_section_makes_the_configuration_unsavable small_schema "plugins"
           "enabled" (VBool true) loaded).
  - intros h root Hplugins. unfold small_schema.
    rewrite bool_decide_eq_true_2 by exact Hplugins. discriminate.
  - apply in_heap_by_lookup. vm_compute. reflexivity.
  - apply in_heap_by_lookup. vm_compute. reflexivity.
  - discriminate.
  - vm_compute. reflexivity.
  - vm_compute. reflexivity.
Defined.

(** The export of the loaded configuration. *)
Lemma export_switches_password_sync_off_witness :
  exists b m',
    export_config "export.json" false loaded = (Returns b, m') /\
    config m' = config loaded /\
    b = bool_decide (write_error loaded "export.json" = None) /\
    exists m'', read_sync_passwords m' = (Returns (VBool false), m'').
Proof.
  apply (export_switches_password_sync_off "export.json" 8%nat 10%nat loaded).
  - vm_compute. eauto.
  - vm_compute. reflexivity.
  - vm_compute. reflexivity.
  - vm_compute. eauto.
Defined.

(** The loaded configuration is valid and is written. *)
Lemma save_writes_valid_configurations_only_witness :
  heap (save small_schema "config.json" loaded).2 = heap loaded /\
  config (save small_schema "config.json" loaded).2 = config loaded /\
  (small_schema (heap loaded) (config loaded) <> None ->
     @Returns bool true = Returns false /\
     written (save small_schema "config.json" loaded).2 = written loaded) /\
  (@Returns bool true = Returns true ->
     small_schema (heap loaded) (config loaded) = None /\
     written (save small_schema "config.json" loaded).2
     = written loaded ++ [Dumped "config.json" (config loaded) (heap loaded)]) /\
  (@Returns bool true <> Returns true ->
     written (save small_schema "config.json" loaded).2 = written loaded \/
     written (save small_schema "config.json" loaded).2
     = written loaded ++ [Truncated "config.json"]).
Proof.
  apply (save_writes_valid_configurations_only small_schema "config.json" loaded
           (Returns true)).
  vm_compute. reflexivity.
Defined.

End configuration_examples.

End configuration.
